(** * Helm dependency resolution of clk_extension_k8s ([python/k8s.py])

    A shallow embedding of the [Chart] class (lines 672-825) and of the
    [helm_dependency_update] command (lines 828-872), over a virtual file
    system, followed by the properties of the resolver, the substituter and
    the cleaner.

    The code works on the file system and calls [helm]: the file system is
    a tree, threaded through the calls with a trace of the calls to [helm];
    an exception is an error result, and the state at that point is kept.
    What the code logs is left out.

    The paths are absolute and the file system holds files and directories
    only, no symbolic link: [Path.resolve] gives a path back as it is, and a
    directory met below a chart is part of that chart. *)

From Stdlib Require Import Ascii.
From stdpp Require Import gmap strings stringmap list fin_maps.

Set Warnings "-register-all,-clear-no-such-hyp".

(** ** Strings, with the [str] methods the code uses *)

(** [s.startswith(prefix)] *)
Definition startswith (s prefix : string) : bool := String.prefix prefix s.

(** [s.endswith(suffix)] *)
Definition endswith (s suffix : string) : bool :=
  let n := String.length s in
  let k := String.length suffix in
  bool_decide (k ≤ n) && bool_decide (String.substring (n - k) k s = suffix).

(** [s[:-k]] for a positive [k] *)
Definition drop_last (k : nat) (s : string) : string :=
  String.substring 0 (String.length s - k) s.

(** ** Chart manifests ([Chart.yaml]) *)

Record Dependency := MkDependency {
  dep_name : string;
  dep_version : string;
  dep_repository : string  (* passed through to helm, never inspected *)
}.

Record Manifest := MkManifest {
  m_name : string;
  m_version : string;
  m_dependencies : list Dependency  (* [index.get('dependencies', [])] *)
}.

Global Instance dependency_eq_dec : EqDecision Dependency.
Proof. solve_decision. Defined.
Global Instance manifest_eq_dec : EqDecision Manifest.
Proof. solve_decision. Defined.

(** [compute_name] reads the keys ["name"] and ["version"] of whatever
    mapping it is given: the chart's own index or one of its dependencies. *)
Class Metadata (A : Type) := {
  md_name : A → string;
  md_version : A → string
}.
Global Instance manifest_metadata : Metadata Manifest :=
  {| md_name := m_name; md_version := m_version |}.
Global Instance dependency_metadata : Metadata Dependency :=
  {| md_name := dep_name; md_version := dep_version |}.

Definition compute_name `{Metadata A} (metadata : A) : string :=
  md_name metadata +:+ "-" +:+ md_version metadata.

(** ** The file system *)

Abbreviation path := (list string).

Inductive node :=
| Blob                                (* a file of plain text, or empty *)
| Yaml (content : Manifest)           (* a YAML file holding a manifest *)
| Tgz (members : gmap string node)    (* a gzipped tar archive *)
| Dir (entries : gmap string node).

Definition is_dir_node (t : node) : bool :=
  match t with Dir _ => true | _ => false end.

(** What is found at [p] below [cur] ([None]: nothing). *)
Fixpoint get (p : path) (cur : option node) : option node :=
  match p with
  | [] => cur
  | x :: q =>
      match cur with
      | Some (Dir es) => get q (es !! x)
      | _ => None
      end
  end.

(** Replace what is at [p] below [cur] by [o] ([None] removes it). The
    directories on the way must exist, unless [parents] asks for them to be
    created; the outer [None] is a failure. *)
Fixpoint put (parents : bool) (p : path) (o : option node) (cur : option node)
    : option (option node) :=
  match p with
  | [] => Some o
  | x :: q =>
      match cur with
      | Some (Dir es) =>
          r ← put parents q o (es !! x);
          Some (Some (Dir (partial_alter (λ _, r) x es)))
      | None =>
          if parents then
            r ← put parents q o None;
            Some (Some (Dir (partial_alter (λ _, r) x ∅)))
          else None
      | Some _ => None
      end
  end.

Definition lookup_path (p : path) (t : node) : option node := get p (Some t).

Definition fs_put (parents : bool) (p : path) (o : option node) (t : node)
    : option node :=
  mjoin (put parents p o (Some t)).

(** [Path.name] *)
Definition basename (p : path) : string := default "" (last p).

(** ** Effects: a state that survives errors *)

Inductive error :=
| UsageError            (* click.UsageError *)
| YAMLError
| TypeError
| NotImplementedError
| FileNotFoundError
| FileExistsError
| NotADirectoryError
| IsADirectoryError
| ShutilError           (* shutil.Error *)
| OSError
| ReadError             (* tarfile.ReadError *)
| StopIteration
| CalledProcessError    (* an external command failed *)
| RecursionError.

(** The calls to the external tools, in order; a nested
    [update_dependencies] call keeps its own events. *)
Inductive event :=
| EvPackage (chart directory : path)
| EvFetch (deps_to_update : list Dependency)
| EvTouch (file : path)
| EvResolve (inner : list event).

Record state := State {
  fs : node;
  experimental_oci : bool;   (* [config.experimental_oci] *)
  trace : list event
}.

Definition set_fs (t : node) (st : state) : state :=
  {| fs := t; experimental_oci := experimental_oci st; trace := trace st |}.
Definition set_trace (tr : list event) (st : state) : state :=
  {| fs := fs st; experimental_oci := experimental_oci st; trace := tr |}.
Definition set_experimental_oci (b : bool) (st : state) : state :=
  {| fs := fs st; experimental_oci := b; trace := trace st |}.

Definition M (A : Type) : Type := state → state * (error + A).

Global Instance M_ret : MRet M := λ A x st, (st, inr x).
Definition bind {A B} (m : M A) (f : A → M B) : M B := λ st,
  match m st with
  | (st', inr x) => f x st'
  | (st', inl e) => (st', inl e)
  end.
Global Instance M_bind : MBind M := λ A B f m, bind m f.

Declare Scope M_scope.
Delimit Scope M_scope with M.
Bind Scope M_scope with M.
Notation "'let*' x := m 'in' k" := (bind m (λ x, k))
  (at level 10, x name, m at level 100, k at level 200) : M_scope.
Notation "m ;; k" := (bind m (λ _, k))
  (at level 100, k at level 200, right associativity) : M_scope.
Open Scope M_scope.

Definition raise {A} (e : error) : M A := λ st, (st, inl e).
Definition emit (ev : event) : M unit :=
  λ st, (set_trace (trace st ++ [ev]) st, inr ()).
Definition when (b : bool) (m : M unit) : M unit := if b then m else mret ().

(** [for x in l: acc = f(acc, x)] *)
Fixpoint foldM {A B} (f : B → A → M B) (acc : B) (l : list A) : M B :=
  match l with
  | [] => mret acc
  | x :: l' => let* acc' := f acc x in foldM f acc' l'
  end.

(** [for x in l: f(x)] *)
Definition forM {A} (f : A → M unit) (l : list A) : M unit :=
  foldM (λ _ x, f x) () l.

(** Run [m] as a call of its own: its events are wrapped in one
    [EvResolve]. *)
Definition nested {A} (m : M A) : M A := λ st,
  let '(st', r) := m (set_trace [] st) in
  (set_trace (trace st ++ [EvResolve (trace st')]) st', r).

(** ** [pathlib], [os], [shutil], [tarfile] and [clk.lib] on the file system *)

(** [p.exists()] *)
Definition exists_ (p : path) : M bool :=
  λ st, (st, inr (bool_decide (is_Some (lookup_path p (fs st))))).

(** [p.is_dir()] *)
Definition is_dir (p : path) : M bool :=
  λ st, (st, inr (from_option is_dir_node false (lookup_path p (fs st)))).

(** [p.iterdir()] and [os.listdir(p)]: the entries of a directory, in the
    order the file system gives them. *)
Definition listdir (p : path) : M (list string) := λ st,
  match lookup_path p (fs st) with
  | Some (Dir es) => (st, inr (fst <$> map_to_list es))
  | Some _ => (st, inl NotADirectoryError)
  | None => (st, inl FileNotFoundError)
  end.
Definition iterdir (p : path) : M (list path) :=
  let* names := listdir p in mret ((λ n, p ++ [n]) <$> names).

Definition write (parents : bool) (p : path) (o : option node) (e : error)
    : M unit := λ st,
  match fs_put parents p o (fs st) with
  | Some t => (set_fs t st, inr ())
  | None => (st, inl e)
  end.

(** The error of the system on a path that cannot be reached: a regular
    file on the way, or else a directory that is missing. *)
Fixpoint unreachable (p : path) (cur : option node) : error :=
  match cur, p with
  | Some (Dir es), x :: q => unreachable q (es !! x)
  | Some _, _ :: _ => NotADirectoryError
  | _, _ => FileNotFoundError
  end.

(** [with clk.lib.cd(directory)]: [os.chdir] on the way in. *)
Definition cd (directory : path) : M unit := λ st,
  match lookup_path directory (fs st) with
  | Some (Dir _) => (st, inr ())
  | Some _ => (st, inl NotADirectoryError)
  | None => (st, inl (unreachable directory (Some (fs st))))
  end.

(** [clk.lib.rm]: [shutil.rmtree] of a directory, [os.unlink] otherwise. *)
Definition rm (p : path) : M unit :=
  let* present := exists_ p in
  if present then write false p None OSError else raise FileNotFoundError.

(** [clk.lib.makedirs]: [os.makedirs] unless the path exists. *)
Definition makedirs (p : path) : M unit :=
  let* present := exists_ p in
  if present then mret () else write true p (Some (Dir ∅)) NotADirectoryError.

(** [clk.lib.copy]: [shutil.copytree] of a directory (the destination must
    not exist, its parents are created), [shutil.copy] otherwise (into the
    destination when that is a directory). *)
Definition copy (src dst : path) : M unit := λ st,
  match lookup_path src (fs st) with
  | None => (st, inl FileNotFoundError)
  | Some (Dir es) =>
      match lookup_path dst (fs st) with
      | Some _ => (st, inl FileExistsError)
      | None => write true dst (Some (Dir es)) NotADirectoryError st
      end
  | Some file =>
      match lookup_path dst (fs st) with
      | Some (Dir _) =>
          write false (dst ++ [basename src]) (Some file) OSError st
      | _ =>
          write false dst (Some file) (unreachable dst (Some (fs st))) st
      end
  end.

(** [clk.lib.move], that is [shutil.move]: into the destination when that is
    a directory (where nothing of that name may be), in its place otherwise.
    [os.rename] does it, and where that fails a directory is moved by
    [shutil.copytree], which makes the directories that are missing on the
    way, but neither into itself nor over a file; a move that fails leaves
    the source where it is. *)
Definition move (src dst : path) : M unit := λ st,
  match lookup_path src (fs st) with
  | None => (st, inl (unreachable src (Some (fs st))))
  | Some t =>
      let into := from_option is_dir_node false (lookup_path dst (fs st)) in
      let real_dst := if into then dst ++ [basename src] else dst in
      let taken := bool_decide (is_Some (lookup_path real_dst (fs st))) in
      if into && taken then (st, inl ShutilError)
      else if is_dir_node t && bool_decide (src `prefix_of` real_dst)
      then (st, inl ShutilError)
      else if is_dir_node t && taken then (st, inl FileExistsError)
      else
        match fs_put false src None (fs st)
              ≫= fs_put (is_dir_node t) real_dst (Some t) with
        | Some t' => (set_fs t' st, inr ())
        | None => (st, inl (unreachable real_dst (Some (fs st))))
        end
  end.

(** [tarfile.open(archive, mode="r:gz")] then [tar.extractall(target)]. The
    target becomes a directory of the members of the archive, and an archive
    without members leaves no directory. The code unpacks into a directory of
    a temporary directory it has just made: nothing is at the target, unless
    the same archive has been unpacked there before, and then what it left is
    replaced, not merged with the members. *)
Definition extractall (archive target : path) : M unit := λ st,
  match lookup_path archive (fs st) with
  | None => (st, inl (unreachable archive (Some (fs st))))
  | Some (Tgz members) =>
      if bool_decide (members = ∅) then (st, inr ())
      else write true target (Some (Dir members)) NotADirectoryError st
  | Some (Dir _) => (st, inl IsADirectoryError)
  | Some _ => (st, inl ReadError)
  end.

(** [tempfile.mkdtemp()]: a directory of a name not in use, in [/tmp]. *)
Definition tmp_root : path := ["tmp"].
Definition mkdtemp : M path := λ st,
  match lookup_path tmp_root (fs st) with
  | Some (Dir es) =>
      let d := tmp_root ++ [fresh_string "tmp" es] in
      (write false d (Some (Dir ∅)) OSError;; mret d) st
  | Some _ => (st, inl NotADirectoryError)
  | None => (st, inl FileNotFoundError)
  end.

(** [with clk.lib.tempdir() as d: body]: the directory is removed on every
    way out. *)
Definition tempdir {A} (body : path → M A) : M A :=
  let* d := mkdtemp in
  λ st,
    let '(st1, r) := body d st in
    match rm d st1 with
    | (st2, inr _) => (st2, r)
    | (st2, inl e) => (st2, inl e)
    end.

(** [os.utime(p)] *)
Definition utime (p : path) : M unit :=
  let* present := exists_ p in
  if present then emit (EvTouch p) else raise FileNotFoundError.

(** ** The [Chart] class *)

Record Chart := MkChart {
  location : path;
  index : Manifest
}.

Global Instance Chart_eq_dec : EqDecision Chart.
Proof. solve_decision. Defined.

Definition subcharts_dir (self : Chart) : path := location self ++ ["charts"].
Definition index_path (self : Chart) : path := location self ++ ["Chart.yaml"].
Definition name (self : Chart) : string := compute_name (index self).
Definition dependencies (self : Chart) : list Dependency :=
  m_dependencies (index self).
Definition dependencies_fullnames (self : Chart) : list string :=
  compute_name <$> dependencies self.

(** [Path(location).resolve()]: nothing to follow and nothing to
    normalise. *)
Definition resolve (location : path) : path := location.

(** [Chart.__init__]: without a [Chart.yaml] the usage error; the index is
    what [yaml.load] reads from it. Of a file of text it reads no mapping,
    and [compute_name] fails on what it reads; an archive is no text. *)
Definition Chart_init (location : path) : M Chart :=
  let location := resolve location in
  let* present := exists_ (location ++ ["Chart.yaml"]) in
  if negb present then raise UsageError
  else λ st,
    match lookup_path (location ++ ["Chart.yaml"]) (fs st) with
    | Some (Yaml content) =>
        (st, inr {| location := location; index := content |})
    | Some Blob => (st, inl TypeError)
    | Some (Tgz _) => (st, inl YAMLError)
    | Some (Dir _) => (st, inl IsADirectoryError)
    | None => (st, inl FileNotFoundError)
    end.

(** [Chart.match_to_dependencies] *)
Definition match_to_dependencies (self : Chart) (name : string) : list string :=
  filter (λ dependency, startswith dependency name = true)
         (dependencies_fullnames self).

(** [Chart.find_one_source]; the warning it logs is not modelled. *)
Definition find_one_source (dependency : string) (subchart_sources : list Chart)
    : error + option Chart :=
  let match_ :=
    filter (λ chart, startswith dependency (name chart) = true)
           subchart_sources in
  if bool_decide (1 < length match_) then inl NotImplementedError
  else match match_ with
       | [] => inr None
       | chart :: _ => inr (Some chart)
       end.

Definition lift {A} (r : error + A) : M A := λ st, (st, r).

(** [self.subcharts_dir / item] and [Path(item).name], for an [item] that
    is a file name ([str]) or an absolute [Path]. *)
Definition joinpath (dir : path) (item : string + path) : path :=
  match item with
  | inl file => dir ++ [file]
  | inr p => p
  end.
Definition item_name (item : string + path) : string :=
  match item with
  | inl file => file
  | inr p => basename p
  end.

(** The external tools. [helm package] makes of a chart directory the name
    and the content of an archive; [helm dependency update] makes of a
    manifest (and of the experimental-OCI switch) the [charts] directory it
    downloads. [None]: the command fails. *)
Class Helm := {
  call_helm_package : node → option (string * node);
  call_helm_dependency_update : bool → Manifest → option (gmap string node)
}.

Section Resolver.

Context `{Helm}.

(** [Chart.package], always called with a directory here: [helm package]
    is run in that directory and leaves its archive there. *)
Definition package (self : Chart) (directory : path) : M unit :=
  cd directory;;
  emit (EvPackage (location self) directory);;
  λ st,
    match lookup_path (location self) (fs st) ≫= call_helm_package with
    | Some (file, archive) =>
        write false (directory ++ [file]) (Some archive) OSError st
    | None => (st, inl CalledProcessError)
    end.

(** [Chart.get_dependencies_with_helm] *)
Definition get_dependencies_with_helm (self : Chart)
    (deps_to_update : list Dependency) : M (gset string) :=
  let chart_to_update :=
    {| m_name := m_name (index self);
       m_version := m_version (index self);
       m_dependencies := deps_to_update |} in
  tempdir (λ d,
    write false (d ++ ["Chart.yaml"]) (Some (Yaml chart_to_update)) OSError;;
    emit (EvFetch deps_to_update);;
    (λ st,
       match call_helm_dependency_update (experimental_oci st)
               chart_to_update with
       | Some charts =>
           write false (d ++ ["charts"]) (Some (Dir charts)) OSError st
       | None => (st, inl CalledProcessError)
       end);;
    let* listing := listdir (d ++ ["charts"]) in
    let generated_dependencies : gset string := list_to_set listing in
    forM (λ gd,
            makedirs (subcharts_dir self);;
            let old_path := d ++ ["charts"; gd] in
            let new_path := subcharts_dir self ++ [gd] in
            let* present := exists_ new_path in
            when present (rm new_path);;
            move old_path new_path)
         (elements generated_dependencies);;
    mret generated_dependencies).

(** The body of the loop of [Chart.resolve_subcharts], on one entry of
    [self.subcharts_dir]; [recur] is the recursive call. *)
Definition substitute_subchart (recur : Chart → M bool)
    (subchart_sources : list Chart) (updated : bool) (subchart_dir : path)
    : M bool :=
  let* directory := is_dir subchart_dir in
  if directory then
    let* subchart := Chart_init subchart_dir in
    let* src := lift (find_one_source (name subchart) subchart_sources) in
    match src with
    | Some src =>
        rm (location subchart);;
        copy (location src) (location subchart);;
        mret true
    | None =>
        let* below := recur subchart in
        mret (below || updated)
    end
  else mret updated.

(** [Chart.resolve_subcharts]; [fuel] bounds the depth of the calls, as
    the stack of the interpreter does, and the call that has none left
    raises [RecursionError]. *)
Fixpoint resolve_subcharts (fuel : nat) (self : Chart)
    (subchart_sources : list Chart) : M bool :=
  match fuel with
  | 0 => raise RecursionError
  | S fuel' =>
      let* present := exists_ (subcharts_dir self) in
      if negb present then mret false
      else
        let* listing := iterdir (subcharts_dir self) in
        foldM (substitute_subchart
                 (λ subchart, resolve_subcharts fuel' subchart subchart_sources)
                 subchart_sources)
              false listing
  end.

(** The body of the first loop of [Chart.update_dependencies], on one
    dependency; the accumulator is [to_fetch_with_helm], [to_resolve] and
    [updated], and [recur] is the recursive call on a source. *)
Definition resolve_dependency (recur : Chart → M bool) (self : Chart)
    (subchart_sources : list Chart) (force : bool)
    (acc : list Dependency * gset path * bool) (dependency : Dependency)
    : M (list Dependency * gset path * bool) :=
  let '(to_fetch_with_helm, to_resolve, updated) := acc in
  let dependency_name := compute_name dependency +:+ ".tgz" in
  let* src :=
    lift (find_one_source (compute_name dependency) subchart_sources) in
  match src with
  | Some src =>
      let* _ := nested (recur src) in
      package src (subcharts_dir self);;
      mret (to_fetch_with_helm, to_resolve, true)
  | None =>
      if force then
        mret (to_fetch_with_helm ++ [dependency], to_resolve, updated)
      else
        let* present := exists_ (subcharts_dir self ++ [dependency_name]) in
        if present then
          mret (to_fetch_with_helm,
                to_resolve ∪ {[subcharts_dir self ++ [dependency_name]]},
                updated)
        else
          mret (to_fetch_with_helm ++ [dependency], to_resolve, updated)
  end.

(** The body of the second loop of [Chart.update_dependencies], on one
    archive to look into; [substitute] is [resolve_subcharts]. *)
Definition resolve_archive (substitute : Chart → M bool) (self : Chart)
    (d : path) (dependency_to_resolve : string + path) : M unit :=
  let dependency_chart_location :=
    joinpath (subcharts_dir self) dependency_to_resolve in
  let temp_dependency_location := d ++ [item_name dependency_to_resolve] in
  extractall dependency_chart_location temp_dependency_location;;
  let* extracted := iterdir temp_dependency_location in
  match extracted with
  | [] => raise StopIteration
  | first :: _ =>
      let* dependency_chart := Chart_init first in
      let* updated_subcharts := substitute dependency_chart in
      when updated_subcharts
        (rm dependency_chart_location;;
         package dependency_chart (subcharts_dir self))
  end.

(** The first loop alone. *)
Definition collect_dependencies (recur : Chart → M bool) (self : Chart)
    (subchart_sources : list Chart) (force : bool)
    : M (list Dependency * gset path * bool) :=
  foldM (resolve_dependency recur self subchart_sources force) ([], ∅, false)
        (dependencies self).

(** What follows the first loop. *)
Definition fetch_and_substitute (substitute : Chart → M bool) (self : Chart)
    (acc : list Dependency * gset path * bool) : M bool :=
  let '(to_fetch_with_helm, to_resolve, updated) := acc in
  let* generated_dependencies :=
    match to_fetch_with_helm with
    | [] => mret ∅
    | _ :: _ => get_dependencies_with_helm self to_fetch_with_helm
    end in
  let to_look_into : gset (string + path) :=
    set_map inl generated_dependencies ∪ set_map inr to_resolve in
  if bool_decide (generated_dependencies ≠ ∅ ∨ to_resolve ≠ ∅) then
    tempdir (λ d,
      forM (resolve_archive substitute self d) (elements to_look_into));;
    mret true
  else mret updated.

(** [Chart.update_dependencies]; the two sets are gone through in the order
    of [elements], the code going through them in no order it chooses. *)
Fixpoint update_dependencies (fuel : nat) (self : Chart)
    (subchart_sources : list Chart) (force : bool) : M bool :=
  match fuel with
  | 0 => raise RecursionError
  | S fuel' =>
      when (bool_decide (dependencies self ≠ []))
           (makedirs (subcharts_dir self));;
      let* acc :=
        collect_dependencies
          (λ src, update_dependencies fuel' src subchart_sources force)
          self subchart_sources force in
      fetch_and_substitute
        (λ chart, resolve_subcharts fuel' chart subchart_sources) self acc
  end.

(** [Chart.clean_dependencies] *)
Definition clean_dependencies (self : Chart) : M unit :=
  let* listing := iterdir (subcharts_dir self) in
  forM (λ file,
          when (endswith (basename file) ".tgz"
                && bool_decide (match_to_dependencies self
                     (drop_last (String.length ".tgz") (basename file)) = []))
               (rm file))
       listing.

(** The command [helm-dependency-update]. *)
Definition helm_dependency_update (fuel : nat) (chart : Chart) (force : bool)
    (touch : option path) (oci : bool) (subchart_sources : list Chart)
    (remove : bool) : M unit :=
  (λ st, (set_experimental_oci oci st, inr ()));;
  let* updated_something :=
    update_dependencies fuel chart subchart_sources force in
  when remove (clean_dependencies chart);;
  match touch with
  | Some file => when updated_something (utime file)
  | None => mret ()
  end.

End Resolver.

(** ** Notions the properties are stated with *)

(** The test of [clean_dependencies] on a file name of the subcharts
    directory: an archive that no dependency claims. *)
Definition extra_archive (self : Chart) (file_name : string) : bool :=
  endswith file_name ".tgz"
  && bool_decide (match_to_dependencies self
       (drop_last (String.length ".tgz") file_name) = []).

(** The sources that [find_one_source] takes as candidates for a
    dependency of that full name. *)
Definition candidates (dependency : string) (subchart_sources : list Chart)
    : list Chart :=
  filter (λ chart, startswith dependency (name chart) = true) subchart_sources.

(** The archive of a dependency in the subcharts directory of a chart. *)
Definition archive_path (self : Chart) (d : Dependency) : path :=
  subcharts_dir self ++ [compute_name d +:+ ".tgz"].

(** Only dependencies without a source are in the batch to fetch and among
    the archives to look into. *)
Definition sourceless (self : Chart) (sources : list Chart)
    (acc : list Dependency * gset path * bool) : Prop :=
  (∀ x, x ∈ acc.1.1 → candidates (compute_name x) sources = [])
  ∧ (∀ p, p ∈ acc.1.2 →
       ∃ x, p = archive_path self x ∧ candidates (compute_name x) sources = []).

(** The batches the remote fetcher was called with by a call of
    [update_dependencies] itself, not by the calls nested in it. *)
Definition own_fetches (events : list event) : list (list Dependency) :=
  omap (λ ev, match ev with EvFetch deps => Some deps | _ => None end) events.

(** [m] only adds events to the trace, and [P] holds of what it adds and of
    its result. *)
Definition traces {A} (P : list event → error + A → Prop) (m : M A) : Prop :=
  ∀ st st' r, m st = (st', r) → ∃ added, trace st' = trace st ++ added ∧ P added r.

(** [m] does not call the remote fetcher. *)
Definition fetch_free {A} (m : M A) : Prop :=
  traces (λ added _, own_fetches added = []) m.

(** Neither path leads through the other. *)
Definition independent (p q : path) : Prop :=
  ¬ p `prefix_of` q ∧ ¬ q `prefix_of` p.

(** In the chart directory [chart_dir], down to [depth] levels of subcharts
    and with nothing deeper, every subchart directory is a chart and no
    source is a candidate for any of them. *)
Fixpoint nothing_to_substitute (depth : nat) (sources : list Chart)
    (chart_dir : node) : bool :=
  match lookup_path ["charts"] chart_dir with
  | None => true
  | Some (Dir subcharts) =>
      forallb
        (λ subchart,
           match subchart with
           | Dir _ =>
               match depth with
               | 0 => false
               | S depth' =>
                   match lookup_path ["Chart.yaml"] subchart with
                   | Some (Yaml content) =>
                       bool_decide
                         (candidates (compute_name content) sources = [])
                       && nothing_to_substitute depth' sources subchart
                   | _ => false
                   end
               end
           | _ => true
           end)
        (snd <$> map_to_list subcharts)
  | Some _ => false
  end.

(** An archive that holds one chart directory in which nothing is to be
    substituted. *)
Definition settled_archive (depth : nat) (sources : list Chart)
    (archive : option node) : bool :=
  match archive with
  | Some (Tgz members) =>
      match map_to_list members with
      | [(top, chart_dir)] =>
          match lookup_path ["Chart.yaml"] chart_dir with
          | Some (Yaml _) => nothing_to_substitute depth sources chart_dir
          | _ => false
          end
      | _ => false
      end
  | _ => false
  end.

(** The file system [cur] is [main] with a scratch directory of content
    [scratch] put at [d]. *)
Definition scratch_at (d : path) (main : node) (scratch : gmap string node)
    (cur : node) : Prop :=
  fs_put false d (Some (Dir scratch)) main = Some cur.

(** The archive of a dependency is in the subcharts directory. *)
Definition in_place (self : Chart) (st : state) (d : Dependency) : Prop :=
  is_Some (lookup_path (archive_path self d) (fs st)).

Global Instance in_place_dec self st d : Decision (in_place self st d).
Proof. unfold in_place. apply _. Defined.

(** The dependencies that a call gives [helm] to fetch when none of them
    has a source: all of them with the force flag, else those whose archive
    is missing. *)
Definition batch (self : Chart) (force : bool) (st : state) : list Dependency :=
  filter (λ d, force = true ∨ ¬ in_place self st d) (dependencies self).

(** The manifest that [get_dependencies_with_helm] writes for [helm]: the
    one of the chart, with the dependencies to fetch in the place of its
    own. *)
Definition chart_to_update (self : Chart) (deps_to_update : list Dependency)
    : Manifest :=
  {| m_name := m_name (index self); m_version := m_version (index self);
     m_dependencies := deps_to_update |}.

(** From [st] to [st'] only the file system has changed, and at [p] or
    below. *)
Definition changed_below (p : path) (st st' : state) : Prop :=
  trace st' = trace st
  ∧ experimental_oci st' = experimental_oci st
  ∧ ∀ q, independent p q → lookup_path q (fs st') = lookup_path q (fs st).

(** Whatever its result, [m] changes the file system at [p] or below, and
    nothing else. *)
Definition writes_below {A} (p : path) (m : M A) : Prop :=
  ∀ st st' r, m st = (st', r) → changed_below p st st'.

(** ** The commands on the cluster

    The other commands of [k8s.py] run programs ([kubectl], [k3d], [kind])
    and download files; here are [KubeCtl], [remove], [install-dependency
    kind] and, of [add-domain], what it does with [k3d]. *)

Module Cluster.

(** [config.kubectl], a [KubeCtl], and [config.k8s.distribution]. *)
Record KubeCtl := { _context : option string }.
Record Config := { distribution : string; kubectl : KubeCtl }.

(** The property [KubeCtl.context] *)
Definition context (config : Config) : option string :=
  match _context (kubectl config) with
  | Some value => Some value
  | None =>
      if decide (distribution config = "k3d") then Some "k3d-k3s-default"
      else if decide (distribution config = "kind") then Some "kind-kind"
      else None
  end.

(** Its setter *)
Definition set_context (value : option string) (config : Config) : Config :=
  {| distribution := distribution config; kubectl := {| _context := value |} |}.

(** What the commands do outside: they run programs and download files. *)
Inductive action :=
| Run (arguments : list string)
| Download (url outfilename : string).

Inductive exception :=
| CalledProcessError
| AttributeError       (* [None.group(1)] *)
| UnboundLocalError.

(** What is outside: whether a program is found, and what it prints, when
    it does not fail; both may depend on what has been done before. *)
Class Shell := {
  which : list action → string → bool;
  stdout : list action → list string → option string
}.

Definition Sh (A : Type) : Type := list action → list action * (exception + A).

Definition ret {A} (x : A) : Sh A := λ done, (done, inr x).
Definition bind {A B} (m : Sh A) (f : A → Sh B) : Sh B := λ done,
  match m done with
  | (done', inr x) => f x done'
  | (done', inl e) => (done', inl e)
  end.
Definition raise {A} (e : exception) : Sh A := λ done, (done, inl e).
Definition when (b : bool) (m : Sh unit) : Sh unit := if b then m else ret ().

Declare Scope Sh_scope.
Delimit Scope Sh_scope with Sh.
Bind Scope Sh_scope with Sh.
Notation "'let*' x := m 'in' k" := (bind m (λ x, k))
  (at level 10, x name, m at level 100, k at level 200) : Sh_scope.
Notation "m ;; k" := (bind m (λ _, k))
  (at level 100, k at level 200, right associativity) : Sh_scope.

(** The pattern [v[0-9.]+] at the start of [s]: what it matches, taking as
    much as it can, and what follows. *)
Definition version_char (c : Ascii.ascii) : bool :=
  bool_decide (c ∈ String.list_ascii_of_string "0123456789.").
Fixpoint span (p : Ascii.ascii → bool) (s : string) : string * string :=
  match s with
  | String c s' =>
      if p c then let '(taken, rest) := span p s' in (String c taken, rest)
      else ("", s)
  | "" => ("", "")
  end.
Definition version_at (s : string) : option (string * string) :=
  match s with
  | String "v"%char s' =>
      match span version_char s' with
      | ("", _) => None
      | (digits, rest) => Some (String "v"%char digits, rest)
      end
  | _ => None
  end.

(** [re.search('/(v[0-9.]+)/', s)], its group 1: what follows the version
    is not a digit or a dot, so that only the longest run can match. *)
Fixpoint search_version (s : string) : option string :=
  match s with
  | String c s' =>
      match (if decide (c = "/"%char) then version_at s' else None) with
      | Some (version, String "/"%char _) => Some version
      | _ => search_version s'
      end
  | "" => None
  end.

Fixpoint strip_prefix (prefix s : string) : option string :=
  match prefix, s with
  | "", _ => Some s
  | String a prefix', String b s' =>
      if decide (a = b) then strip_prefix prefix' s' else None
  | _, _ => None
  end.

(** [re.match('kind (v[0-9.]+) .+', s)], its group 1; [.] is any character
    but a newline. *)
Definition match_kind_version (s : string) : option string :=
  match strip_prefix "kind " s ≫= version_at with
  | Some (version, String " "%char (String c _)) =>
      if decide (c = "010"%char) then None else Some version
  | _ => None
  end.

Section Commands.

Context `{Shell}.

(** [clk.lib.check_output] and [clk.lib.call] *)
Definition check_output (arguments : list string) : Sh string := λ done,
  (done ++ [Run arguments],
   match stdout done arguments with
   | Some output => inr output
   | None => inl CalledProcessError
   end).
Definition call (arguments : list string) : Sh unit :=
  (let* _ := check_output arguments in ret ())%Sh.

(** [clk.lib.which], for its truth value *)
Definition found (program : string) : Sh bool :=
  λ done, (done, inr (which done program)).

(** [clk.lib.download] *)
Definition download (url outfilename : string) : Sh unit :=
  λ done, (done ++ [Download url outfilename], inr ()).

(** [KubeCtl.call] and [KubeCtl.output] *)
Definition kubectl_call (config : Config) (arguments : list string) : Sh unit :=
  match context config with
  | Some context => call (["kubectl"; "--context"; context] ++ arguments)
  | None => call (["kubectl"] ++ arguments)
  end.
Definition kubectl_output (config : Config) (arguments : list string)
    : Sh string :=
  match context config with
  | Some context => check_output (["kubectl"; "--context"; context] ++ arguments)
  | None => check_output (["kubectl"] ++ arguments)
  end.

(** The command [remove] *)
Definition remove (config : Config) (target : string) : Sh unit :=
  (if decide (distribution config = "k3d") then
     when (bool_decide (target ∈ ["all"; "cluster"]))
          (call ["k3d"; "cluster"; "delete"]);;
     when (bool_decide (target ∈ ["all"; "registry"]))
          (call ["k3d"; "registry"; "delete"; "k3d-registry.localhost"])
   else if decide (distribution config = "kind") then
     when (bool_decide (target ∈ ["all"; "cluster"]))
          (call ["kind"; "delete"; "cluster"])
   else ret ())%Sh.

(** [m.group(1)] of a match object, or of [None] *)
Definition group1 (m : option string) : Sh string :=
  match m with
  | Some group => ret group
  | None => raise AttributeError
  end.

Definition kind_url : string :=
  "https://kind.sigs.k8s.io/dl/v0.11.1/kind-linux-amd64".

(** The command [install-dependency kind]; the local variable
    [found_kind_version] is bound only when [kind] is found. *)
Definition kind (config : Config) (force : bool) : Sh unit :=
  (if decide (distribution config ≠ "kind") then ret ()
   else
     let* kind_version := group1 (search_version kind_url) in
     let* missing :=
       if negb force then let* present := found "kind" in ret (negb present)
       else ret false in
     let force := force || missing in
     let* present := found "kind" in
     let* found_kind_version :=
       if present then
         let* output := check_output ["kind"; "version"] in
         let* version := group1 (match_kind_version output) in
         ret (Some version)
       else ret None in
     let* differs :=
       if negb force then
         match found_kind_version with
         | Some version => ret (bool_decide (version ≠ kind_version))
         | None => raise UnboundLocalError
         end
       else ret false in
     let force := force || differs in
     if force then download kind_url "kind" else ret ())%Sh.

End Commands.

(** [s.split("\n")] *)
Fixpoint split_lines (s : string) : list string :=
  match s with
  | "" => [""]
  | String c s' =>
      if decide (c = "010"%char) then "" :: split_lines s'
      else match split_lines s' with
           | line :: lines => String c line :: lines
           | [] => [String c ""]
           end
  end.

(** The command [add-domain] with the distribution [k3d], from the
    [NodeHosts] of the ConfigMap that [kubectl get] has given to the one
    that [kubectl apply] is given; [None]: nothing is applied. *)
Definition add_domain_k3d (domain ip node_hosts : string) : option string :=
  let data := ip +:+ " " +:+ domain in
  if bool_decide (data ∉ split_lines node_hosts)
  then Some (data +:+ String "010"%char node_hosts)
  else None.

(** No newline in [s]. *)
Fixpoint one_line (s : string) : bool :=
  match s with
  | "" => true
  | String c s' => bool_decide (c ≠ "010"%char) && one_line s'
  end.

End Cluster.

(** ** A small installation, to run the code on *)

Module Sample.

(** [helm package] as its documentation has it: the archive is named after
    the name and the version of the manifest, and holds the chart
    directory under the chart's name. *)
Definition helm_package (chart_dir : node) : option (string * node) :=
  match lookup_path ["Chart.yaml"] chart_dir with
  | Some (Yaml content) =>
      Some (compute_name content +:+ ".tgz",
            Tgz {[ m_name content := chart_dir ]})
  | _ => None
  end.

(** No repository can be reached. *)
Definition offline (oci : bool) (content : Manifest)
    : option (gmap string node) := None.

Definition helm : Helm :=
  {| call_helm_package := helm_package;
     call_helm_dependency_update := offline |}.

(** A repository that has every chart asked for, without dependencies. *)
Definition download (oci : bool) (content : Manifest)
    : option (gmap string node) :=
  Some (list_to_map
    ((λ d, (compute_name d +:+ ".tgz",
            Tgz {[ dep_name d :=
                   Dir {[ "Chart.yaml" :=
                          Yaml (MkManifest (dep_name d) (dep_version d) []) ]} ]}))
     <$> m_dependencies content)).

Definition helm_online : Helm :=
  {| call_helm_package := helm_package;
     call_helm_dependency_update := download |}.

Definition chart_dir (content : Manifest) (charts : option node) : node :=
  Dir (<["Chart.yaml" := Yaml content]>
         (from_option (λ c, {[ "charts" := c ]}) ∅ charts)).

Definition x_1_0 : Manifest := MkManifest "x" "1.0" [].
Definition y_2_0 : Manifest := MkManifest "y" "2.0" [].
Definition app_0_1 : Manifest :=
  MkManifest "app" "0.1" [MkDependency "x" "1.0" "https://charts.example"].

Definition archive_of (content : Manifest) : node :=
  Tgz {[ m_name content := chart_dir content None ]}.

(** [/app] depends on [x-1.0]; [x-1.0.tgz] and [y-2.0.tgz] are in
    [/app/charts]. *)
Definition app : Chart := {| location := ["app"]; index := app_0_1 |}.
Definition root_fs : node :=
  Dir (<["tmp" := Dir ∅]>
       {[ "app" := chart_dir app_0_1
            (Some (Dir (<["x-1.0.tgz" := archive_of x_1_0]>
                        {[ "y-2.0.tgz" := archive_of y_2_0 ]}))) ]}).
Definition start : state :=
  {| fs := root_fs; experimental_oci := true; trace := [] |}.

(** [/web] depends on [foo-1.0]; two source charts, [foo] in the versions
    [1.0] and [1], have full names that [foo-1.0] starts with. *)
Definition web_0_1 : Manifest :=
  MkManifest "web" "0.1" [MkDependency "foo" "1.0" "https://charts.example"].
Definition foo_1_0 : Manifest := MkManifest "foo" "1.0" [].
Definition foo_1 : Manifest := MkManifest "foo" "1" [].
Definition web : Chart := {| location := ["web"]; index := web_0_1 |}.
Definition source_a : Chart := {| location := ["src"; "a"]; index := foo_1_0 |}.
Definition source_b : Chart := {| location := ["src"; "b"]; index := foo_1 |}.
Definition web_fs (web_charts : option node) : node :=
  Dir (<["tmp" := Dir ∅]>
      (<["web" := chart_dir web_0_1 web_charts]>
       {[ "src" := Dir (<["a" := chart_dir foo_1_0 None]>
                        {[ "b" := chart_dir foo_1 None ]}) ]})).
Definition web_start : state :=
  {| fs := web_fs None; experimental_oci := true; trace := [] |}.

(** [/web] after [foo-1.0] has been packaged from the source [/src/a], once
    and twice. *)
Definition web_packaged (calls : nat) : state :=
  {| fs := web_fs (Some (Dir {[ "foo-1.0.tgz" :=
                                Tgz {[ "foo" := chart_dir foo_1_0 None ]} ]}));
     experimental_oci := true;
     trace := mjoin (replicate calls
                [EvResolve []; EvPackage ["src"; "a"] ["web"; "charts"]]) |}.

(** The chart [a-1.0] holds its dependencies [b-0.1] and [c-0.3] as
    directories; [b] is being worked on in [/work/b], where it has one more
    file than when it was released. *)
Definition a_1_0 : Manifest :=
  MkManifest "a" "1.0" [MkDependency "b" "0.1" "https://charts.example";
                        MkDependency "c" "0.3" "https://charts.example"].
Definition b_0_1 : Manifest := MkManifest "b" "0.1" [].
Definition c_0_3 : Manifest := MkManifest "c" "0.3" [].
Definition b_released_entries : gmap string node :=
  {[ "Chart.yaml" := Yaml b_0_1 ]}.
Definition b_worked_on_entries : gmap string node :=
  <["Chart.yaml" := Yaml b_0_1]> {[ "NOTES.txt" := Blob ]}.
Definition b_released : node := Dir b_released_entries.
Definition b_worked_on : node := Dir b_worked_on_entries.
Definition a_subcharts (b : node) : gmap string node :=
  <["b" := b]> {[ "c" := chart_dir c_0_3 None ]}.
Definition a_entries (b : node) : gmap string node :=
  <["Chart.yaml" := Yaml a_1_0]> {[ "charts" := Dir (a_subcharts b) ]}.
Definition a_dir (b : node) : node := Dir (a_entries b).
Definition work_b : Chart := {| location := ["work"; "b"]; index := b_0_1 |}.

(** [a-1.0] unpacked in [/a]. *)
Definition chart_a : Chart := {| location := ["a"]; index := a_1_0 |}.
Definition unpacked : state :=
  {| fs := Dir (<["a" := a_dir b_released]>
                {[ "work" := Dir {[ "b" := b_worked_on ]} ]});
     experimental_oci := true; trace := [] |}.

(** [/site] depends on [a-1.0], which is in [/site/charts] as an archive. *)
Definition site_1_0 : Manifest :=
  MkManifest "site" "1.0" [MkDependency "a" "1.0" "https://charts.example"].
Definition site_fs (b : node) : node :=
  Dir (<["tmp" := Dir ∅]>
      (<["site" := chart_dir site_1_0
           (Some (Dir {[ "a-1.0.tgz" := Tgz {[ "a" := a_dir b ]} ]}))]>
       {[ "work" := Dir {[ "b" := b_worked_on ]} ]})).
Definition site_resolved : state :=
  {| fs := site_fs b_worked_on; experimental_oci := true;
     trace := [EvPackage ["tmp"; "tmp"; "a-1.0.tgz"; "a"] ["site"; "charts"]] |}.

(** [/lib] has no dependency and was never resolved: no [/lib/charts]. *)
Definition lib : Chart := {| location := ["lib"]; index := x_1_0 |}.
Definition lib_only : state :=
  {| fs := Dir {[ "lib" := chart_dir x_1_0 None ]};
     experimental_oci := true; trace := [] |}.

(** A repository that has nothing of what is asked for. *)
Definition nothing (oci : bool) (content : Manifest)
    : option (gmap string node) := Some ∅.
Definition helm_empty : Helm :=
  {| call_helm_package := helm_package;
     call_helm_dependency_update := nothing |}.

(** [/web] with an empty subcharts directory, and with the archive of
    [foo-1.0] in it. *)
Definition foo_dependency : Dependency :=
  MkDependency "foo" "1.0" "https://charts.example".
Definition foo_archive : node := Tgz {[ "foo" := chart_dir foo_1_0 None ]}.
Definition web_resolving : state :=
  {| fs := web_fs (Some (Dir ∅)); experimental_oci := true; trace := [] |}.
Definition web_resolved (events : list event) : state :=
  {| fs := web_fs (Some (Dir {[ "foo-1.0.tgz" := foo_archive ]}));
     experimental_oci := true; trace := events |}.

(** [/app] without the archive that no dependency claims. *)
Definition cleaned (events : list event) : state :=
  {| fs := Dir (<["tmp" := Dir ∅]>
                {[ "app" := chart_dir app_0_1
                     (Some (Dir {[ "x-1.0.tgz" := archive_of x_1_0 ]})) ]});
     experimental_oci := true; trace := events |}.

(** [a-1.0] unpacked in [/a], with [b] as it is worked on. *)
Definition substituted : state :=
  {| fs := Dir (<["a" := a_dir b_worked_on]>
                {[ "work" := Dir {[ "b" := b_worked_on ]} ]});
     experimental_oci := true; trace := [] |}.

(** Every program is found and prints nothing. *)
Definition shell : Cluster.Shell :=
  {| Cluster.which := λ _ _, true; Cluster.stdout := λ _ _, Some "" |}.

(** [a-1.0] unpacked in [/a] with a directory among its subcharts that is
    no chart. *)
Definition with_notes : state :=
  {| fs := Dir {[ "a" := Dir (<["Chart.yaml" := Yaml a_1_0]>
                              {[ "charts" :=
                                 Dir {[ "notes" :=
                                        Dir {[ "README.md" := Blob ]} ]} ]}) ]};
     experimental_oci := true; trace := [] |}.

(** [/web] with two sources of [foo], in the versions [1.0] and [2.0]:
    [foo-1.0] starts with the name [foo] of both, and with the full name of
    the first alone. *)
Definition foo_2_0 : Manifest := MkManifest "foo" "2.0" [].
Definition source_c : Chart := {| location := ["src"; "c"]; index := foo_2_0 |}.
Definition versions (web_charts : option node) (events : list event) : state :=
  {| fs := Dir (<["tmp" := Dir ∅]>
               (<["web" := chart_dir web_0_1 web_charts]>
                {[ "src" := Dir (<["a" := chart_dir foo_1_0 None]>
                                 {[ "c" := chart_dir foo_2_0 None ]}) ]}));
     experimental_oci := true; trace := events |}.

(** [a-1.0] unpacked in [/a], and [b] worked on in [/work/b] in the
    version [0.2]. *)
Definition b_0_2 : Manifest := MkManifest "b" "0.2" [].
Definition next_b : Chart := {| location := ["work"; "b"]; index := b_0_2 |}.
Definition unpacked_beside_next : state :=
  {| fs := Dir (<["a" := a_dir b_released]>
                {[ "work" := Dir {[ "b" := chart_dir b_0_2 None ]} ]});
     experimental_oci := true; trace := [] |}.


End Sample.

(** * Properties *)

(** ** The file system *)

Lemma get_None p : get p None = None.
Proof. by destruct p. Qed.

Lemma get_app p q cur : get (p ++ q) cur = get q (get p cur).
Proof.
  revert cur. induction p as [|x p IH]; intros cur; [done|].
  destruct cur as [[]|]; simpl; rewrite ?get_None; auto.
Qed.

Lemma put_app parents p q o cur :
  put parents (p ++ q) o cur
  = put parents q o (get p cur) ≫= λ r, put parents p r cur.
Proof.
  revert cur. induction p as [|x p IH]; intros cur; simpl.
  - by destruct (put parents q o cur).
  - destruct cur as [[| | |es]|]; simpl; rewrite ?get_None.
    + by destruct (put parents q o None).
    + by destruct (put parents q o None).
    + by destruct (put parents q o None).
    + rewrite IH. by destruct (put parents q o (get p (es !! x))).
    + destruct parents; [|by destruct (put false q o None)].
      rewrite IH, get_None. by destruct (put true q o None).
Qed.

Lemma get_put parents p o cur r :
  put parents p o cur = Some r → get p r = o.
Proof.
  revert cur r. induction p as [|x p IH]; intros cur r; simpl.
  - congruence.
  - destruct cur as [[| | |es]|]; try done.
    + destruct (put parents p o (es !! x)) as [r1|] eqn:E; [|done].
      intros [= <-]. simpl. rewrite lookup_partial_alter_eq. eauto.
    + destruct parents; [|done].
      destruct (put true p o None) as [r1|] eqn:E; [|done].
      intros [= <-]. simpl. rewrite lookup_partial_alter_eq. eauto.
Qed.

Lemma put_is_Some parents p o cur :
  is_Some (get p cur) → is_Some (put parents p o cur).
Proof.
  revert cur. induction p as [|x p IH]; intros cur; simpl; [eauto|].
  destruct cur as [[| | |es]|]; try (by intros []).
  intros H. destruct (IH _ H) as [r ->]. simpl. eauto.
Qed.

Lemma put_cons_Some parents x p o cur r :
  put parents (x :: p) o cur = Some r → is_Some r.
Proof.
  simpl. destruct cur as [[| | |es]|]; try done.
  - destruct (put parents p o (es !! x)); [|done]. intros [= <-]. eauto.
  - destruct parents; [|done].
    destruct (put true p o None); [|done]. intros [= <-]. eauto.
Qed.

Lemma put_put parents p o o' cur r :
  put parents p o cur = Some r → put parents p o' r = put parents p o' cur.
Proof.
  revert cur r. induction p as [|x p IH]; intros cur r; simpl; [done|].
  destruct cur as [[| | |es]|]; try done.
  - destruct (put parents p o (es !! x)) as [r1|] eqn:E; [|done].
    intros [= <-]. simpl. rewrite lookup_partial_alter_eq, (IH _ _ E).
    destruct (put parents p o' (es !! x)); [|done]. simpl.
    do 3 f_equal. apply map_eq. intros y.
    destruct (decide (x = y)) as [->|];
      by rewrite ?lookup_partial_alter_eq, ?lookup_partial_alter_ne.
  - destruct parents; [|done].
    destruct (put true p o None) as [r1|] eqn:E; [|done].
    intros [= <-]. simpl. rewrite lookup_partial_alter_eq, (IH _ _ E).
    destruct (put true p o' None); [|done]. simpl.
    do 3 f_equal. apply map_eq. intros y.
    destruct (decide (x = y)) as [->|];
      by rewrite ?lookup_partial_alter_eq, ?lookup_partial_alter_ne.
Qed.

(** Writing back what is there changes nothing. *)
Lemma put_get parents p cur :
  is_Some (get p cur) → put parents p (get p cur) cur = Some cur.
Proof.
  revert cur. induction p as [|x p IH]; intros cur; simpl; [done|].
  destruct cur as [[| | |es]|]; try (by intros []).
  intros H. rewrite (IH _ H). simpl. do 3 f_equal.
  apply map_eq. intros y.
  destruct (decide (x = y)) as [->|];
    by rewrite ?lookup_partial_alter_eq, ?lookup_partial_alter_ne.
Qed.

Lemma lookup_fs_put parents p o t t' :
  fs_put parents p o t = Some t' → lookup_path p t' = o.
Proof.
  unfold fs_put, lookup_path.
  destruct (put parents p o (Some t)) as [[r|]|] eqn:E; try done.
  intros [= <-]. eauto using get_put.
Qed.

Lemma fs_put_entry parents dir n o t es :
  lookup_path dir t = Some (Dir es) →
  fs_put parents (dir ++ [n]) o t
  = fs_put parents dir (Some (Dir (partial_alter (λ _, o) n es))) t.
Proof. unfold fs_put, lookup_path. intros H. by rewrite put_app, H. Qed.

Lemma fs_put_fs_put parents p o o' t t' :
  fs_put parents p o t = Some t' → fs_put parents p o' t' = fs_put parents p o' t.
Proof.
  unfold fs_put.
  destruct (put parents p o (Some t)) as [[r|]|] eqn:E; try done.
  intros [= <-]. by rewrite (put_put _ _ _ _ _ _ E).
Qed.

Lemma fs_put_lookup parents p t x :
  lookup_path p t = Some x → fs_put parents p (Some x) t = Some t.
Proof.
  unfold fs_put, lookup_path. intros H.
  rewrite <-H, put_get; [done|]. rewrite H. eauto.
Qed.

Lemma fs_put_is_Some parents p x t :
  is_Some (lookup_path p t) → is_Some (fs_put parents p (Some x) t).
Proof.
  unfold fs_put, lookup_path. intros H.
  destruct (put_is_Some parents p (Some x) _ H) as [r Hr]. rewrite Hr.
  destruct p as [|y p]; [simpl in *; naive_solver|].
  destruct (put_cons_Some _ _ _ _ _ _ Hr) as [? ->]. eauto.
Qed.

Lemma basename_snoc dir n : basename (dir ++ [n]) = n.
Proof. unfold basename. by rewrite last_snoc. Qed.

(** ** The monad *)

Lemma foldM_app {A B} (f : B → A → M B) acc l1 l2 st :
  foldM f acc (l1 ++ l2) st
  = (let* acc' := foldM f acc l1 in foldM f acc' l2) st.
Proof.
  unfold bind. revert acc st.
  induction l1 as [|x l1 IH]; intros acc st; simpl; [reflexivity|].
  unfold bind. destruct (f acc x st) as [st1 [e|acc1]]; [done|]. apply IH.
Qed.

Lemma bind_run {A B} (m : M A) (f : A → M B) st :
  bind m f st
  = match m st with
    | (st', inr x) => f x st'
    | (st', inl e) => (st', inl e)
    end.
Proof. reflexivity. Qed.

(** A loop whose body fails on some element does not run to its end. *)
Lemma foldM_fails_at {A B} (f : B → A → M B) x e l1 l2 :
  (∀ acc st, f acc x st = (st, inl e)) →
  ∀ acc st st' r, foldM f acc (l1 ++ x :: l2) st = (st', r) → ∃ e', r = inl e'.
Proof.
  intros Hx acc st st' r. rewrite foldM_app. unfold bind at 1.
  destruct (foldM f acc l1 st) as [st1 [e1|acc1]].
  - intros [= _ <-]. eauto.
  - simpl. unfold bind. rewrite Hx. intros [= _ <-]. eauto.
Qed.

(** ** Removing entries of a directory *)

Lemma rm_entry dir n es st :
  lookup_path dir (fs st) = Some (Dir es) →
  is_Some (es !! n) →
  ∃ t, rm (dir ++ [n]) st = (set_fs t st, inr ())
       ∧ fs_put false dir (Some (Dir (delete n es))) (fs st) = Some t.
Proof.
  intros Hdir [c Hc]. unfold rm, exists_, bind, write.
  assert (lookup_path (dir ++ [n]) (fs st) = Some c) as Hn.
  { unfold lookup_path in *. rewrite get_app, Hdir. simpl. by rewrite Hc. }
  rewrite Hn, bool_decide_eq_true_2 by eauto.
  rewrite (fs_put_entry _ _ _ _ _ _ Hdir).
  destruct (fs_put_is_Some false dir (Dir (partial_alter (λ _, None) n es)) (fs st))
    as [t Ht]; [rewrite Hdir; eauto|].
  rewrite Ht. eauto.
Qed.

Lemma set_fs_same st : set_fs (fs st) st = st.
Proof. by destruct st. Qed.

(** The loop of [clean_dependencies] over some entries of the directory. *)
Lemma clean_loop self dir names : ∀ es st,
  lookup_path dir (fs st) = Some (Dir es) →
  NoDup names →
  (∀ n, n ∈ names → is_Some (es !! n)) →
  ∃ t,
    forM (λ file, when (extra_archive self (basename file)) (rm file))
         ((λ n, dir ++ [n]) <$> names) st
    = (set_fs t st, inr ())
    ∧ fs_put false dir
        (Some (Dir (filter
           (λ kv, ¬ (kv.1 ∈ names ∧ extra_archive self kv.1 = true)) es)))
        (fs st) = Some t.
Proof.
  induction names as [|n names IH]; intros es st Hdir Hnd Hin.
  - exists (fs st). split; [by rewrite set_fs_same|].
    rewrite map_filter_id; [by apply fs_put_lookup|].
    intros i x _ [Hi _]. simpl in Hi. by apply not_elem_of_nil in Hi.
  - apply NoDup_cons in Hnd as [Hn Hnd].
    unfold forM in *. simpl. unfold bind at 1. rewrite basename_snoc.
    destruct (extra_archive self n) eqn:Hextra; simpl.
    + destruct (rm_entry dir n es st Hdir) as (t1 & Hrm & Ht1).
      { apply Hin. left. }
      rewrite Hrm. cbv beta iota.
      destruct (IH (delete n es) (set_fs t1 st)) as (t2 & Hrun & Ht2); [| done | |].
      { simpl. by apply lookup_fs_put in Ht1. }
      { intros k Hk. rewrite lookup_delete_ne by (intros ->; done).
        apply Hin. by right. }
      exists t2. split; [exact Hrun|]. simpl in Ht2.
      rewrite (fs_put_fs_put _ _ _ _ _ _ Ht1) in Ht2. rewrite <-Ht2.
      do 3 f_equal. apply map_filter_strong_ext_1. intros k x.
      destruct (decide (k = n)) as [->|Hne].
      * rewrite lookup_delete_eq. simpl. split; [|naive_solver].
        intros [HP _]. destruct HP. split; [left|done].
      * rewrite lookup_delete_ne by done. simpl.
        rewrite elem_of_cons. naive_solver.
    + unfold mret, M_ret.
      destruct (IH es st) as (t2 & Hrun & Ht2); [done | done | |].
      { intros k Hk. apply Hin. by right. }
      exists t2. split; [exact Hrun|]. rewrite <-Ht2.
      do 3 f_equal. apply map_filter_ext. intros k x _. simpl.
      rewrite elem_of_cons. split; [naive_solver|].
      intros HP [[->|Hk] He]; [congruence|naive_solver].
Qed.

Lemma clean_dependencies_spec self st es :
  lookup_path (subcharts_dir self) (fs st) = Some (Dir es) →
  ∃ t,
    clean_dependencies self st = (set_fs t st, inr ())
    ∧ fs_put false (subcharts_dir self)
        (Some (Dir (filter (λ kv, extra_archive self kv.1 = false) es)))
        (fs st) = Some t.
Proof.
  intros Hdir. unfold clean_dependencies, iterdir, listdir, bind.
  rewrite Hdir. unfold mret at 1, M_ret at 1.
  destruct (clean_loop self (subcharts_dir self) (fst <$> map_to_list es) es st)
    as (t & Hrun & Ht); [done | apply NoDup_fst_map_to_list | |].
  { intros n (kv & -> & Hkv)%list_elem_of_fmap. destruct kv as [k x].
    apply elem_of_map_to_list in Hkv. eauto. }
  exists t. split; [exact Hrun|]. rewrite <-Ht. do 3 f_equal.
  apply map_filter_ext. intros k x Hk. simpl. split.
  - intros He [_ He']. congruence.
  - intros HP. destruct (extra_archive self k) eqn:He; [|done].
    destruct HP. split; [|done]. apply list_elem_of_fmap.
    exists (k, x). split; [done|]. by apply elem_of_map_to_list.
Qed.

Lemma match_to_dependencies_nil self stem :
  match_to_dependencies self stem = []
  ↔ ∀ d, d ∈ dependencies self → startswith (compute_name d) stem = false.
Proof.
  unfold match_to_dependencies, dependencies_fullnames. split.
  - intros Hnil d Hd. destruct (startswith (compute_name d) stem) eqn:E; [|done].
    destruct (filter_nil_not_elem_of _ _ (compute_name d) Hnil E).
    apply list_elem_of_fmap. eauto.
  - intros Hall. induction (dependencies self) as [|d l IH]; [done|].
    rewrite fmap_cons, filter_cons_False.
    + apply IH. intros d' Hd'. apply Hall. by right.
    + rewrite Hall; [done|left].
Qed.

(** ** The cleaner *)


(** The example of the specification: of [x-1.0.tgz] and [y-2.0.tgz], with
    [x-1.0] the only dependency, [y-2.0.tgz] goes and [x-1.0.tgz] stays. *)
Example clean_sample :
  ∃ st', clean_dependencies Sample.app Sample.start = (st', inr ())
    ∧ lookup_path ["app"; "charts"; "y-2.0.tgz"] (fs st') = None
    ∧ lookup_path ["app"; "charts"; "x-1.0.tgz"] (fs st')
      = Some (Sample.archive_of Sample.x_1_0).
Proof. eexists. split; [vm_compute; reflexivity|]. by vm_compute. Qed.


(** C7. [clean] is idempotent: run again on the state a successful run left,
    it succeeds and leaves that state as it is, so it removes nothing and the
    listing of the subcharts directory is the same. *)
Theorem clean_idempotent self st st' :
  clean_dependencies self st = (st', inr ()) →
  clean_dependencies self st' = (st', inr ()).
Proof.
  intros Hrun.
  assert (∃ es, lookup_path (subcharts_dir self) (fs st) = Some (Dir es)) as [es Hdir].
  { unfold clean_dependencies, iterdir, listdir, bind in Hrun.
    destruct (lookup_path (subcharts_dir self) (fs st)) as [[]|]; try done. eauto. }
  destruct (clean_dependencies_spec self st es Hdir) as (t & Hrun1 & Ht).
  rewrite Hrun in Hrun1. injection Hrun1 as ->.
  pose proof (lookup_fs_put _ _ _ _ _ Ht) as Hdir'.
  destruct (clean_dependencies_spec self (set_fs t st) _ Hdir') as (t2 & Hrun2 & Ht2).
  simpl in Ht2. rewrite map_filter_id in Ht2
    by (intros i x; apply map_lookup_filter_Some_1_2).
  rewrite (fs_put_lookup _ _ _ _ Hdir') in Ht2. injection Ht2 as <-.
  exact Hrun2.
Qed.

Lemma clean_idempotent_witness :
  clean_dependencies Sample.app Sample.start
  = (set_fs (Dir (<["tmp" := Dir ∅]>
       {[ "app" := Sample.chart_dir Sample.app_0_1
            (Some (Dir {[ "x-1.0.tgz" := Sample.archive_of Sample.x_1_0 ]})) ]}))
       Sample.start, inr ())
  ∧ clean_dependencies Sample.app
      (set_fs (Dir (<["tmp" := Dir ∅]>
         {[ "app" := Sample.chart_dir Sample.app_0_1
              (Some (Dir {[ "x-1.0.tgz" := Sample.archive_of Sample.x_1_0 ]})) ]}))
         Sample.start)
    = (set_fs (Dir (<["tmp" := Dir ∅]>
         {[ "app" := Sample.chart_dir Sample.app_0_1
              (Some (Dir {[ "x-1.0.tgz" := Sample.archive_of Sample.x_1_0 ]})) ]}))
         Sample.start, inr ()).
Proof.
  split; [vm_compute; reflexivity|].
  apply (clean_idempotent Sample.app Sample.start). vm_compute. reflexivity.
Defined.

Section ResolverFacts.

Context `{Helm}.

Lemma update_dependencies_S fuel self sources force :
  update_dependencies (S fuel) self sources force
  = (when (bool_decide (dependencies self ≠ [])) (makedirs (subcharts_dir self));;
     let* acc :=
       collect_dependencies
         (λ src, update_dependencies fuel src sources force) self sources force in
     fetch_and_substitute
       (λ chart, resolve_subcharts fuel chart sources) self acc).
Proof. reflexivity. Qed.

Lemma update_dependencies_no_dependency fuel self sources force st :
  dependencies self = [] →
  update_dependencies (S fuel) self sources force st = (st, inr false).
Proof.
  intros Hdeps. rewrite update_dependencies_S. unfold collect_dependencies.
  rewrite Hdeps. reflexivity.
Qed.

End ResolverFacts.

(** C10. On a chart without a subcharts directory [clean] fails with the
    error of the directory listing and changes nothing, where [substitute]
    returns false; so the command, asked to remove extra archives of a chart
    that has no dependency and was never resolved, fails. *)
Theorem clean_fails_without_subcharts_dir `{Helm} fuel self sources st :
  lookup_path (subcharts_dir self) (fs st) = None →
  clean_dependencies self st = (st, inl FileNotFoundError)
  ∧ resolve_subcharts (S fuel) self sources st = (st, inr false)
  ∧ (dependencies self = [] →
     ∀ force touch oci,
       helm_dependency_update (S fuel) self force touch oci sources true st
       = (set_experimental_oci oci st, inl FileNotFoundError)).
Proof.
  intros Hdir. split; [|split].
  - unfold clean_dependencies, iterdir, listdir, bind. by rewrite Hdir.
  - simpl. unfold bind, exists_. rewrite Hdir.
    rewrite bool_decide_eq_false_2; [done|]. by intros [].
  - intros Hdeps force touch oci. unfold helm_dependency_update, bind at 1 2.
    rewrite update_dependencies_no_dependency by done.
    unfold when, bind, clean_dependencies, iterdir, listdir, bind. simpl.
    by rewrite Hdir.
Qed.

Lemma clean_fails_without_subcharts_dir_witness :
  lookup_path (subcharts_dir Sample.lib) (fs Sample.lib_only) = None
  ∧ clean_dependencies Sample.lib Sample.lib_only
    = (Sample.lib_only, inl FileNotFoundError)
  ∧ resolve_subcharts 1 Sample.lib [] Sample.lib_only
    = (Sample.lib_only, inr false).
Proof.
  split; [reflexivity|].
  destruct (clean_fails_without_subcharts_dir (H := Sample.helm)
              0 Sample.lib [] Sample.lib_only eq_refl) as (Hclean & Hsub & _).
  by split.
Defined.

(** ** Matching sources *)

Lemma find_one_source_candidates dependency sources :
  find_one_source dependency sources
  = match candidates dependency sources with
    | [] => inr None
    | [chart] => inr (Some chart)
    | _ :: _ :: _ => inl NotImplementedError
    end.
Proof.
  unfold find_one_source. fold (candidates dependency sources).
  destruct (candidates dependency sources) as [|c1 [|c2 l]];
    case_bool_decide; simpl in *; (done || lia).
Qed.

(** C2, as the code has it. A source is a candidate for a dependency exactly
    when the full name [name-version] of the dependency starts with the full
    name [name-version] of the source, the [name] attribute of a [Chart];
    [find_one_source] returns the candidate when there is one, nothing when
    there is none, and fails when there are several. *)
Theorem find_one_source_matches_full_names (d : Dependency) sources :
  let wanted := dep_name d +:+ "-" +:+ dep_version d in
  let full_name s := m_name (index s) +:+ "-" +:+ m_version (index s) in
  find_one_source (compute_name d) sources
  = match filter (λ s, String.prefix (full_name s) wanted = true) sources with
    | [] => inr None
    | [s] => inr (Some s)
    | _ :: _ :: _ => inl NotImplementedError
    end
  ∧ ∀ s, find_one_source (compute_name d) [s]
         = if String.prefix (full_name s) wanted then inr (Some s) else inr None.
Proof.
  intros wanted full_name. split; [apply find_one_source_candidates|].
  intros s. rewrite find_one_source_candidates. unfold candidates.
  change (startswith (compute_name d)) with (λ p, String.prefix p wanted).
  change (name s) with (full_name s).
  destruct (String.prefix (full_name s) wanted) eqn:E.
  - by rewrite filter_cons_True.
  - rewrite filter_cons_False; [done|]. simpl. unfold name, compute_name. simpl.
    fold (full_name s). by rewrite E.
Qed.

(** A dependency [foo-dev] and a source whose manifest has the name [foo]
    and the version [1.0]: the full name of the dependency starts with the
    unversioned name of the source, and the source is not taken. *)
Lemma find_one_source_ignores_unversioned_name :
  startswith (compute_name (MkDependency "foo" "dev" ""))
    (m_name (MkManifest "foo" "1.0" [])) = true
  ∧ find_one_source (compute_name (MkDependency "foo" "dev" ""))
      [MkChart ["src"; "foo"] (MkManifest "foo" "1.0" [])] = inr None.
Proof. split; reflexivity. Qed.

(** ** The resolver: ambiguous sources *)

Lemma resolve_dependency_ambiguous `{Helm} recur self sources force acc d st :
  1 < length (candidates (compute_name d) sources) →
  resolve_dependency recur self sources force acc d st
  = (st, inl NotImplementedError).
Proof.
  intros Hmany. destruct acc as [[to_fetch to_resolve] updated].
  unfold resolve_dependency, bind, lift. rewrite find_one_source_candidates.
  by destruct (candidates (compute_name d) sources) as [|c1 [|c2 l]];
    simpl in *; try lia.
Qed.

(** C3, as the code has it. A source is a candidate for a dependency when
    the full name [name-version] of the dependency starts with the full name
    of the source. When more than one source is a candidate for a dependency
    [d] of a chart, [resolve] on that chart never returns a result; and once the
    dependencies before [d] have gone through, the call fails with
    [NotImplementedError] at [d], in the state those dependencies left:
    nothing is written for [d], and no source is picked. *)
Theorem ambiguous_source_aborts `{Helm} fuel self sources force before d after st :
  dependencies self = before ++ d :: after →
  1 < length (candidates (compute_name d) sources) →
  (∀ st' r, update_dependencies (S fuel) self sources force st = (st', r) →
            ∃ e, r = inl e)
  ∧ ∀ st1 acc1,
      (makedirs (subcharts_dir self);;
       foldM (resolve_dependency
                (λ src, update_dependencies fuel src sources force)
                self sources force)
             ([], ∅, false) before) st = (st1, inr acc1) →
      resolve_dependency (λ src, update_dependencies fuel src sources force)
        self sources force acc1 d st1 = (st1, inl NotImplementedError)
      ∧ update_dependencies (S fuel) self sources force st
        = (st1, inl NotImplementedError).
Proof.
  intros Hdeps Hmany. rewrite update_dependencies_S. unfold collect_dependencies.
  rewrite Hdeps, bool_decide_eq_true_2 by (by destruct before).
  unfold when. split.
  - intros st' r. rewrite bind_run.
    destruct (makedirs (subcharts_dir self) st) as [st0 [e|[]]].
    + intros [= _ <-]. eauto.
    + rewrite bind_run.
      destruct (foldM _ _ (before ++ d :: after) st0) as [st1 [e|acc]] eqn:E.
      * intros [= _ <-]. eauto.
      * eapply foldM_fails_at in E as [e' [=]].
        intros. by apply resolve_dependency_ambiguous.
  - intros st1 acc1. rewrite !(bind_run (makedirs _)).
    destruct (makedirs (subcharts_dir self) st) as [st0 [e|[]]]; [done|].
    intros Hbefore. split; [by apply resolve_dependency_ambiguous|].
    rewrite bind_run, foldM_app, bind_run, Hbefore. simpl.
    by rewrite bind_run, resolve_dependency_ambiguous.
Qed.

Lemma ambiguous_source_aborts_witness :
  dependencies Sample.web
  = [] ++ MkDependency "foo" "1.0" "https://charts.example" :: []
  ∧ 1 < length (candidates "foo-1.0" [Sample.source_a; Sample.source_b])
  ∧ makedirs (subcharts_dir Sample.web) Sample.web_start
    = (set_fs (Sample.web_fs (Some (Dir ∅))) Sample.web_start, inr ())
  ∧ update_dependencies (H := Sample.helm) 1 Sample.web
      [Sample.source_a; Sample.source_b] false Sample.web_start
    = (set_fs (Sample.web_fs (Some (Dir ∅))) Sample.web_start,
       inl NotImplementedError).
Proof.
  split; [reflexivity|]. split; [vm_compute; lia|].
  split; [vm_compute; reflexivity|].
  refine (proj2 (proj2 (ambiguous_source_aborts (H := Sample.helm) 0 Sample.web
           [Sample.source_a; Sample.source_b] false []
           (MkDependency "foo" "1.0" "https://charts.example") []
           Sample.web_start eq_refl _)
           (set_fs (Sample.web_fs (Some (Dir ∅))) Sample.web_start)
           ([], ∅, false) _)).
  - vm_compute. lia.
  - vm_compute. reflexivity.
Defined.

(** On the name of a source alone nothing is ambiguous. [foo-1.0] starts
    with the name [foo] of two sources, in the versions [1.0] and [2.0]: the
    first is taken, for its full name, and packaged, and the call returns
    true. *)
Lemma sources_of_one_name_are_not_ambiguous :
  startswith "foo-1.0" (m_name (index Sample.source_a)) = true
  ∧ startswith "foo-1.0" (m_name (index Sample.source_c)) = true
  ∧ find_one_source "foo-1.0" [Sample.source_a; Sample.source_c]
    = inr (Some Sample.source_a)
  ∧ update_dependencies (H := Sample.helm) 2 Sample.web
      [Sample.source_a; Sample.source_c] false (Sample.versions None [])
    = (Sample.versions (Some (Dir {[ "foo-1.0.tgz" := Sample.foo_archive ]}))
         [EvResolve []; EvPackage ["src"; "a"] ["web"; "charts"]],
       inr true).
Proof.
  split; [reflexivity|]. split; [reflexivity|]. split; [reflexivity|].
  vm_compute. reflexivity.
Qed.

(** ** The resolver: the first loop *)

Lemma foldM_app_inv {A B} (f : B → A → M B) acc l1 x l2 st st' r :
  foldM f acc (l1 ++ x :: l2) st = (st', inr r) →
  ∃ st1 acc1 st2 acc2,
    foldM f acc l1 st = (st1, inr acc1)
    ∧ f acc1 x st1 = (st2, inr acc2)
    ∧ foldM f acc2 l2 st2 = (st', inr r).
Proof.
  rewrite foldM_app, bind_run.
  destruct (foldM f acc l1 st) as [st1 [e|acc1]]; [done|]. simpl.
  rewrite bind_run. destruct (f acc1 x st1) as [st2 [e|acc2]] eqn:E; [done|].
  intros Hrest. by exists st1, acc1, st2, acc2.
Qed.

Lemma foldM_invariant {A B} (I : B → Prop) (f : B → A → M B) :
  (∀ acc x st st' acc', I acc → f acc x st = (st', inr acc') → I acc') →
  ∀ l acc st st' acc',
    I acc → foldM f acc l st = (st', inr acc') → I acc'.
Proof.
  intros Hstep l. induction l as [|x l IH]; intros acc st st' acc' Hacc; simpl.
  - by intros [= _ <-].
  - rewrite bind_run. destruct (f acc x st) as [st1 [e|acc1]] eqn:E; [done|].
    apply IH. by eapply Hstep.
Qed.

Lemma string_length_app s1 s2 :
  String.length (s1 +:+ s2) = String.length s1 + String.length s2.
Proof.
  induction s1 as [|a s1 IH]; [done|].
  change (String a s1 +:+ s2) with (String a (s1 +:+ s2)). simpl. by rewrite IH.
Qed.

Lemma string_app_inj_r s1 s2 t : s1 +:+ t = s2 +:+ t → s1 = s2.
Proof.
  revert s2. induction s1 as [|a s1 IH]; intros [|b s2] Heq.
  - done.
  - apply (f_equal String.length) in Heq.
    rewrite !string_length_app in Heq. simpl in Heq. lia.
  - apply (f_equal String.length) in Heq.
    rewrite !string_length_app in Heq. simpl in Heq. lia.
  - change (String a (s1 +:+ t) = String b (s2 +:+ t)) in Heq.
    injection Heq as -> Heq. f_equal. by apply IH.
Qed.

Section FirstLoop.

Context `{Helm}.
Variable recur : Chart → M bool.
Variable self : Chart.
Variable sources : list Chart.
Variable force : bool.

Lemma resolve_dependency_source to_fetch to_resolve updated d src st :
  candidates (compute_name d) sources = [src] →
  resolve_dependency recur self sources force (to_fetch, to_resolve, updated) d st
  = (let* _ := nested (recur src) in
     package src (subcharts_dir self);;
     mret (to_fetch, to_resolve, true)) st.
Proof.
  intros Hsrc. unfold resolve_dependency. rewrite bind_run. unfold lift.
  by rewrite find_one_source_candidates, Hsrc.
Qed.

Lemma resolve_dependency_no_source to_fetch to_resolve updated d st :
  candidates (compute_name d) sources = [] →
  resolve_dependency recur self sources force (to_fetch, to_resolve, updated) d st
  = (st, inr (if force then (to_fetch ++ [d], to_resolve, updated)
              else if bool_decide (is_Some (lookup_path (archive_path self d) (fs st)))
                   then (to_fetch, to_resolve ∪ {[archive_path self d]}, updated)
                   else (to_fetch ++ [d], to_resolve, updated))).
Proof.
  intros Hsrc. unfold resolve_dependency. rewrite bind_run. unfold lift.
  rewrite find_one_source_candidates, Hsrc. destruct force; [done|].
  rewrite bind_run. unfold exists_. fold (archive_path self d).
  by destruct (bool_decide _).
Qed.

(** What one turn of the loop does to the accumulator. *)
Lemma resolve_dependency_cases to_fetch to_resolve updated d st st' acc' :
  resolve_dependency recur self sources force (to_fetch, to_resolve, updated) d st
  = (st', inr acc') →
  (∃ src, candidates (compute_name d) sources = [src]
          ∧ acc' = (to_fetch, to_resolve, true))
  ∨ (candidates (compute_name d) sources = [] ∧ st' = st
     ∧ (acc' = (to_fetch ++ [d], to_resolve, updated)
        ∨ acc' = (to_fetch, to_resolve ∪ {[archive_path self d]}, updated))).
Proof.
  destruct (candidates (compute_name d) sources) as [|src [|src' l]] eqn:Hc.
  - rewrite resolve_dependency_no_source by done. intros [= <- <-].
    right. split; [done|]. split; [done|].
    destruct force; [by left|]. destruct (bool_decide _); [by right|by left].
  - rewrite (resolve_dependency_source _ _ _ _ src) by done.
    rewrite bind_run. destruct (nested (recur src) st) as [st1 [e|u]]; [done|].
    rewrite bind_run.
    destruct (package src (subcharts_dir self) st1) as [st2 [e|[]]]; [done|].
    intros [= _ <-]. left. eauto.
  - rewrite resolve_dependency_ambiguous; [done|]. rewrite Hc. simpl. lia.
Qed.

Lemma collect_dependencies_sourceless st st' acc :
  collect_dependencies recur self sources force st = (st', inr acc) →
  sourceless self sources acc.
Proof.
  unfold collect_dependencies. apply foldM_invariant.
  - intros [[tf tr] upd] x st0 st1 acc1 [Htf Htr] Hstep.
    apply resolve_dependency_cases in Hstep
      as [(src & Hsrc & ->)|(Hnone & _ & [-> | ->])]; [done|..].
    + split; [|done]. simpl in *. intros y Hy.
      apply elem_of_app in Hy as [Hy|Hy]; [auto|].
      by apply list_elem_of_singleton in Hy as ->.
    + split; [done|]. simpl in *. intros p Hp.
      apply elem_of_union in Hp as [Hp|Hp]; [auto|].
      apply elem_of_singleton in Hp as ->. eauto.
  - split; simpl; [intros x Hx; by apply not_elem_of_nil in Hx|].
    intros p Hp. by apply not_elem_of_empty in Hp.
Qed.

Lemma collect_dependencies_source st st' to_fetch to_resolve updated d src :
  d ∈ dependencies self →
  candidates (compute_name d) sources = [src] →
  collect_dependencies recur self sources force st
  = (st', inr (to_fetch, to_resolve, updated)) →
  updated = true ∧ (d ∉ to_fetch) ∧ (archive_path self d ∉ to_resolve).
Proof.
  intros Hd Hsrc Hrun.
  destruct (collect_dependencies_sourceless _ _ _ Hrun) as [Htf Htr].
  simpl in *. split; [|split].
  - unfold collect_dependencies in Hrun.
    apply list_elem_of_split in Hd as (l1 & l2 & Hsplit). rewrite Hsplit in Hrun.
    apply foldM_app_inv in Hrun
      as (st1 & [[tf1 tr1] upd1] & st2 & acc2 & _ & Hstep & Hrest).
    apply resolve_dependency_cases in Hstep
      as [(src' & _ & ->)|(Hnone & _)]; [|congruence].
    apply (foldM_invariant (λ acc, acc.2 = true)) in Hrest; [done| |done].
    intros [[tf tr] upd] x st0 st3 acc3 Hupd Hstep. simpl in Hupd. subst upd.
    by apply resolve_dependency_cases in Hstep
      as [(? & _ & ->)|(_ & _ & [-> | ->])].
  - intros Hin. apply Htf in Hin. congruence.
  - intros Hin. apply Htr in Hin as (x & Hx & Hnone).
    unfold archive_path in Hx. apply app_inj_1 in Hx as [_ [= Hx]]; [|done].
    apply string_app_inj_r in Hx. congruence.
Qed.

Lemma collect_dependencies_forced st st' to_fetch to_resolve updated d :
  force = true →
  d ∈ dependencies self →
  candidates (compute_name d) sources = [] →
  collect_dependencies recur self sources force st
  = (st', inr (to_fetch, to_resolve, updated)) →
  d ∈ to_fetch.
Proof.
  intros Hforce Hd Hnone Hrun. unfold collect_dependencies in Hrun.
  apply list_elem_of_split in Hd as (l1 & l2 & Hsplit). rewrite Hsplit in Hrun.
  apply foldM_app_inv in Hrun
    as (st1 & [[tf1 tr1] upd1] & st2 & acc2 & _ & Hstep & Hrest).
  rewrite resolve_dependency_no_source, Hforce in Hstep by done.
  injection Hstep as <- <-.
  apply (foldM_invariant (λ acc, d ∈ acc.1.1)) in Hrest; [done| |].
  - intros [[tf tr] upd] x st0 st3 acc3 Hin Hstep. simpl in Hin.
    by apply resolve_dependency_cases in Hstep
      as [(? & _ & ->)|(_ & _ & [-> | ->])]; simpl; rewrite ?elem_of_app; auto.
  - simpl. apply elem_of_app. right. by left.
Qed.

End FirstLoop.

(** ** The trace: who calls the remote fetcher *)

Lemma own_fetches_app l1 l2 :
  own_fetches (l1 ++ l2) = own_fetches l1 ++ own_fetches l2.
Proof. apply omap_app. Qed.

Lemma traces_bind {A B} (P : list event → error + A → Prop)
    (Q : list event → error + B → Prop) (R : list event → error + B → Prop)
    (m : M A) (f : A → M B) :
  traces P m →
  (∀ x, traces Q (f x)) →
  (∀ added e, P added (inl e) → R added (inl e)) →
  (∀ added1 added2 x r, P added1 (inr x) → Q added2 r → R (added1 ++ added2) r) →
  traces R (bind m f).
Proof.
  intros Hm Hf Herr Hseq st st' r. rewrite bind_run.
  destruct (m st) as [st1 [e|x]] eqn:E.
  - intros [= <- <-]. destruct (Hm _ _ _ E) as (added & ? & ?). eauto.
  - intros Hfx. destruct (Hm _ _ _ E) as (added1 & Ht1 & ?).
    destruct (Hf _ _ _ _ Hfx) as (added2 & Ht2 & ?).
    exists (added1 ++ added2). split; [|eauto].
    by rewrite Ht2, Ht1, (assoc_L (++)).
Qed.

Lemma fetch_free_bind {A B} (m : M A) (f : A → M B) :
  fetch_free m → (∀ x, fetch_free (f x)) → fetch_free (bind m f).
Proof.
  intros Hm Hf. eapply traces_bind; [exact Hm|exact Hf|done|].
  simpl. intros added1 added2 _ _ H1 H2. by rewrite own_fetches_app, H1, H2.
Qed.

(** A computation that leaves the trace alone. *)
Lemma fetch_free_silent {A} (m : M A) :
  (∀ st, trace (m st).1 = trace st) → fetch_free m.
Proof.
  intros Hm st st' r Hrun. exists []. split; [|done].
  specialize (Hm st). rewrite Hrun in Hm. simpl in Hm. by rewrite Hm, app_nil_r.
Qed.

Lemma fetch_free_ret {A} (x : A) : fetch_free (mret x).
Proof. by apply fetch_free_silent. Qed.
Lemma fetch_free_raise {A} e : fetch_free (@raise A e).
Proof. by apply fetch_free_silent. Qed.
Lemma fetch_free_lift {A} (r : error + A) : fetch_free (lift r).
Proof. by apply fetch_free_silent. Qed.
Lemma fetch_free_exists p : fetch_free (exists_ p).
Proof. by apply fetch_free_silent. Qed.
Lemma fetch_free_is_dir p : fetch_free (is_dir p).
Proof. by apply fetch_free_silent. Qed.
Lemma fetch_free_listdir p : fetch_free (listdir p).
Proof.
  apply fetch_free_silent. intros st. unfold listdir.
  by destruct (lookup_path p (fs st)) as [[]|].
Qed.
Lemma fetch_free_write parents p o e : fetch_free (write parents p o e).
Proof.
  apply fetch_free_silent. intros st. unfold write.
  by destruct (fs_put parents p o (fs st)).
Qed.

Lemma fetch_free_when b m : fetch_free m → fetch_free (when b m).
Proof. destruct b; [done|]. intros _. apply fetch_free_ret. Qed.

Lemma fetch_free_if {A} (b : bool) (m1 m2 : M A) :
  fetch_free m1 → fetch_free m2 → fetch_free (if b then m1 else m2).
Proof. by destruct b. Qed.

Lemma fetch_free_foldM {A B} (f : B → A → M B) acc l :
  (∀ acc x, fetch_free (f acc x)) → fetch_free (foldM f acc l).
Proof.
  intros Hf. revert acc. induction l as [|x l IH]; intros acc; simpl.
  - apply fetch_free_ret.
  - apply fetch_free_bind; auto.
Qed.

Lemma fetch_free_forM {A} (f : A → M unit) l :
  (∀ x, fetch_free (f x)) → fetch_free (forM f l).
Proof. intros Hf. apply fetch_free_foldM. auto. Qed.

Lemma fetch_free_emit ev :
  (∀ deps, ev ≠ EvFetch deps) → fetch_free (emit ev).
Proof.
  intros Hev st st' r [= <- <-]. exists [ev]. split; [done|].
  destruct ev; try done. by destruct (Hev deps_to_update).
Qed.

(** Whatever a nested call does, it is not this call's doing. *)
Lemma fetch_free_nested {A} (m : M A) : fetch_free (nested m).
Proof.
  intros st st' r. unfold nested.
  destruct (m (set_trace [] st)) as [st1 r1]. intros [= <- <-]. eauto.
Qed.

Create HintDb fetch_free.
#[local] Hint Resolve fetch_free_ret fetch_free_raise fetch_free_lift
  fetch_free_exists fetch_free_is_dir fetch_free_listdir fetch_free_write
  fetch_free_nested : fetch_free.

(** Go through a computation by its syntax. *)
Ltac fetch_free_step :=
  lazymatch goal with
  | |- fetch_free (bind _ _) => apply fetch_free_bind; [|intros ?]
  | |- fetch_free (when _ _) => apply fetch_free_when
  | |- fetch_free (if _ then _ else _) => apply fetch_free_if
  | |- fetch_free (forM _ _) => apply fetch_free_forM; intros ?
  | |- fetch_free (foldM _ _ _) => apply fetch_free_foldM; intros ? ?
  | |- fetch_free (emit _) => apply fetch_free_emit; by intros ?
  | |- fetch_free (match ?x with _ => _ end) => destruct x
  | |- fetch_free _ => solve [eauto with fetch_free]
  end.
Ltac fetch_free := repeat fetch_free_step.

Lemma fetch_free_rm p : fetch_free (rm p).
Proof. unfold rm. fetch_free. Qed.
Lemma fetch_free_makedirs p : fetch_free (makedirs p).
Proof. unfold makedirs. fetch_free. Qed.
Lemma fetch_free_iterdir p : fetch_free (iterdir p).
Proof. unfold iterdir. fetch_free. Qed.
Lemma fetch_free_utime p : fetch_free (utime p).
Proof. unfold utime. fetch_free. Qed.

Lemma fetch_free_copy src dst : fetch_free (copy src dst).
Proof.
  apply fetch_free_silent. intros st. unfold copy, write.
  repeat (case_match; simpl; try done).
Qed.

Lemma fetch_free_extractall archive target : fetch_free (extractall archive target).
Proof.
  apply fetch_free_silent. intros st. unfold extractall, write.
  repeat (case_match; simpl; try done).
Qed.

Lemma fetch_free_move src dst : fetch_free (move src dst).
Proof.
  apply fetch_free_silent. intros st. unfold move, write, bind.
  repeat (case_match; simpl in *; simplify_eq; try done).
Qed.

Lemma fetch_free_cd directory : fetch_free (cd directory).
Proof.
  apply fetch_free_silent. intros st. unfold cd.
  repeat (case_match; simpl; try done).
Qed.

Lemma fetch_free_mkdtemp : fetch_free mkdtemp.
Proof.
  apply fetch_free_silent. intros st. unfold mkdtemp, write, bind.
  repeat (case_match; simpl in *; simplify_eq; try done).
Qed.

Lemma fetch_free_Chart_init p : fetch_free (Chart_init p).
Proof.
  unfold Chart_init. fetch_free. apply fetch_free_silent. intros st.
  repeat (case_match; simpl; try done).
Qed.

#[local] Hint Resolve fetch_free_rm fetch_free_makedirs fetch_free_iterdir
  fetch_free_utime fetch_free_copy fetch_free_extractall fetch_free_move
  fetch_free_mkdtemp fetch_free_Chart_init fetch_free_cd : fetch_free.

Lemma trace_mkdtemp st st' r : mkdtemp st = (st', r) → trace st' = trace st.
Proof.
  unfold mkdtemp, write, bind, mret, M_ret. intros.
  repeat (case_match; simpl in *; simplify_eq; try done).
Qed.

Lemma trace_rm p st st' r : rm p st = (st', r) → trace st' = trace st.
Proof.
  unfold rm, exists_, write, bind, raise. intros.
  repeat (case_match; simpl in *; simplify_eq; try done).
Qed.

Lemma traces_tempdir {A} (P : list event → error + A → Prop) (body : path → M A) :
  (∀ d, traces P (body d)) →
  (∀ e, P [] (inl e)) →
  (∀ added r e, P added r → P added (inl e)) →
  traces P (tempdir body).
Proof.
  intros Hbody Hnil Herr st st' r. unfold tempdir. rewrite bind_run.
  destruct (mkdtemp st) as [st0 [e|d]] eqn:Hd.
  - intros [= <- <-]. exists []. rewrite app_nil_r.
    split; [by eapply trace_mkdtemp|done].
  - destruct (body d st0) as [st1 r1] eqn:Hb.
    destruct (rm d st1) as [st2 r2] eqn:Hrm. intros Hres.
    pose proof (trace_mkdtemp _ _ _ Hd) as Ht0.
    pose proof (trace_rm _ _ _ _ Hrm) as Ht2.
    destruct (Hbody _ _ _ _ Hb) as (added & Ht1 & HP).
    exists added. rewrite <-Ht0, <-Ht1, <-Ht2.
    destruct r2 as [e|[]]; injection Hres as <- <-; eauto.
Qed.

Lemma fetch_free_tempdir {A} (body : path → M A) :
  (∀ d, fetch_free (body d)) → fetch_free (tempdir body).
Proof. intros Hbody. by apply traces_tempdir. Qed.

Section TraceOfResolver.

Context `{Helm}.

Lemma fetch_free_package self directory : fetch_free (package self directory).
Proof.
  unfold package. fetch_free. apply fetch_free_silent. intros st. unfold write.
  repeat (case_match; simpl; try done).
Qed.

Lemma fetch_free_substitute_subchart recur sources updated subchart_dir :
  (∀ chart, fetch_free (recur chart)) →
  fetch_free (substitute_subchart recur sources updated subchart_dir).
Proof.
  intros Hrecur. unfold substitute_subchart. fetch_free.
Qed.

Lemma fetch_free_resolve_subcharts fuel : ∀ self sources,
  fetch_free (resolve_subcharts fuel self sources).
Proof.
  induction fuel as [|fuel IH]; intros self sources; simpl; fetch_free.
  by apply fetch_free_substitute_subchart.
Qed.

Lemma fetch_free_resolve_dependency recur self sources force acc d :
  fetch_free (resolve_dependency recur self sources force acc d).
Proof.
  destruct acc as [[to_fetch to_resolve] updated].
  unfold resolve_dependency. fetch_free. apply fetch_free_package.
Qed.

Lemma fetch_free_collect_dependencies recur self sources force :
  fetch_free (collect_dependencies recur self sources force).
Proof.
  apply fetch_free_foldM. intros. apply fetch_free_resolve_dependency.
Qed.

Lemma fetch_free_resolve_archive substitute self d item :
  (∀ chart, fetch_free (substitute chart)) →
  fetch_free (resolve_archive substitute self d item).
Proof.
  intros Hsub. unfold resolve_archive. fetch_free. apply fetch_free_package.
Qed.

(** A call of [get_dependencies_with_helm] calls the fetcher once, with
    the dependencies it was given, unless it fails before. *)
Lemma traces_get_dependencies_with_helm self deps :
  traces (λ added r, own_fetches added = [deps]
                     ∨ (own_fetches added = [] ∧ ∃ e, r = inl e))
         (get_dependencies_with_helm self deps).
Proof.
  unfold get_dependencies_with_helm. apply traces_tempdir; [|eauto|].
  - intros d.
    eapply (traces_bind _ _ _ _ _ (fetch_free_write _ _ _ _)); [intros _|..].
    + eapply (traces_bind (λ added r, added = [EvFetch deps])
                (λ added _, own_fetches added = [])
                (λ added _, own_fetches added = [deps])).
      * intros st st' r [= <- <-]. eauto.
      * intros _.
        lazymatch goal with |- traces _ ?m => change (fetch_free m) end.
        fetch_free. apply fetch_free_silent. intros st. unfold write.
        repeat (case_match; simpl; try done).
      * by intros added e ->.
      * intros added1 added2 _ r -> H2. by rewrite own_fetches_app, H2.
    + simpl. eauto.
    + simpl. intros added1 added2 _ r H1 H2. left.
      by rewrite own_fetches_app, H1, H2.
  - intros added r e [?|[? _]]; eauto.
Qed.

Lemma traces_fetch_and_substitute substitute self to_fetch to_resolve updated :
  (∀ chart, fetch_free (substitute chart)) →
  traces (λ added r,
            match to_fetch with
            | [] => own_fetches added = []
            | _ :: _ => own_fetches added = [to_fetch]
                        ∨ (own_fetches added = [] ∧ ∃ e, r = inl e)
            end)
         (fetch_and_substitute substitute self (to_fetch, to_resolve, updated)).
Proof.
  intros Hsub. unfold fetch_and_substitute.
  assert (∀ generated : gset string, fetch_free
    (if bool_decide (generated ≠ ∅ ∨ to_resolve ≠ ∅)
     then tempdir (λ d, forM (resolve_archive substitute self d)
            (elements (set_map inl generated ∪ set_map inr to_resolve
                       : gset (string + path))));;
          mret true
     else mret updated)) as Hrest.
  { intros generated. fetch_free. apply fetch_free_tempdir. intros d.
    fetch_free. by apply fetch_free_resolve_archive. }
  destruct to_fetch as [|d0 to_fetch].
  - apply fetch_free_bind; [apply fetch_free_ret|done].
  - eapply traces_bind;
      [apply traces_get_dependencies_with_helm|exact Hrest|..]; simpl.
    + intros added e [?|[? _]]; eauto.
    + intros added1 added2 x r [H1|[_ [e [=]]]] H2. left.
      by rewrite own_fetches_app, H1, H2.
Qed.

End TraceOfResolver.

(** ** The resolver: sources, force and the result *)

Section ResolverResult.

Context `{Helm}.

Lemma package_inv self directory st st' :
  package self directory st = (st', inr ()) →
  ∃ chart_dir file archive,
    lookup_path (location self) (fs st) = Some chart_dir
    ∧ call_helm_package chart_dir = Some (file, archive)
    ∧ fs_put false (directory ++ [file]) (Some archive) (fs st) = Some (fs st')
    ∧ trace st' = trace st ++ [EvPackage (location self) directory].
Proof.
  unfold package. rewrite bind_run. unfold cd.
  destruct (lookup_path directory (fs st)) as [[| | |entries]|]; try done.
  rewrite bind_run. simpl.
  destruct (lookup_path (location self) (fs st)) as [chart_dir|]; [|done]. simpl.
  destruct (call_helm_package chart_dir) as [[file archive]|] eqn:Hpkg; [|done].
  unfold write. simpl.
  destruct (fs_put false (directory ++ [file]) (Some archive) (fs st)) eqn:Hput;
    [|done].
  intros [= <-]. by exists chart_dir, file, archive.
Qed.

Lemma fetch_and_substitute_result substitute self to_fetch to_resolve st st' u :
  fetch_and_substitute substitute self (to_fetch, to_resolve, true) st
  = (st', inr u) →
  u = true.
Proof.
  unfold fetch_and_substitute. rewrite bind_run.
  match goal with |- context [?m st] =>
    destruct (m st) as [st1 [e|generated]]; [done|] end.
  destruct (bool_decide _); [|by intros [= _ <-]].
  rewrite bind_run. destruct (tempdir _ st1) as [st2 [e|[]]]; [done|].
  by intros [= _ <-].
Qed.

Lemma update_dependencies_source_updated fuel self sources force d src st st' u :
  d ∈ dependencies self →
  candidates (compute_name d) sources = [src] →
  update_dependencies (S fuel) self sources force st = (st', inr u) →
  u = true.
Proof.
  intros Hd Hsrc. rewrite update_dependencies_S, bind_run.
  destruct (when _ _ st) as [st0 [e|[]]]; [done|]. rewrite bind_run.
  destruct (collect_dependencies _ self sources force st0)
    as [st1 [e|[[to_fetch to_resolve] updated]]] eqn:Hloop; [done|].
  destruct (collect_dependencies_source _ _ _ _ _ _ _ _ _ _ _ Hd Hsrc Hloop)
    as (-> & _). apply fetch_and_substitute_result.
Qed.

End ResolverResult.

(** C4, as the code has it. A source is a candidate for a dependency when
    the full name [name-version] of the dependency starts with the full name
    of the source. Let exactly one source be a candidate for the dependency
    [d] of a chart. Whatever the force flag and the file system, the turn of
    [d] in the loop is: resolve the dependencies of the source against the
    same sources, as a call of its own, then package the source into the
    subcharts directory of the chart, and go on with [updated] set, the batch
    to fetch and the archives to look into being as they were. The call is
    the loop with this turn in the place of [d]. When it returns, it returns
    true: the nested call has returned, the archive that [helm package] makes
    of the source directory, as the nested call left it, was written into the
    subcharts directory at the turn of [d], and at the end of the loop [d] is
    not in the batch, its archive is not to be looked into, and the fetcher
    is called by this call with that batch or not at all. *)
Theorem source_takes_precedence `{Helm} fuel self sources force before d after src :
  dependencies self = before ++ d :: after →
  candidates (compute_name d) sources = [src] →
  let recur := λ chart, update_dependencies fuel chart sources force in
  let step := resolve_dependency recur self sources force in
  let substitute := λ chart, resolve_subcharts fuel chart sources in
  (∀ to_fetch to_resolve updated st,
     step (to_fetch, to_resolve, updated) d st
     = (let* _ := nested (update_dependencies fuel src sources force) in
        package src (subcharts_dir self);;
        mret (to_fetch, to_resolve, true)) st)
  ∧ (∀ st,
       update_dependencies (S fuel) self sources force st
       = (makedirs (subcharts_dir self);;
          let* acc := foldM step ([], ∅, false) before in
          let* _ := nested (update_dependencies fuel src sources force) in
          package src (subcharts_dir self);;
          let* acc' := foldM step (acc.1.1, acc.1.2, true) after in
          fetch_and_substitute substitute self acc') st)
  ∧ (∀ st st' to_fetch to_resolve updated,
       collect_dependencies recur self sources force st
       = (st', inr (to_fetch, to_resolve, updated)) →
       updated = true ∧ (d ∉ to_fetch) ∧ (archive_path self d ∉ to_resolve))
  ∧ (∀ st st' updated,
       update_dependencies (S fuel) self sources force st = (st', inr updated) →
       updated = true
       ∧ ∃ st0 acc st1 u st2 chart_dir file archive st3 to_fetch to_resolve added,
           (makedirs (subcharts_dir self);; foldM step ([], ∅, false) before) st
           = (st0, inr acc)
           ∧ nested (update_dependencies fuel src sources force) st0 = (st1, inr u)
           ∧ package src (subcharts_dir self) st1 = (st2, inr ())
           ∧ lookup_path (location src) (fs st1) = Some chart_dir
           ∧ call_helm_package chart_dir = Some (file, archive)
           ∧ fs_put false (subcharts_dir self ++ [file]) (Some archive) (fs st1)
             = Some (fs st2)
           ∧ trace st2 = trace st1 ++ [EvPackage (location src) (subcharts_dir self)]
           ∧ foldM step (acc.1.1, acc.1.2, true) after st2
             = (st3, inr (to_fetch, to_resolve, true))
           ∧ (d ∉ to_fetch)
           ∧ (archive_path self d ∉ to_resolve)
           ∧ fetch_and_substitute substitute self (to_fetch, to_resolve, true) st3
             = (st', inr true)
           ∧ trace st' = trace st ++ added
           ∧ ∀ batch, batch ∈ own_fetches added → batch = to_fetch).
Proof.
  intros Hdeps Hsrc recur step substitute.
  assert (d ∈ dependencies self) as Hd.
  { rewrite Hdeps. apply elem_of_app. right. left. }
  assert (∀ st,
            update_dependencies (S fuel) self sources force st
            = (makedirs (subcharts_dir self);;
               let* acc := foldM step ([], ∅, false) before in
               let* _ := nested (update_dependencies fuel src sources force) in
               package src (subcharts_dir self);;
               let* acc' := foldM step (acc.1.1, acc.1.2, true) after in
               fetch_and_substitute substitute self acc') st) as Hcall.
  { intros st. rewrite update_dependencies_S. unfold collect_dependencies.
    rewrite Hdeps, bool_decide_eq_true_2 by (by destruct before).
    unfold when. rewrite !(bind_run (makedirs _)).
    destruct (makedirs (subcharts_dir self) st) as [st0 [e|[]]]; [done|].
    rewrite bind_run, foldM_app, !(bind_run (foldM _ _ before)). fold recur step.
    destruct (foldM step ([], ∅, false) before st0)
      as [st1 [e|[[to_fetch to_resolve] updated]]]; [done|].
    cbn [foldM fst snd]. rewrite !bind_run. unfold step at 1.
    rewrite (resolve_dependency_source _ _ _ _ _ _ _ _ src) by done.
    rewrite !bind_run.
    change (recur src) with (update_dependencies fuel src sources force).
    destruct (nested _ st1) as [st2 [e|u]]; [done|].
    rewrite !bind_run.
    destruct (package src (subcharts_dir self) st2) as [st3 [e|[]]]; [done|].
    done. }
  split; [|split; [exact Hcall|split]].
  - intros. by apply (resolve_dependency_source recur).
  - intros st st' to_fetch to_resolve updated.
    by apply (collect_dependencies_source _ _ _ _ _ _ _ _ _ _ src).
  - intros st st' updated Hrun.
    pose proof Hrun as Hrun'. rewrite Hcall in Hrun'.
    rewrite update_dependencies_S in Hrun. unfold when in Hrun.
    rewrite bool_decide_eq_true_2 in Hrun
      by (rewrite Hdeps; by destruct before).
    rewrite bind_run in Hrun, Hrun'.
    destruct (makedirs (subcharts_dir self) st) as [stm [e|[]]] eqn:Hmk; [done|].
    destruct (fetch_free_makedirs _ _ _ _ Hmk) as (added0 & Ht0 & Hfree0).
    rewrite bind_run in Hrun. fold recur in Hrun.
    destruct (collect_dependencies recur self sources force stm)
      as [st3 [e|[[to_fetch to_resolve] upd]]] eqn:Hloop; [done|].
    destruct (collect_dependencies_source _ _ _ _ _ _ _ _ _ _ _ Hd Hsrc Hloop)
      as (-> & Hnot_fetched & Hnot_looked).
    destruct (fetch_free_collect_dependencies _ _ _ _ _ _ _ Hloop)
      as (added1 & Ht1 & Hfree1).
    pose proof (fetch_and_substitute_result _ _ _ _ _ _ _ Hrun) as ->.
    destruct (traces_fetch_and_substitute _ self to_fetch to_resolve true
                (λ chart, fetch_free_resolve_subcharts fuel chart sources)
                _ _ _ Hrun) as (added2 & Ht2 & Hfetch).
    split; [done|].
    unfold collect_dependencies in Hloop. rewrite Hdeps in Hloop.
    apply foldM_app_inv in Hloop
      as (st0 & [[tf1 tr1] upd1] & st2 & acc2 & Hbefore & Hstep & Hafter).
    rewrite (resolve_dependency_source _ _ _ _ _ _ _ _ src) in Hstep by done.
    rewrite bind_run in Hstep.
    destruct (nested (recur src) st0) as [st1 [e|u]] eqn:Hnested; [done|].
    rewrite bind_run in Hstep.
    destruct (package src (subcharts_dir self) st1) as [st2' [e|[]]] eqn:Hpkg;
      [done|].
    injection Hstep as <- <-.
    destruct (package_inv _ _ _ _ Hpkg)
      as (chart_dir & file & archive & Hdir & Hhelm & Hput & Htrace).
    exists st0, (tf1, tr1, upd1), st1, u, st2', chart_dir, file, archive, st3,
      to_fetch, to_resolve, (added0 ++ added1 ++ added2).
    fold step in Hbefore, Hafter. rewrite bind_run, Hmk, Hbefore.
    repeat (split; [done|]). split.
    + by rewrite Ht2, Ht1, Ht0, !(assoc_L (++)).
    + intros batch. rewrite !own_fetches_app, Hfree0, Hfree1. simpl.
      destruct to_fetch as [|d0 to_fetch].
      * rewrite Hfetch. by intros ?%not_elem_of_nil.
      * destruct Hfetch as [-> | [-> _]].
        -- by intros ->%list_elem_of_singleton.
        -- by intros ?%not_elem_of_nil.
Qed.

Lemma source_takes_precedence_witness :
  dependencies Sample.web = [] ++ Sample.foo_dependency :: []
  ∧ candidates (compute_name Sample.foo_dependency) [Sample.source_a]
    = [Sample.source_a]
  ∧ update_dependencies (H := Sample.helm_online) 2 Sample.web [Sample.source_a]
      true Sample.web_start
    = (Sample.web_packaged 1, inr true)
  ∧ update_dependencies (H := Sample.helm_online) 2 Sample.web [Sample.source_a]
      false (Sample.web_resolved [])
    = (Sample.web_packaged 1, inr true)
  ∧ lookup_path ["web"; "charts"; "foo-1.0.tgz"] (fs (Sample.web_packaged 1))
    = Some Sample.foo_archive
  ∧ own_fetches (trace (Sample.web_packaged 1)) = []
  ∧ ∃ st1 st2 file archive,
      package (H := Sample.helm_online) Sample.source_a
        (subcharts_dir Sample.web) st1 = (st2, inr ())
      ∧ lookup_path (subcharts_dir Sample.web ++ [file]) (fs st2) = Some archive.
Proof.
  assert (update_dependencies (H := Sample.helm_online) 2 Sample.web
            [Sample.source_a] true Sample.web_start
          = (Sample.web_packaged 1, inr true)) as Hrun
    by (vm_compute; reflexivity).
  split; [reflexivity|]. split; [reflexivity|]. split; [exact Hrun|].
  split; [vm_compute; reflexivity|]. split; [reflexivity|].
  split; [reflexivity|].
  destruct (source_takes_precedence (H := Sample.helm_online) 1 Sample.web
              [Sample.source_a] true [] Sample.foo_dependency [] Sample.source_a
              eq_refl eq_refl) as (_ & _ & _ & Hcall).
  destruct (Hcall _ _ _ Hrun)
    as (_ & st0 & acc & st1 & u & st2 & chart_dir & file & archive & st3
        & to_fetch & to_resolve & added & _ & _ & Hpackage & _ & _ & Hput & _).
  exists st1, st2, file, archive. split; [exact Hpackage|].
  by apply lookup_fs_put in Hput.
Defined.

(** On the name of a source alone nothing is taken. [foo-1.0] starts with
    the name [foo] of the one source given, in the version [2.0]: the source
    is no candidate, and the dependency goes to [helm], which brings it or
    fails. *)
Lemma source_of_another_version_is_not_taken :
  startswith (compute_name Sample.foo_dependency)
    (m_name (index Sample.source_c)) = true
  ∧ find_one_source (compute_name Sample.foo_dependency) [Sample.source_c]
    = inr None
  ∧ update_dependencies (H := Sample.helm_online) 2 Sample.web
      [Sample.source_c] false (Sample.versions None [])
    = (Sample.versions (Some (Dir {[ "foo-1.0.tgz" := Sample.foo_archive ]}))
         [EvFetch [Sample.foo_dependency]],
       inr true)
  ∧ update_dependencies (H := Sample.helm) 2 Sample.web
      [Sample.source_c] false (Sample.versions None [])
    = (Sample.versions (Some (Dir ∅)) [EvFetch [Sample.foo_dependency]],
       inl CalledProcessError).
Proof.
  split; [reflexivity|]. split; [reflexivity|].
  split; vm_compute; reflexivity.
Qed.

(** C5. With the force flag, a dependency without a source goes to the
    batch to fetch in its turn, whatever is in the subcharts directory, and is
    in the batch at the end of the loop. A call of [resolve] itself calls the
    remote fetcher at most once; when it does, the batch it gives is not
    empty and is the whole batch the loop has made. *)
Theorem forced_dependency_fetched_in_one_batch `{Helm} fuel self sources force :
  let recur := λ chart, update_dependencies fuel chart sources force in
  (force = true →
   ∀ d, candidates (compute_name d) sources = [] →
     (∀ to_fetch to_resolve updated st,
        resolve_dependency recur self sources force
          (to_fetch, to_resolve, updated) d st
        = (st, inr (to_fetch ++ [d], to_resolve, updated)))
     ∧ (d ∈ dependencies self →
        ∀ st st' to_fetch to_resolve updated,
          collect_dependencies recur self sources force st
          = (st', inr (to_fetch, to_resolve, updated)) →
          d ∈ to_fetch))
  ∧ ∀ st st' r,
      update_dependencies (S fuel) self sources force st = (st', r) →
      ∃ added,
        trace st' = trace st ++ added
        ∧ length (own_fetches added) ≤ 1
        ∧ ∀ batch, batch ∈ own_fetches added →
            batch ≠ []
            ∧ ∃ st0 st1 to_resolve updated,
                when (bool_decide (dependencies self ≠ []))
                     (makedirs (subcharts_dir self)) st = (st0, inr ())
                ∧ collect_dependencies recur self sources force st0
                  = (st1, inr (batch, to_resolve, updated)).
Proof.
  intros recur. split.
  - intros Hforce d Hnone. split.
    + intros. by rewrite resolve_dependency_no_source, Hforce.
    + intros Hd st st' to_fetch to_resolve updated.
      by apply collect_dependencies_forced.
  - intros st st' r. rewrite update_dependencies_S, bind_run.
    destruct (when _ _ st) as [st0 [e|[]]] eqn:Hmk.
    { intros [= <- <-].
      destruct (fetch_free_when _ _ (fetch_free_makedirs _) _ _ _ Hmk)
        as (added & Ht & Hfree).
      exists added. rewrite Hfree. split; [done|]. split; [simpl; lia|].
      intros batch Hin. by apply not_elem_of_nil in Hin. }
    destruct (fetch_free_when _ _ (fetch_free_makedirs _) _ _ _ Hmk)
      as (added0 & Ht0 & Hfree0).
    rewrite bind_run. fold recur.
    destruct (collect_dependencies recur self sources force st0)
      as [st1 [e|[[to_fetch to_resolve] updated]]] eqn:Hloop.
    { intros [= <- <-].
      destruct (fetch_free_collect_dependencies _ _ _ _ _ _ _ Hloop)
        as (added1 & Ht1 & Hfree1).
      exists (added0 ++ added1).
      rewrite Ht1, Ht0, (assoc_L (++)), own_fetches_app, Hfree0, Hfree1.
      split; [done|]. split; [simpl; lia|].
      intros batch Hin. by apply not_elem_of_nil in Hin. }
    destruct (fetch_free_collect_dependencies _ _ _ _ _ _ _ Hloop)
      as (added1 & Ht1 & Hfree1).
    intros Hrest.
    destruct (traces_fetch_and_substitute _ self to_fetch to_resolve updated
                (λ chart, fetch_free_resolve_subcharts fuel chart sources)
                _ _ _ Hrest) as (added2 & Ht2 & Hfetch).
    exists (added0 ++ added1 ++ added2).
    rewrite Ht2, Ht1, Ht0, !(assoc_L (++)), !own_fetches_app, Hfree0, Hfree1.
    split; [done|]. simpl.
    destruct to_fetch as [|d0 to_fetch].
    + rewrite Hfetch. split; [simpl; lia|].
      intros batch Hin. by apply not_elem_of_nil in Hin.
    + destruct Hfetch as [-> | [-> _]].
      * split; [simpl; lia|]. intros batch ->%list_elem_of_singleton.
        split; [done|]. by exists st0, st1, to_resolve, updated.
      * split; [simpl; lia|]. intros batch Hin. by apply not_elem_of_nil in Hin.
Qed.

Lemma forced_dependency_fetched_in_one_batch_witness :
  candidates "x-1.0" [] = []
  ∧ is_Some (lookup_path ["app"; "charts"; "x-1.0.tgz"] (fs Sample.start))
  ∧ ∃ st',
      update_dependencies (H := Sample.helm_online) 2 Sample.app [] true
        Sample.start = (st', inr true)
      ∧ own_fetches (trace st')
        = [[MkDependency "x" "1.0" "https://charts.example"]]
      ∧ length (own_fetches (trace st')) ≤ 1.
Proof.
  split; [reflexivity|]. split; [by eexists|].
  eexists. split; [vm_compute; reflexivity|]. split; [reflexivity|].
  match goal with |- context [trace ?s] =>
    destruct (proj2 (forced_dependency_fetched_in_one_batch
                       (H := Sample.helm_online) 1 Sample.app [] true)
                Sample.start s (inr true))
      as (added & Ht & Hlen & _)
  end.
  - vm_compute. reflexivity.
  - simpl in Ht. rewrite <-Ht in Hlen. exact Hlen.
Defined.

(** C1, as the code has it. Of two calls of [resolve] in a row, with the
    same chart, sources and force flag: on a chart without dependencies
    the calls return false and change nothing; but when a source is the one
    candidate for some dependency, the second call returns true as the first
    did, for the source is packaged again at every call. *)
Theorem resolve_again `{Helm} fuel self sources force st st1 u1 st2 u2 :
  update_dependencies (S fuel) self sources force st = (st1, inr u1) →
  update_dependencies (S fuel) self sources force st1 = (st2, inr u2) →
  (dependencies self = [] → u1 = false ∧ u2 = false ∧ st1 = st ∧ st2 = st)
  ∧ (∀ d src, d ∈ dependencies self →
       candidates (compute_name d) sources = [src] →
       u1 = true ∧ u2 = true).
Proof.
  intros Hrun1 Hrun2. split.
  - intros Hdeps.
    rewrite update_dependencies_no_dependency in Hrun1 by done.
    injection Hrun1 as <- <-.
    rewrite update_dependencies_no_dependency in Hrun2 by done.
    by injection Hrun2 as <- <-.
  - intros d src Hd Hsrc.
    split; by eapply (update_dependencies_source_updated _ _ _ _ d src).
Qed.

Lemma resolve_again_witness :
  ∃ st1 u1 st2 u2,
    update_dependencies (H := Sample.helm) 2 Sample.web [Sample.source_a] false
      Sample.web_start = (st1, inr u1)
    ∧ update_dependencies (H := Sample.helm) 2 Sample.web [Sample.source_a] false
        st1 = (st2, inr u2)
    ∧ u1 = true ∧ u2 = true.
Proof.
  assert (update_dependencies (H := Sample.helm) 2 Sample.web [Sample.source_a]
            false Sample.web_start = (Sample.web_packaged 1, inr true)) as Hrun1
    by (vm_compute; reflexivity).
  assert (update_dependencies (H := Sample.helm) 2 Sample.web [Sample.source_a]
            false (Sample.web_packaged 1) = (Sample.web_packaged 2, inr true))
    as Hrun2 by (vm_compute; reflexivity).
  exists (Sample.web_packaged 1), true, (Sample.web_packaged 2), true.
  split; [exact Hrun1|]. split; [exact Hrun2|].
  apply (proj2 (resolve_again (H := Sample.helm) 1 Sample.web
                  [Sample.source_a] false _ _ _ _ _ Hrun1 Hrun2)
           (MkDependency "foo" "1.0" "https://charts.example") Sample.source_a);
    [by left|reflexivity].
Defined.

(** The claim of idempotence fails. With a source for the dependency, the
    second of two calls in a row returns true, as the first. And with the
    archive of the one dependency in place, no source and nothing to
    substitute in the archive, the call changes nothing in the state and
    returns true all the same, hence again when repeated. *)
Lemma resolve_twice_updated_twice :
  update_dependencies (H := Sample.helm) 2 Sample.web [Sample.source_a] false
    Sample.web_start = (Sample.web_packaged 1, inr true)
  ∧ update_dependencies (H := Sample.helm) 2 Sample.web [Sample.source_a] false
      (Sample.web_packaged 1) = (Sample.web_packaged 2, inr true)
  ∧ update_dependencies (H := Sample.helm) 2 Sample.app [] false Sample.start
    = (Sample.start, inr true).
Proof. repeat split; vm_compute; reflexivity. Qed.

(** ** The file system: paths that do not meet *)

Lemma put_false_true p o cur r :
  put false p o cur = Some r → put true p o cur = Some r.
Proof.
  revert cur r. induction p as [|x p IH]; intros cur r; simpl; [done|].
  destruct cur as [[| | |es]|]; try done.
  destruct (put false p o (es !! x)) as [r1|] eqn:E; [|done].
  by rewrite (IH _ _ E).
Qed.

Lemma get_put_independent parents p q o cur r :
  independent p q → put parents p o cur = Some r → get q r = get q cur.
Proof.
  revert q cur r. induction p as [|x p IH]; intros q cur r [Hpq Hqp].
  { destruct Hpq. apply prefix_nil. }
  destruct q as [|y q]; [destruct Hqp; apply prefix_nil|]. simpl.
  assert (x = y → independent p q) as Hind.
  { intros ->. split; intros Hpre; [apply Hpq|apply Hqp]; by apply prefix_cons. }
  destruct cur as [[| | |es]|]; try done.
  - destruct (put parents p o (es !! x)) as [r1|] eqn:E; [|done].
    intros [= <-]. destruct (decide (x = y)) as [<-|Hne].
    + rewrite lookup_partial_alter_eq. eauto.
    + by rewrite lookup_partial_alter_ne.
  - destruct parents; [|done].
    destruct (put true p o None) as [r1|] eqn:E; [|done].
    intros [= <-]. destruct (decide (x = y)) as [<-|Hne].
    + rewrite lookup_partial_alter_eq, (IH q None r1); [by rewrite get_None|auto|done].
    + by rewrite lookup_partial_alter_ne, lookup_empty, get_None.
Qed.

Lemma lookup_fs_put_independent parents p q o t t' :
  independent p q → fs_put parents p o t = Some t' →
  lookup_path q t' = lookup_path q t.
Proof.
  unfold fs_put, lookup_path. intros Hind.
  destruct (put parents p o (Some t)) as [[r|]|] eqn:E; try done.
  intros [= <-]. eauto using get_put_independent.
Qed.

Lemma independent_sym p q : independent p q → independent q p.
Proof. intros [??]. by split. Qed.

Lemma independent_app_l d p q : independent d p → independent (d ++ q) p.
Proof.
  intros [Hdp Hpd]. split.
  - intros Hpre. apply Hdp. by eapply prefix_app_l.
  - intros Hpre.
    destruct (prefix_weak_total p d (d ++ q)); [done|by apply prefix_app_r|..]; auto.
Qed.

Lemma independent_not_nil p q : independent p q → p ≠ [].
Proof. intros [Hpq _] ->. apply Hpq, prefix_nil. Qed.

(** ** The substituter *)

Lemma Chart_init_ok location content st :
  lookup_path (location ++ ["Chart.yaml"]) (fs st) = Some (Yaml content) →
  Chart_init location st = (st, inr {| location := location; index := content |}).
Proof.
  intros Hyaml. unfold Chart_init, resolve, exists_. rewrite bind_run, Hyaml.
  rewrite bool_decide_eq_true_2 by eauto. simpl. by rewrite Hyaml.
Qed.

Lemma lookup_path_app p q t :
  lookup_path (p ++ q) t = get q (lookup_path p t).
Proof. apply get_app. Qed.

Lemma foldM_unchanged {A B} (f : B → A → M B) l acc st :
  (∀ x, x ∈ l → f acc x st = (st, inr acc)) →
  foldM f acc l st = (st, inr acc).
Proof.
  induction l as [|x l IH]; intros Hl; simpl; [done|].
  rewrite bind_run, Hl by left. apply IH. intros y Hy. apply Hl. by right.
Qed.

Section Substituter.

Variable sources : list Chart.

Lemma substitute_subchart_source recur updated subchart_dir entries content src st :
  lookup_path subchart_dir (fs st) = Some (Dir entries) →
  entries !! "Chart.yaml" = Some (Yaml content) →
  candidates (compute_name content) sources = [src] →
  substitute_subchart recur sources updated subchart_dir st
  = (rm subchart_dir;; copy (location src) subchart_dir;; mret true) st.
Proof.
  intros Hdir Hyaml Hsrc. unfold substitute_subchart.
  rewrite bind_run. unfold is_dir. rewrite Hdir. simpl.
  rewrite bind_run, (Chart_init_ok _ content)
    by (by rewrite lookup_path_app, Hdir; simpl; rewrite Hyaml).
  rewrite bind_run. unfold lift, name. simpl.
  by rewrite find_one_source_candidates, Hsrc.
Qed.

Lemma substitute_subchart_no_source recur updated subchart_dir entries content st :
  lookup_path subchart_dir (fs st) = Some (Dir entries) →
  entries !! "Chart.yaml" = Some (Yaml content) →
  candidates (compute_name content) sources = [] →
  substitute_subchart recur sources updated subchart_dir st
  = (let* below := recur {| location := subchart_dir; index := content |} in
     mret (below || updated)) st.
Proof.
  intros Hdir Hyaml Hsrc. unfold substitute_subchart.
  rewrite bind_run. unfold is_dir. rewrite Hdir. simpl.
  rewrite bind_run, (Chart_init_ok _ content)
    by (by rewrite lookup_path_app, Hdir; simpl; rewrite Hyaml).
  rewrite bind_run. unfold lift, name. simpl.
  by rewrite find_one_source_candidates, Hsrc.
Qed.

Lemma substitute_subchart_file recur updated subchart_dir st :
  from_option is_dir_node false (lookup_path subchart_dir (fs st)) = false →
  substitute_subchart recur sources updated subchart_dir st = (st, inr updated).
Proof.
  intros Hfile. unfold substitute_subchart. rewrite bind_run. unfold is_dir.
  by rewrite Hfile.
Qed.

(** The directory removed, the directory of the source copied in its place. *)
Lemma rm_copy_replaces src dst entries st :
  is_Some (lookup_path dst (fs st)) →
  lookup_path src (fs st) = Some (Dir entries) →
  independent dst src →
  ∃ t, (rm dst;; copy src dst;; mret true) st = (set_fs t st, inr true)
       ∧ fs_put false dst (Some (Dir entries)) (fs st) = Some t.
Proof.
  intros Hdst Hsrc Hind.
  destruct (fs_put_is_Some false dst (Dir entries) (fs st) Hdst) as [t Ht].
  exists t. split; [|done].
  rewrite bind_run. unfold rm at 1. rewrite bind_run. unfold exists_ at 1.
  rewrite bool_decide_eq_true_2 by done. unfold write at 1.
  destruct (fs_put false dst None (fs st)) as [t1|] eqn:Ht1.
  2:{ unfold fs_put in Ht1. destruct dst as [|x dst].
      - by destruct (independent_not_nil _ _ Hind).
      - destruct Hdst as [c Hc].
        destruct (put_is_Some false (x :: dst) None (Some (fs st))) as [r Hr];
          [unfold lookup_path in Hc; rewrite Hc; eauto|].
        rewrite Hr in Ht1. by destruct (put_cons_Some _ _ _ _ _ _ Hr) as [? ->]. }
  rewrite bind_run. unfold copy. simpl.
  rewrite (lookup_fs_put_independent _ _ _ _ _ _ Hind Ht1), Hsrc.
  rewrite (lookup_fs_put _ _ _ _ _ Ht1). unfold write. simpl.
  assert (fs_put true dst (Some (Dir entries)) t1 = Some t) as ->; [|done].
  rewrite <-(fs_put_fs_put _ _ _ _ _ _ Ht1) in Ht. unfold fs_put in *.
  destruct (put false dst (Some (Dir entries)) (Some t1)) as [r|] eqn:E; [|done].
  by rewrite (put_false_true _ _ _ _ E).
Qed.

Lemma nothing_to_substitute_unfold depth chart_dir :
  nothing_to_substitute depth sources chart_dir
  = match lookup_path ["charts"] chart_dir with
    | None => true
    | Some (Dir subcharts) =>
        forallb
          (λ subchart,
             match subchart with
             | Dir _ =>
                 match depth with
                 | 0 => false
                 | S depth' =>
                     match lookup_path ["Chart.yaml"] subchart with
                     | Some (Yaml content) =>
                         bool_decide
                           (candidates (compute_name content) sources = [])
                         && nothing_to_substitute depth' sources subchart
                     | _ => false
                     end
                 end
             | _ => true
             end)
          (snd <$> map_to_list subcharts)
    | Some _ => false
    end.
Proof. by destruct depth. Qed.

Lemma resolve_subcharts_nothing fuel : ∀ depth self chart_dir st,
  depth < fuel →
  lookup_path (location self) (fs st) = Some chart_dir →
  nothing_to_substitute depth sources chart_dir = true →
  resolve_subcharts fuel self sources st = (st, inr false).
Proof.
  induction fuel as [|fuel IH]; intros depth self chart_dir st Hfuel Hself Hquiet;
    [lia|].
  rewrite nothing_to_substitute_unfold in Hquiet.
  assert (lookup_path (subcharts_dir self) (fs st)
          = lookup_path ["charts"] chart_dir) as Hdir.
  { unfold subcharts_dir. by rewrite lookup_path_app, Hself. }
  simpl. rewrite bind_run. unfold exists_. rewrite Hdir.
  destruct (lookup_path ["charts"] chart_dir) as [[| | |subcharts]|] eqn:Hcharts;
    try done.
  rewrite bool_decide_eq_true_2 by eauto. simpl.
  unfold iterdir, listdir. rewrite !bind_run, Hdir. simpl.
  apply foldM_unchanged. intros p Hp.
  apply list_elem_of_fmap in Hp as (n & -> & Hn).
  apply list_elem_of_fmap in Hn as ([n' sub] & -> & Hsub). simpl.
  assert (lookup_path (subcharts_dir self ++ [n']) (fs st) = Some sub) as Hlook.
  { rewrite lookup_path_app, Hdir. simpl.
    by apply elem_of_map_to_list in Hsub as ->. }
  rewrite forallb_forall in Hquiet. specialize (Hquiet sub).
  rewrite <-list_elem_of_In in Hquiet.
  specialize (Hquiet ltac:(apply list_elem_of_fmap; by exists (n', sub))).
  destruct sub as [| | |entries];
    try (apply substitute_subchart_file; by rewrite Hlook).
  destruct depth as [|depth]; [done|].
  destruct (lookup_path ["Chart.yaml"] (Dir entries)) as [[|content| |]|] eqn:Hyaml;
    try done.
  apply andb_prop in Hquiet as [Hnone%bool_decide_eq_true Hbelow].
  rewrite (substitute_subchart_no_source _ _ _ entries content) by done.
  rewrite bind_run, (IH depth _ (Dir entries)); [done|lia|done|done].
Qed.

End Substituter.

(** ** The file system: a scratch directory beside the rest *)

Lemma partial_alter_twice {A} (o1 o2 : option A) x (es : gmap string A) :
  partial_alter (λ _, o2) x (partial_alter (λ _, o1) x es)
  = partial_alter (λ _, o2) x es.
Proof.
  apply map_eq. intros y. destruct (decide (x = y)) as [->|];
    by rewrite ?lookup_partial_alter_eq, ?lookup_partial_alter_ne.
Qed.

Lemma partial_alter_swap {A} (o1 o2 : option A) x y (es : gmap string A) :
  x ≠ y →
  partial_alter (λ _, o2) y (partial_alter (λ _, o1) x es)
  = partial_alter (λ _, o1) x (partial_alter (λ _, o2) y es).
Proof.
  intros Hne. apply map_eq. intros z.
  destruct (decide (x = z)) as [->|]; destruct (decide (y = z)) as [->|];
    by rewrite ?lookup_partial_alter_eq, ?lookup_partial_alter_ne,
         ?lookup_partial_alter_eq by done.
Qed.

(** Writes at paths that do not meet can be done in either order. *)
Lemma put_comm p : ∀ q op oq cur,
  independent p q →
  put false p op cur ≫= put false q oq = put false q oq cur ≫= put false p op.
Proof.
  induction p as [|x p IH]; intros q op oq cur Hind.
  { by destruct (independent_not_nil _ _ Hind). }
  destruct q as [|y q].
  { by destruct (independent_not_nil _ _ (independent_sym _ _ Hind)). }
  destruct cur as [[| | |es]|]; try done. simpl.
  destruct (decide (x = y)) as [<-|Hne].
  - assert (independent p q) as Hind'.
    { destruct Hind as [H1 H2].
      split; intros Hpre; [apply H1|apply H2]; by apply prefix_cons. }
    specialize (IH q op oq (es !! x) Hind').
    destruct (put false p op (es !! x)) as [r1|] eqn:E1;
      destruct (put false q oq (es !! x)) as [r2|] eqn:E2; simpl in *;
      rewrite ?lookup_partial_alter_eq.
    + rewrite IH. destruct (put false p op r2); simpl; [|done].
      by rewrite !partial_alter_twice.
    + by rewrite IH.
    + by rewrite <-IH.
    + done.
  - destruct (put false p op (es !! x)) as [r1|] eqn:E1;
      destruct (put false q oq (es !! y)) as [r2|] eqn:E2; simpl;
      rewrite ?lookup_partial_alter_ne by done; rewrite ?E1, ?E2; simpl; try done.
    by rewrite partial_alter_swap.
Qed.

Lemma fs_put_comm p q op oq t t1 t2 :
  independent p q →
  fs_put false p op t = Some t1 →
  fs_put false q oq t1 = Some t2 →
  ∃ t1', fs_put false q oq t = Some t1' ∧ fs_put false p op t1' = Some t2.
Proof.
  unfold fs_put. intros Hind H1 H2.
  pose proof (put_comm p q op oq (Some t) Hind) as Hcomm.
  destruct (put false p op (Some t)) as [[r1|]|] eqn:E1; try done.
  injection H1 as ->. simpl in Hcomm.
  destruct (put false q oq (Some t1)) as [[r2|]|] eqn:E2; try done.
  injection H2 as ->.
  destruct (put false q oq (Some t)) as [[t1'|]|] eqn:E3; simpl in Hcomm.
  - exists t1'. split; [done|]. by rewrite <-Hcomm.
  - destruct p; [by destruct (independent_not_nil _ _ Hind)|done].
  - done.
Qed.

Lemma fs_put_Some_again p x x' t t' :
  fs_put false p (Some x) t = Some t' → is_Some (fs_put false p (Some x') t).
Proof.
  intros Hput. rewrite <-(fs_put_fs_put _ _ _ _ _ _ Hput).
  apply fs_put_is_Some. rewrite (lookup_fs_put _ _ _ _ _ Hput). eauto.
Qed.

Lemma fs_put_false_true p o t t' :
  fs_put false p o t = Some t' → fs_put true p o t = Some t'.
Proof.
  unfold fs_put. destruct (put false p o (Some t)) as [r|] eqn:E; [|done].
  by rewrite (put_false_true _ _ _ _ E).
Qed.

Lemma put_None_absent p : ∀ o cur,
  get p cur = None → is_Some (put false p o cur) →
  put false p None cur = Some cur.
Proof.
  induction p as [|x p IH]; intros o cur Hget Hput; simpl in *; [by subst|].
  destruct cur as [[| | |es]|]; try by destruct Hput.
  destruct (put false p o (es !! x)) as [r|] eqn:E; [|by destruct Hput].
  rewrite (IH o (es !! x)); [|done|by rewrite E]. simpl. do 3 f_equal.
  apply map_eq. intros y. destruct (decide (x = y)) as [->|];
    by rewrite ?lookup_partial_alter_eq, ?lookup_partial_alter_ne.
Qed.

Section Scratch.

Variables (d : path) (main : node) (scratch : gmap string node) (cur : node).
Hypothesis Hregion : scratch_at d main scratch cur.

Lemma scratch_lookup q : lookup_path (d ++ q) cur = get q (Some (Dir scratch)).
Proof. by rewrite lookup_path_app, (lookup_fs_put _ _ _ _ _ Hregion). Qed.

Lemma scratch_lookup_main p :
  independent d p → lookup_path p cur = lookup_path p main.
Proof. intros Hind. by eapply lookup_fs_put_independent. Qed.

(** A write inside the scratch directory. *)
Lemma scratch_put parents q o scratch' :
  put parents q o (Some (Dir scratch)) = Some (Some (Dir scratch')) →
  ∃ cur', fs_put parents (d ++ q) o cur = Some cur'
          ∧ scratch_at d main scratch' cur'.
Proof.
  intros Hq. destruct (fs_put_Some_again _ _ (Dir scratch') _ _ Hregion)
    as [cur' Hcur'].
  exists cur'. split; [|done].
  assert (fs_put parents d (Some (Dir scratch')) cur = Some cur') as Hd.
  { rewrite <-(fs_put_fs_put _ _ _ _ _ _ Hregion) in Hcur'.
    destruct parents; [by apply fs_put_false_true|done]. }
  unfold fs_put in *. rewrite put_app.
  change (get d (Some cur)) with (lookup_path d cur).
  rewrite (lookup_fs_put _ _ _ _ _ Hregion), Hq. exact Hd.
Qed.

(** A write outside of it. *)
Lemma scratch_put_main p o cur' :
  independent d p →
  fs_put false p o cur = Some cur' →
  ∃ main', fs_put false p o main = Some main' ∧ scratch_at d main' scratch cur'.
Proof. intros Hind Hcur. by eapply fs_put_comm. Qed.

(** The scratch directory removed, what is left is the rest. *)
Lemma scratch_remove :
  lookup_path d main = None → fs_put false d None cur = Some main.
Proof.
  intros Hfresh. rewrite (fs_put_fs_put _ _ _ _ _ _ Hregion).
  unfold scratch_at, fs_put, lookup_path in *.
  rewrite (put_None_absent d (Some (Dir scratch))); [done|done|].
  by destruct (put false d (Some (Dir scratch)) (Some main)).
Qed.

End Scratch.

Lemma independent_siblings dir (n m : string) :
  n ≠ m → independent (dir ++ [n]) (dir ++ [m]).
Proof.
  intros Hne. split; intros Hpre%prefix_app_inv%prefix_cons_inv_1; congruence.
Qed.

(** ** The substituter on a chart with one subchart to replace *)

Lemma resolve_subcharts_loop sources fuel self subcharts st :
  lookup_path (subcharts_dir self) (fs st) = Some (Dir subcharts) →
  resolve_subcharts (S fuel) self sources st
  = foldM (substitute_subchart
             (λ subchart, resolve_subcharts fuel subchart sources) sources)
          false
          ((λ n, subcharts_dir self ++ [n]) <$> (map_to_list subcharts).*1) st.
Proof.
  intros Hdir. simpl. rewrite bind_run. unfold exists_. rewrite Hdir.
  rewrite bool_decide_eq_true_2 by eauto. simpl.
  unfold iterdir, listdir. by rewrite !bind_run, Hdir.
Qed.

Section OneSubchart.

Variables (sources : list Chart) (fuel k : nat) (dir : path).
Variables (subs : gmap string node) (bname : string).
Hypothesis Hfuel : k < fuel.
Hypothesis Hsettled :
  nothing_to_substitute (S k) sources
    (Dir {[ "charts" := Dir (delete bname subs) ]}) = true.

Lemma settled_sibling updated n sub st :
  n ≠ bname →
  subs !! n = Some sub →
  lookup_path (dir ++ [n]) (fs st) = Some sub →
  substitute_subchart (λ subchart, resolve_subcharts fuel subchart sources)
    sources updated (dir ++ [n]) st
  = (st, inr updated).
Proof.
  intros Hne Hsub Hlook. pose proof Hsettled as Hall.
  rewrite nothing_to_substitute_unfold in Hall.
  change (lookup_path ["charts"] (Dir {[ "charts" := Dir (delete bname subs) ]}))
    with ((({[ "charts" := Dir (delete bname subs) ]} : gmap string node)
            !! "charts")) in Hall.
  rewrite lookup_singleton_eq, forallb_forall in Hall. specialize (Hall sub).
  rewrite <-list_elem_of_In in Hall.
  assert (sub ∈ (map_to_list (delete bname subs)).*2) as Hin.
  { apply list_elem_of_fmap. exists (n, sub). split; [done|].
    apply elem_of_map_to_list. by rewrite lookup_delete_ne. }
  specialize (Hall Hin).
  destruct sub as [| | |entries];
    try (apply substitute_subchart_file; by rewrite Hlook).
  destruct (lookup_path ["Chart.yaml"] (Dir entries)) as [[|content| |]|] eqn:Hyaml;
    try done.
  apply andb_prop in Hall as [Hnone%bool_decide_eq_true Hbelow].
  rewrite (substitute_subchart_no_source _ _ _ _ entries content) by done.
  by rewrite bind_run, (resolve_subcharts_nothing sources fuel k _ (Dir entries)).
Qed.

Lemma settled_siblings updated names st :
  bname ∉ names →
  (∀ n, n ∈ names → is_Some (subs !! n)) →
  (∀ n, n ≠ bname → lookup_path (dir ++ [n]) (fs st) = subs !! n) →
  foldM (substitute_subchart
           (λ subchart, resolve_subcharts fuel subchart sources) sources)
        updated ((λ n, dir ++ [n]) <$> names) st
  = (st, inr updated).
Proof.
  intros Hnot Hin Hlook. apply foldM_unchanged.
  intros p (n & -> & Hn)%list_elem_of_fmap.
  destruct (Hin n Hn) as [sub Hsub].
  assert (n ≠ bname) as Hne by (intros ->; done).
  apply (settled_sibling _ _ sub); [done|done|]. by rewrite Hlook.
Qed.

Lemma resolve_subcharts_one self b_entries b_content src src_entries st :
  dir = subcharts_dir self →
  lookup_path dir (fs st) = Some (Dir subs) →
  subs !! bname = Some (Dir b_entries) →
  b_entries !! "Chart.yaml" = Some (Yaml b_content) →
  candidates (compute_name b_content) sources = [src] →
  lookup_path (location src) (fs st) = Some (Dir src_entries) →
  independent (dir ++ [bname]) (location src) →
  ∃ t, resolve_subcharts (S fuel) self sources st = (set_fs t st, inr true)
       ∧ fs_put false (dir ++ [bname]) (Some (Dir src_entries)) (fs st) = Some t.
Proof.
  intros Heq Hdir Hb Hyaml Hsrc Hsrc_dir Hind.
  rewrite (resolve_subcharts_loop _ _ _ subs) by (by rewrite <-Heq).
  rewrite <-Heq.
  assert (∀ n, lookup_path (dir ++ [n]) (fs st) = subs !! n)
    as Hentries by (intros n; by rewrite lookup_path_app, Hdir).
  assert (bname ∈ (map_to_list subs).*1) as Hin.
  { apply list_elem_of_fmap. exists (bname, Dir b_entries). split; [done|].
    by apply elem_of_map_to_list. }
  pose proof (NoDup_fst_map_to_list subs) as Hnd.
  assert (∀ n, n ∈ (map_to_list subs).*1 → is_Some (subs !! n)) as Hall.
  { intros n ([n' x] & -> & Hx)%list_elem_of_fmap.
    apply elem_of_map_to_list in Hx. eauto. }
  apply list_elem_of_split in Hin as (l1 & l2 & Hsplit).
  rewrite Hsplit in Hnd, Hall |- *.
  apply NoDup_app in Hnd as (_ & Hl1 & [Hl2 _]%NoDup_cons).
  rewrite fmap_app, foldM_app, bind_run.
  rewrite settled_siblings; [|by intros ?%Hl1; set_solver| |by intros].
  2:{ intros n Hn. apply Hall. apply elem_of_app. by left. }
  rewrite fmap_cons. simpl. rewrite bind_run.
  rewrite (substitute_subchart_source _ _ _ _ b_entries b_content src)
    by (by rewrite ?Hentries).
  destruct (rm_copy_replaces (location src) (dir ++ [bname])
              src_entries st) as (t & -> & Ht);
    [rewrite Hentries, Hb; eauto|done|done|].
  exists t. split; [|done].
  apply settled_siblings; [done| |].
  - intros n Hn. apply Hall. apply elem_of_app. right. by right.
  - intros n Hne. simpl. rewrite <-Hentries.
    eapply lookup_fs_put_independent; [|exact Ht].
    by apply independent_siblings.
Qed.

End OneSubchart.

(** Once [updated] is set, it stays set. *)
Lemma substitute_subchart_keeps_updated recur sources subchart_dir st st' updated :
  substitute_subchart recur sources true subchart_dir st = (st', inr updated) →
  updated = true.
Proof.
  unfold substitute_subchart. rewrite bind_run. unfold is_dir.
  destruct (from_option is_dir_node false _); [|by intros [= _ <-]].
  rewrite bind_run.
  destruct (Chart_init subchart_dir st) as [st1 [e|subchart]]; [done|].
  rewrite bind_run. unfold lift.
  destruct (find_one_source _ _) as [e|[src|]]; [done|..].
  - rewrite bind_run. destruct (rm _ st1) as [st2 [e|[]]]; [done|].
    rewrite bind_run. destruct (copy _ _ st2) as [st3 [e|[]]]; [done|].
    by intros [= _ <-].
  - rewrite bind_run. destruct (recur subchart st1) as [st2 [e|below]]; [done|].
    intros [= _ <-]. apply orb_true_r.
Qed.

Lemma foldM_keeps_updated recur sources listing : ∀ st st' updated,
  foldM (substitute_subchart recur sources) true listing st = (st', inr updated) →
  updated = true.
Proof.
  induction listing as [|p listing IH]; intros st st' updated; simpl.
  - by intros [= _ <-].
  - rewrite bind_run.
    destruct (substitute_subchart recur sources true p st) as [st1 [e|u]] eqn:Hstep;
      [done|].
    apply substitute_subchart_keeps_updated in Hstep as ->. apply IH.
Qed.

(** C9, as the code has it, in a file system without symbolic links. A
    source is a candidate for a subchart when the full name [name-version] of
    the subchart starts with the full name of the source. On a subchart
    directory that is a chart: when a source is the one candidate for it,
    [substitute] removes the directory, which is the location of the subchart,
    and copies the directory of the source in its place, whatever the
    recursive call would do, and sets [updated]; when no source is a
    candidate, it is the recursive call on the subchart, its result or-ed
    into [updated]. An entry that is no directory is passed, [updated] being
    as it was. The entries of the subcharts directory are all gone through in
    this way, and [updated], once set, stays set to the end. So when one
    subchart has a source and nothing else is to be substituted, [substitute]
    returns true and the directory of the source is in the place of the
    subchart, nothing else being changed. And where no source is a candidate
    for any subchart at any depth, [substitute] returns false and leaves the
    state as it is. *)
Theorem substitute_replaces_or_descends sources :
  (∀ recur updated subchart_dir entries content st,
     lookup_path subchart_dir (fs st) = Some (Dir entries) →
     entries !! "Chart.yaml" = Some (Yaml content) →
     (∀ src, candidates (compute_name content) sources = [src] →
        substitute_subchart recur sources updated subchart_dir st
        = (rm (resolve subchart_dir);;
           copy (location src) (resolve subchart_dir);;
           mret true) st
        ∧ ∀ src_entries,
            lookup_path (location src) (fs st) = Some (Dir src_entries) →
            independent subchart_dir (location src) →
            ∃ t, substitute_subchart recur sources updated subchart_dir st
                 = (set_fs t st, inr true)
                 ∧ fs_put false subchart_dir (Some (Dir src_entries)) (fs st)
                   = Some t)
     ∧ (candidates (compute_name content) sources = [] →
        substitute_subchart recur sources updated subchart_dir st
        = (let* below :=
             recur {| location := resolve subchart_dir; index := content |} in
           mret (below || updated)) st))
  ∧ (∀ recur updated subchart_dir st,
       from_option is_dir_node false (lookup_path subchart_dir (fs st)) = false →
       substitute_subchart recur sources updated subchart_dir st
       = (st, inr updated))
  ∧ (∀ fuel self subcharts st,
       lookup_path (subcharts_dir self) (fs st) = Some (Dir subcharts) →
       resolve_subcharts (S fuel) self sources st
       = foldM (substitute_subchart
                  (λ subchart, resolve_subcharts fuel subchart sources) sources)
               false
               ((λ n, subcharts_dir self ++ [n]) <$> (map_to_list subcharts).*1)
               st)
  ∧ (∀ recur listing st st' updated,
       foldM (substitute_subchart recur sources) true listing st
       = (st', inr updated) →
       updated = true)
  ∧ (∀ fuel depth self subcharts bname b_entries b_content src src_entries st,
       depth < fuel →
       lookup_path (subcharts_dir self) (fs st) = Some (Dir subcharts) →
       subcharts !! bname = Some (Dir b_entries) →
       b_entries !! "Chart.yaml" = Some (Yaml b_content) →
       candidates (compute_name b_content) sources = [src] →
       lookup_path (location src) (fs st) = Some (Dir src_entries) →
       independent (subcharts_dir self ++ [bname]) (location src) →
       nothing_to_substitute (S depth) sources
         (Dir {[ "charts" := Dir (delete bname subcharts) ]}) = true →
       ∃ t, resolve_subcharts (S fuel) self sources st = (set_fs t st, inr true)
            ∧ fs_put false (subcharts_dir self ++ [bname])
                (Some (Dir src_entries)) (fs st) = Some t)
  ∧ (∀ fuel depth self chart_dir st,
       depth < fuel →
       lookup_path (location self) (fs st) = Some chart_dir →
       nothing_to_substitute depth sources chart_dir = true →
       resolve_subcharts fuel self sources st = (st, inr false)).
Proof.
  split; [|split; [|split; [|split; [|split]]]].
  - intros recur updated subchart_dir entries content st Hdir Hyaml. split.
    + intros src Hsrc.
      pose proof (substitute_subchart_source sources recur updated _ _ _ _ _
                    Hdir Hyaml Hsrc) as Heq.
      split; [exact Heq|]. intros src_entries Hsrc_dir Hind. rewrite Heq.
      apply rm_copy_replaces; [by rewrite Hdir|done|done].
    + by apply (substitute_subchart_no_source _ _ _ _ entries).
  - intros. by apply substitute_subchart_file.
  - intros. by apply resolve_subcharts_loop.
  - intros recur listing. apply foldM_keeps_updated.
  - intros fuel depth self subcharts bname b_entries b_content src src_entries st
      Hfuel Hdir Hb Hyaml Hsrc Hsrc_dir Hind Hsettled.
    by apply (resolve_subcharts_one sources fuel depth (subcharts_dir self)
                subcharts bname Hfuel Hsettled self b_entries b_content src
                src_entries st).
  - intros fuel. apply resolve_subcharts_nothing.
Qed.

Lemma substitute_replaces_or_descends_witness :
  lookup_path ["a"; "charts"; "b"] (fs Sample.unpacked)
  = Some (Sample.chart_dir Sample.b_0_1 None)
  ∧ candidates (compute_name Sample.b_0_1) [Sample.work_b] = [Sample.work_b]
  ∧ lookup_path ["work"; "b"] (fs Sample.unpacked) = Some Sample.b_worked_on
  ∧ independent ["a"; "charts"; "b"] ["work"; "b"]
  ∧ nothing_to_substitute 1 [] (Sample.a_dir Sample.b_released) = true
  ∧ (∃ t, substitute_subchart (λ _, raise RecursionError) [Sample.work_b] false
            ["a"; "charts"; "b"] Sample.unpacked
          = (set_fs t Sample.unpacked, inr true)
          ∧ lookup_path ["a"; "charts"; "b"] t = Some Sample.b_worked_on)
  ∧ substitute_subchart (λ _, raise RecursionError) [Sample.work_b] true
      ["a"; "Chart.yaml"] Sample.unpacked
    = (Sample.unpacked, inr true)
  ∧ resolve_subcharts 2 Sample.chart_a [Sample.work_b] Sample.unpacked
    = (Sample.substituted, inr true)
  ∧ resolve_subcharts 2 Sample.chart_a [] Sample.unpacked
    = (Sample.unpacked, inr false).
Proof.
  assert (independent ["a"; "charts"; "b"] ["work"; "b"]) as Hind.
  { split; by intros [k [=]]. }
  split; [reflexivity|]. split; [reflexivity|]. split; [reflexivity|].
  split; [exact Hind|]. split; [reflexivity|].
  destruct (substitute_replaces_or_descends [Sample.work_b])
    as (Hstep & Hfile & _ & _ & Hcall & _).
  destruct (substitute_replaces_or_descends []) as (_ & _ & _ & _ & _ & Hquiet).
  split; [|split; [|split]].
  - destruct (Hstep (λ _, raise RecursionError) false ["a"; "charts"; "b"]
                _ Sample.b_0_1 Sample.unpacked eq_refl eq_refl) as [Hsrc _].
    destruct (Hsrc Sample.work_b eq_refl) as [_ Heffect].
    destruct (Heffect _ eq_refl Hind) as (t & Hrun & Ht).
    exists t. split; [exact Hrun|]. by apply lookup_fs_put in Ht.
  - by apply Hfile.
  - destruct (Hcall 1 0 Sample.chart_a (Sample.a_subcharts Sample.b_released)
                "b" Sample.b_released_entries Sample.b_0_1 Sample.work_b
                Sample.b_worked_on_entries Sample.unpacked)
      as (t & Hrun & Ht); [lia|reflexivity..|exact Hind|vm_compute; reflexivity|].
    vm_compute in Ht. injection Ht as <-. exact Hrun.
  - by apply (Hquiet 2 1 Sample.chart_a (Sample.a_dir Sample.b_released)
                Sample.unpacked); [lia|reflexivity|reflexivity].
Defined.

(** On the name of a source alone nothing is replaced. The subchart
    [b-0.1] has a full name that starts with the name [b] of the one source
    given, in the version [0.2]: the source is no candidate, the subchart is
    kept and the call returns false. *)
Lemma subchart_of_another_version_is_kept :
  startswith (compute_name Sample.b_0_1) (m_name (index Sample.next_b)) = true
  ∧ lookup_path ["a"; "charts"; "b"] (fs Sample.unpacked_beside_next)
    = Some (Sample.chart_dir Sample.b_0_1 None)
  ∧ find_one_source (compute_name Sample.b_0_1) [Sample.next_b] = inr None
  ∧ resolve_subcharts 2 Sample.chart_a [Sample.next_b]
      Sample.unpacked_beside_next
    = (Sample.unpacked_beside_next, inr false).
Proof.
  split; [reflexivity|]. split; [reflexivity|]. split; [reflexivity|].
  vm_compute. reflexivity.
Qed.

(** ** The second loop of the resolver *)

Lemma extractall_run archive target members n x t st :
  lookup_path archive (fs st) = Some (Tgz members) →
  members !! n = Some x →
  fs_put true target (Some (Dir members)) (fs st) = Some t →
  extractall archive target st = (set_fs t st, inr ()).
Proof.
  intros Harchive Hn Hput. unfold extractall, write. rewrite Harchive.
  rewrite bool_decide_eq_false_2; [by rewrite Hput|].
  intros ->. by rewrite lookup_empty in Hn.
Qed.

Lemma iterdir_run p entries st :
  lookup_path p (fs st) = Some (Dir entries) →
  iterdir p st = (st, inr ((λ n, p ++ [n]) <$> (map_to_list entries).*1)).
Proof. intros Hdir. unfold iterdir, listdir. by rewrite bind_run, Hdir. Qed.

Lemma rm_run p t st :
  is_Some (lookup_path p (fs st)) →
  fs_put false p None (fs st) = Some t →
  rm p st = (set_fs t st, inr ()).
Proof.
  intros Hp Hput. unfold rm, exists_, write.
  by rewrite bind_run, bool_decide_eq_true_2, Hput.
Qed.

Lemma fs_put_None_is_Some p t :
  p ≠ [] → is_Some (lookup_path p t) → is_Some (fs_put false p None t).
Proof.
  intros Hp Hlook. unfold fs_put, lookup_path in *.
  destruct (put_is_Some false p None _ Hlook) as [r Hr]. rewrite Hr.
  destruct p as [|x p]; [done|].
  by destruct (put_cons_Some _ _ _ _ _ _ Hr) as [? ->].
Qed.


Lemma settled_archive_inv depth sources archive :
  settled_archive depth sources archive = true →
  ∃ members top chart_dir content,
    archive = Some (Tgz members)
    ∧ map_to_list members = [(top, chart_dir)]
    ∧ lookup_path ["Chart.yaml"] chart_dir = Some (Yaml content)
    ∧ nothing_to_substitute depth sources chart_dir = true.
Proof.
  unfold settled_archive. intros Hs.
  destruct archive as [[| |members|]|]; try done.
  destruct (map_to_list members) as [|[top chart_dir] [|]] eqn:Hlist; try done.
  destruct (lookup_path ["Chart.yaml"] chart_dir) as [[|content| |]|] eqn:Hyaml;
    try done.
  by exists members, top, chart_dir, content.
Qed.

Section SecondLoop.

Context `{Helm}.
Variables (sources : list Chart) (fuel k : nat) (self : Chart) (d : path).
Hypothesis Hfuel : k < fuel.

(** An archive in which nothing is to be substituted is unpacked in the
    scratch directory, and that is all. *)
Lemma resolve_archive_settled p main scratch st :
  scratch_at d main scratch (fs st) →
  independent d p →
  settled_archive k sources (lookup_path p main) = true →
  ∃ scratch' cur',
    resolve_archive (λ chart, resolve_subcharts fuel chart sources) self d
      (inr p) st
    = (set_fs cur' st, inr ())
    ∧ scratch_at d main scratch' cur'.
Proof.
  intros Hregion Hind Hsettled.
  apply settled_archive_inv in Hsettled
    as (members & top & chart_dir & content & Harchive & Hlist & Hyaml & Hquiet).
  assert (members !! top = Some chart_dir) as Htop.
  { apply elem_of_map_to_list. rewrite Hlist. left. }
  destruct (scratch_put d main scratch (fs st) Hregion true [basename p]
              (Some (Dir members))
              (partial_alter (λ _, Some (Dir members)) (basename p) scratch))
    as (cur' & Hput & Hregion'); [done|].
  exists (partial_alter (λ _, Some (Dir members)) (basename p) scratch), cur'.
  split; [|done].
  unfold resolve_archive. simpl. rewrite bind_run.
  rewrite (extractall_run _ _ members top chart_dir cur');
    [|by rewrite (scratch_lookup_main _ _ _ _ Hregion)|done..].
  rewrite bind_run, (iterdir_run _ members);
    [|simpl; rewrite (scratch_lookup _ _ _ _ Hregion'); simpl;
      by rewrite lookup_partial_alter_eq].
  rewrite Hlist. simpl. rewrite bind_run.
  assert (lookup_path (d ++ [basename p; top]) cur' = Some chart_dir) as Hchart.
  { rewrite (scratch_lookup _ _ _ _ Hregion'). simpl.
    by rewrite lookup_partial_alter_eq, Htop. }
  rewrite <-(assoc_L (++)). simpl.
  rewrite (Chart_init_ok _ content).
  2:{ simpl. rewrite <-(assoc_L (++)). simpl.
      rewrite (scratch_lookup _ _ _ _ Hregion'). simpl.
      by rewrite lookup_partial_alter_eq, Htop. }
  rewrite bind_run.
  by rewrite (resolve_subcharts_nothing sources fuel k _ chart_dir).
Qed.

End SecondLoop.

Lemma lookup_path_parent p n t x :
  lookup_path (p ++ [n]) t = Some x →
  ∃ entries, lookup_path p t = Some (Dir entries) ∧ entries !! n = Some x.
Proof.
  rewrite lookup_path_app. destruct (lookup_path p t) as [[| | |entries]|];
    try done. simpl. eauto.
Qed.

#[local] Arguments resolve_subcharts : simpl never.

Section Substituted.

Context `{Helm}.
Variables (sources : list Chart) (fuel k : nat) (self : Chart) (d : path).
Variables (file top bname : string) (src : Chart).
Variables (a_entries subcharts b_entries src_entries : gmap string node).
Variables (a_content b_content : Manifest) (new_archive : node).
Hypothesis Hfuel : k < fuel.
Hypothesis Ha_yaml : a_entries !! "Chart.yaml" = Some (Yaml a_content).
Hypothesis Ha_charts : a_entries !! "charts" = Some (Dir subcharts).
Hypothesis Hb : subcharts !! bname = Some (Dir b_entries).
Hypothesis Hb_yaml : b_entries !! "Chart.yaml" = Some (Yaml b_content).
Hypothesis Hsrc : candidates (compute_name b_content) sources = [src].
Hypothesis Hsettled :
  nothing_to_substitute (S k) sources
    (Dir {[ "charts" := Dir (delete bname subcharts) ]}) = true.
Hypothesis Hpackage :
  call_helm_package
    (Dir (<["charts" := Dir (<[bname := Dir src_entries]> subcharts)]> a_entries))
  = Some (file, new_archive).


End Substituted.

Lemma lookup_path_prefix p q t :
  is_Some (lookup_path (p ++ q) t) → is_Some (lookup_path p t).
Proof.
  rewrite lookup_path_app. destruct (lookup_path p t); [eauto|].
  rewrite get_None. by intros [].
Qed.

(** A fresh directory of [/tmp] does not meet what exists elsewhere. *)
Lemma independent_tmp n p t :
  lookup_path (tmp_root ++ [n]) t = None →
  is_Some (lookup_path p t) →
  p ≠ [] → p ≠ tmp_root →
  independent (tmp_root ++ [n]) p.
Proof.
  intros Hfresh Hp Hnil Htmp. split.
  - intros [q ->]. apply lookup_path_prefix in Hp. rewrite Hfresh in Hp.
    by destruct Hp.
  - intros [q Hq]. unfold tmp_root in *. simpl in Hq.
    destruct p as [|x [|y [|z p]]]; simplify_eq/=.
    rewrite Hfresh in Hp. by destruct Hp.
Qed.

Lemma forM_cons {A} (f : A → M unit) x l st :
  forM f (x :: l) st = (f x;; forM f l) st.
Proof.
  unfold forM. simpl. rewrite !bind_run. by destruct (f x st) as [st1 [e|[]]].
Qed.


Section WholeCall.

Context `{Helm}.
Variables (sources : list Chart) (fuel k : nat) (self : Chart) (d : path).
Variables (file top bname : string) (src : Chart).
Variables (a_entries subcharts b_entries src_entries : gmap string node).
Variables (a_content b_content : Manifest) (new_archive : node).
Hypothesis Hfuel : k < fuel.
Hypothesis Ha_yaml : a_entries !! "Chart.yaml" = Some (Yaml a_content).
Hypothesis Ha_charts : a_entries !! "charts" = Some (Dir subcharts).
Hypothesis Hb : subcharts !! bname = Some (Dir b_entries).
Hypothesis Hb_yaml : b_entries !! "Chart.yaml" = Some (Yaml b_content).
Hypothesis Hsrc : candidates (compute_name b_content) sources = [src].
Hypothesis Hsettled :
  nothing_to_substitute (S k) sources
    (Dir {[ "charts" := Dir (delete bname subcharts) ]}) = true.
Hypothesis Hpackage :
  call_helm_package
    (Dir (<["charts" := Dir (<[bname := Dir src_entries]> subcharts)]> a_entries))
  = Some (file, new_archive).

(** Archives in which nothing is to be substituted, one after the other. *)
Lemma resolve_archives_settled items : ∀ main scratch st,
  scratch_at d main scratch (fs st) →
  (∀ item, item ∈ items →
     ∃ p, item = inr p ∧ independent d p
          ∧ settled_archive k sources (lookup_path p main) = true) →
  ∃ scratch' cur',
    forM (resolve_archive (λ chart, resolve_subcharts (S fuel) chart sources)
            self d) items st
    = (set_fs cur' st, inr ())
    ∧ scratch_at d main scratch' cur'.
Proof.
  induction items as [|item items IH]; intros main scratch st Hregion Hitems.
  - exists scratch, (fs st). by rewrite set_fs_same.
  - destruct (Hitems item) as (p & -> & Hind & Hp); [left|].
    destruct (resolve_archive_settled sources (S fuel) k self d ltac:(lia)
                p main scratch st Hregion Hind Hp)
      as (scratch1 & cur1 & Hrun1 & Hregion1).
    destruct (IH main scratch1 (set_fs cur1 st) Hregion1)
      as (scratch2 & cur2 & Hrun2 & Hregion2).
    { intros item Hitem. apply Hitems. by right. }
    exists scratch2, cur2. split; [|done].
    by rewrite forM_cons, bind_run, Hrun1, Hrun2.
Qed.


End WholeCall.

(** ** The resolver on a chart whose dependencies are all in place *)

#[local] Arguments update_dependencies : simpl never.

Lemma collect_in_place `{Helm} recur self sources deps : ∀ to_resolve st,
  (∀ dep, dep ∈ deps →
     candidates (compute_name dep) sources = []
     ∧ is_Some (lookup_path (archive_path self dep) (fs st))) →
  foldM (resolve_dependency recur self sources false) ([], to_resolve, false)
        deps st
  = (st, inr ([], to_resolve ∪ list_to_set (archive_path self <$> deps), false)).
Proof.
  induction deps as [|dep deps IH]; intros to_resolve st Hdeps; cbn [foldM].
  - by rewrite fmap_nil, list_to_set_nil, (right_id_L ∅ (∪)).
  - destruct (Hdeps dep) as [Hnone Harchive]; [left|].
    rewrite fmap_cons, list_to_set_cons.
    rewrite bind_run, resolve_dependency_no_source by done.
    rewrite bool_decide_eq_true_2 by done.
    rewrite IH by (intros dep' Hdep'; apply Hdeps; by right).
    by rewrite (assoc_L (∪)).
Qed.

Lemma makedirs_present p st :
  is_Some (lookup_path p (fs st)) → makedirs p st = (st, inr ()).
Proof.
  intros Hp. unfold makedirs, exists_.
  by rewrite bind_run, bool_decide_eq_true_2.
Qed.

Lemma mkdtemp_run tmp_entries st :
  lookup_path tmp_root (fs st) = Some (Dir tmp_entries) →
  let d := tmp_root ++ [fresh_string "tmp" tmp_entries] in
  lookup_path d (fs st) = None
  ∧ ∃ cur, mkdtemp st = (set_fs cur st, inr d) ∧ scratch_at d (fs st) ∅ cur.
Proof.
  intros Htmp d. split.
  { unfold d. rewrite lookup_path_app, Htmp. simpl. apply fresh_string_fresh. }
  destruct (fs_put_is_Some false tmp_root
              (Dir (partial_alter (λ _, Some (Dir ∅))
                      (fresh_string "tmp" tmp_entries) tmp_entries)) (fs st))
    as [cur Hcur]; [by rewrite Htmp|].
  rewrite <-(fs_put_entry _ _ _ _ _ _ Htmp) in Hcur.
  exists cur. split; [|done].
  unfold mkdtemp, d. rewrite Htmp, bind_run. unfold write. by rewrite Hcur.
Qed.

Lemma subcharts_dir_not_tmp self f :
  subcharts_dir self ≠ [] ∧ subcharts_dir self ≠ tmp_root
  ∧ subcharts_dir self ++ [f] ≠ [] ∧ subcharts_dir self ++ [f] ≠ tmp_root.
Proof.
  unfold subcharts_dir, tmp_root. repeat split.
  - by destruct (location self).
  - intros Heq. apply (f_equal last) in Heq. by rewrite last_snoc in Heq.
  - by destruct (location self).
  - intros Heq. apply (f_equal length) in Heq.
    rewrite !length_app in Heq. simpl in Heq. lia.
Qed.




(** * Further properties *)

(** ** Names that match *)

Lemma string_prefix_refl s : String.prefix s s = true.
Proof.
  induction s as [|a s IH]; [done|]. simpl. by destruct (Ascii.ascii_dec a a).
Qed.

Lemma string_prefix_trans s1 s2 s3 :
  String.prefix s1 s2 = true → String.prefix s2 s3 = true →
  String.prefix s1 s3 = true.
Proof.
  revert s2 s3. induction s1 as [|a s1 IH]; intros [|b s2] [|c s3]; simpl; try done.
  destruct (Ascii.ascii_dec a b) as [->|]; [|done].
  destruct (Ascii.ascii_dec b c) as [->|]; [|done].
  apply IH.
Qed.

(** X1. [match_to_dependencies] gives a dependency for its own full name;
    what it gives for a name it gives for every name that this one starts
    with, in the same order; and for the empty name it gives all the
    dependencies. *)
Theorem match_to_dependencies_prefixes self :
  (∀ d, d ∈ dependencies self →
     compute_name d ∈ match_to_dependencies self (compute_name d))
  ∧ (∀ name name', startswith name' name = true →
       match_to_dependencies self name'
       `sublist_of` match_to_dependencies self name)
  ∧ match_to_dependencies self "" = dependencies_fullnames self.
Proof.
  unfold match_to_dependencies, dependencies_fullnames, startswith.
  split; [|split].
  - intros d Hd. apply list_elem_of_filter. split; [apply string_prefix_refl|].
    apply list_elem_of_fmap. eauto.
  - intros n n' Hpre.
    induction (compute_name <$> dependencies self) as [|x l IH]; [done|].
    destruct (String.prefix n' x) eqn:E.
    + rewrite (filter_cons_True (λ y, String.prefix n' y = true)) by done.
      rewrite (filter_cons_True (λ y, String.prefix n y = true))
        by eauto using string_prefix_trans.
      by apply sublist_skip.
    + rewrite (filter_cons_False (λ y, String.prefix n' y = true))
        by (by rewrite E).
      destruct (String.prefix n x) eqn:E'.
      * rewrite (filter_cons_True (λ y, String.prefix n y = true)) by done.
        by apply sublist_cons.
      * by rewrite (filter_cons_False (λ y, String.prefix n y = true))
          by (by rewrite E').
  - induction (compute_name <$> dependencies self) as [|x l IH]; [done|].
    rewrite (filter_cons_True (λ y, String.prefix "" y = true)) by (by destruct x).
    by rewrite IH.
Qed.

Lemma candidates_Permutation dependency sources sources' :
  sources ≡ₚ sources' →
  candidates dependency sources ≡ₚ candidates dependency sources'.
Proof. intros Hp. unfold candidates. by rewrite Hp. Qed.

(** X2. The order in which the sources are given does not matter to
    [find_one_source]: the same source, none, or the same failure. *)
Theorem find_one_source_any_order dependency sources sources' :
  sources ≡ₚ sources' →
  find_one_source dependency sources = find_one_source dependency sources'.
Proof.
  intros Hp%(candidates_Permutation dependency).
  rewrite !find_one_source_candidates.
  destruct (candidates dependency sources) as [|c1 [|c2 l]].
  - by apply Permutation_nil_l in Hp as <-.
  - apply Permutation_singleton_l in Hp. by rewrite <-Hp.
  - pose proof (Permutation_length Hp) as Hlen.
    destruct (candidates dependency sources') as [|c1' [|c2' l']]; simpl in *;
      (done || lia).
Qed.

Lemma find_one_source_any_order_witness :
  [Sample.source_a; Sample.work_b] ≡ₚ [Sample.work_b; Sample.source_a]
  ∧ find_one_source "foo-1.0" [Sample.source_a; Sample.work_b]
    = find_one_source "foo-1.0" [Sample.work_b; Sample.source_a].
Proof.
  split; [apply Permutation_swap|].
  apply find_one_source_any_order, Permutation_swap.
Defined.

(** X3. A source that is given twice is ambiguous with itself: for a
    dependency it is a candidate for, [find_one_source] fails. *)
Theorem source_given_twice_is_ambiguous dependency src sources :
  startswith dependency (name src) = true →
  src ∈ sources →
  find_one_source dependency (src :: sources) = inl NotImplementedError.
Proof.
  intros Hmatch Hin. rewrite find_one_source_candidates. unfold candidates.
  rewrite filter_cons_True by done.
  assert (src ∈ filter (λ chart, startswith dependency (name chart) = true) sources)
    as Hc by (by apply list_elem_of_filter).
  by destruct (filter _ sources) as [|c l]; [apply not_elem_of_nil in Hc|].
Qed.

Lemma source_given_twice_is_ambiguous_witness :
  startswith "foo-1.0" (name Sample.source_a) = true
  ∧ Sample.source_a ∈ [Sample.source_a]
  ∧ find_one_source "foo-1.0" [Sample.source_a; Sample.source_a]
    = inl NotImplementedError.
Proof.
  split; [reflexivity|]. split; [by left|].
  apply source_given_twice_is_ambiguous; [reflexivity|by left].
Defined.

(** ** Packaging *)

(** X4. When [package] succeeds, the archive that [helm package] makes of
    the chart directory is in the directory given, under the name [helm]
    gives it, nothing else has changed in the file system, and the call is
    on the trace. When it fails, the file system is as it was. It fails
    before calling [helm] when the directory given cannot be entered: with
    [NotADirectoryError] when a regular file is there or on the way to it,
    with [FileNotFoundError] when it is missing below directories. In a
    directory it fails only as [helm] does, after the call. *)
Theorem package_writes_one_archive `{Helm} self directory st st' r :
  package self directory st = (st', r) →
  match r with
  | inr _ =>
      ∃ chart_dir file archive,
        lookup_path (location self) (fs st) = Some chart_dir
        ∧ call_helm_package chart_dir = Some (file, archive)
        ∧ lookup_path (directory ++ [file]) (fs st') = Some archive
        ∧ (∀ q, independent (directory ++ [file]) q →
             lookup_path q (fs st') = lookup_path q (fs st))
        ∧ trace st' = trace st ++ [EvPackage (location self) directory]
  | inl e =>
      fs st' = fs st
      ∧ match lookup_path directory (fs st) with
        | Some (Dir _) =>
            e = CalledProcessError
            ∧ trace st' = trace st ++ [EvPackage (location self) directory]
        | Some _ => e = NotADirectoryError ∧ trace st' = trace st
        | None =>
            e = unreachable directory (Some (fs st)) ∧ trace st' = trace st
        end
  end.
Proof.
  destruct r as [e|[]].
  - unfold package. rewrite bind_run. unfold cd.
    destruct (lookup_path directory (fs st)) as [[| | |entries]|] eqn:Hdir;
      try by intros [= <- <-].
    rewrite bind_run. simpl.
    destruct (lookup_path (location self) (fs st) ≫= call_helm_package)
      as [[file archive]|]; [|by intros [= <- <-]].
    unfold write. simpl.
    destruct (fs_put_is_Some false directory
                (Dir (partial_alter (λ _, Some archive) file entries)) (fs st))
      as [t Ht]; [by rewrite Hdir|].
    by rewrite (fs_put_entry _ _ _ _ _ _ Hdir), Ht.
  - intros (chart_dir & file & archive & Hdir & Hpkg & Hput & Htrace)%package_inv.
    exists chart_dir, file, archive. repeat split; try done.
    + by eapply lookup_fs_put.
    + intros q Hq. by eapply lookup_fs_put_independent.
Qed.

Lemma package_writes_one_archive_witness :
  (package (H := Sample.helm) Sample.source_a ["web"; "charts"]
     Sample.web_resolving
   = (Sample.web_resolved [EvPackage ["src"; "a"] ["web"; "charts"]], inr ())
   ∧ ∃ chart_dir file archive,
       lookup_path ["src"; "a"] (fs Sample.web_resolving) = Some chart_dir
       ∧ Sample.helm_package chart_dir = Some (file, archive)
       ∧ lookup_path (["web"; "charts"] ++ [file])
           (fs (Sample.web_resolved [])) = Some archive)
  ∧ (package (H := Sample.helm) Sample.source_a ["web"; "Chart.yaml"]
       Sample.web_resolving
     = (Sample.web_resolving, inl NotADirectoryError))
  ∧ (package (H := Sample.helm) Sample.source_a ["web"; "Chart.yaml"; "charts"]
       Sample.web_resolving
     = (Sample.web_resolving, inl NotADirectoryError))
  ∧ (package (H := Sample.helm) Sample.source_a ["web"; "subcharts"]
       Sample.web_resolving
     = (Sample.web_resolving, inl FileNotFoundError)).
Proof.
  assert (package (H := Sample.helm) Sample.source_a ["web"; "charts"]
            Sample.web_resolving
          = (Sample.web_resolved [EvPackage ["src"; "a"] ["web"; "charts"]],
             inr ())) as Hrun by (vm_compute; reflexivity).
  split; [split; [exact Hrun|]|].
  { destruct (package_writes_one_archive (H := Sample.helm) _ _ _ _ _ Hrun)
      as (chart_dir & file & archive & Hdir & Hpkg & Hlook & _).
    by exists chart_dir, file, archive. }
  split; [|split]; vm_compute; reflexivity.
Defined.

(** ** What a call leaves alone *)

Lemma changed_below_refl p st : changed_below p st st.
Proof. by repeat split. Qed.

Lemma changed_below_trans p st1 st2 st3 :
  changed_below p st1 st2 → changed_below p st2 st3 → changed_below p st1 st3.
Proof.
  intros (Ht1 & Ho1 & Hf1) (Ht2 & Ho2 & Hf2). repeat split; [congruence..|].
  intros q Hq. by rewrite Hf2, Hf1.
Qed.

Lemma changed_below_app p q st st' :
  changed_below (p ++ q) st st' → changed_below p st st'.
Proof.
  intros (Ht & Ho & Hf). repeat split; [done..|].
  intros x Hx. by apply Hf, independent_app_l.
Qed.

Lemma writes_below_app {A} p q (m : M A) :
  writes_below (p ++ q) m → writes_below p m.
Proof. intros Hm st st' r Hrun. eapply changed_below_app, Hm, Hrun. Qed.

Lemma writes_below_bind {A B} p (m : M A) (f : A → M B) :
  writes_below p m → (∀ x, writes_below p (f x)) → writes_below p (bind m f).
Proof.
  intros Hm Hf st st' r. rewrite bind_run.
  destruct (m st) as [st1 [e|x]] eqn:E.
  - intros [= <- <-]. by eapply Hm.
  - intros Hrun. eapply changed_below_trans; [by eapply Hm|by eapply Hf].
Qed.

Lemma writes_below_silent {A} p (m : M A) :
  (∀ st, (m st).1 = st) → writes_below p m.
Proof.
  intros Hm st st' r Hrun. specialize (Hm st). rewrite Hrun in Hm.
  simpl in Hm. subst st'. apply changed_below_refl.
Qed.

Lemma writes_below_foldM {A B} p (f : B → A → M B) l :
  (∀ acc x, x ∈ l → writes_below p (f acc x)) →
  ∀ acc, writes_below p (foldM f acc l).
Proof.
  induction l as [|x l IH]; intros Hf acc; simpl.
  - by apply writes_below_silent.
  - apply writes_below_bind; [apply Hf; left|].
    intros acc'. apply IH. intros acc'' y Hy. apply Hf. by right.
Qed.

Lemma writes_below_write parents p o e : writes_below p (write parents p o e).
Proof.
  intros st st' r. unfold write.
  destruct (fs_put parents p o (fs st)) as [t|] eqn:Hput; intros [= <- <-].
  - repeat split. intros q Hq. simpl. by eapply lookup_fs_put_independent.
  - apply changed_below_refl.
Qed.

Lemma writes_below_rm p : writes_below p (rm p).
Proof.
  unfold rm. apply writes_below_bind; [by apply writes_below_silent|].
  intros []; [apply writes_below_write|by apply writes_below_silent].
Qed.

Lemma writes_below_copy src dst : writes_below dst (copy src dst).
Proof.
  intros st st' r. unfold copy.
  destruct (lookup_path src (fs st)) as [[| | |es]|];
    destruct (lookup_path dst (fs st)) as [[| | |es']|];
    try (by intros [= <- <-]; apply changed_below_refl);
    try apply writes_below_write;
    apply (writes_below_app dst [basename src]), writes_below_write.
Qed.

(** X5. Whatever its result, [clean] changes the file system in the
    subcharts directory only, and neither the trace nor the configuration;
    in that directory, an entry that is no archive, or an archive that a
    dependency claims, is left as it was with all that is below it. *)
Theorem clean_keeps_the_rest self st st' r :
  clean_dependencies self st = (st', r) →
  changed_below (subcharts_dir self) st st'
  ∧ ∀ file_name q,
      endswith file_name ".tgz" = false
      ∨ match_to_dependencies self
          (drop_last (String.length ".tgz") file_name) ≠ [] →
      lookup_path (subcharts_dir self ++ file_name :: q) (fs st')
      = lookup_path (subcharts_dir self ++ file_name :: q) (fs st).
Proof.
  intros Hrun.
  destruct (lookup_path (subcharts_dir self) (fs st)) as [[| | |es]|] eqn:Hdir.
  1-3,5: (unfold clean_dependencies, iterdir, listdir in Hrun;
          rewrite !bind_run, Hdir in Hrun; injection Hrun as <- <-;
          split; [apply changed_below_refl|done]).
  destruct (clean_dependencies_spec self st es Hdir) as (t & Hrun' & Ht).
  rewrite Hrun in Hrun'. injection Hrun' as -> ->. split.
  - repeat split. intros q Hq. simpl. by eapply lookup_fs_put_independent.
  - intros n q Hkept.
    assert (extra_archive self n = false) as Hextra.
    { unfold extra_archive. destruct Hkept as [->|Hm]; [done|].
      rewrite bool_decide_eq_false_2 by done. apply andb_false_r. }
    rewrite !lookup_path_app, Hdir. simpl.
    rewrite (lookup_fs_put _ _ _ _ _ Ht). simpl. f_equal.
    destruct (es !! n) as [x|] eqn:Hn.
    + apply map_lookup_filter_Some. by split.
    + apply map_lookup_filter_None. by left.
Qed.

Lemma clean_keeps_the_rest_witness :
  clean_dependencies Sample.app Sample.start = (Sample.cleaned [], inr ())
  ∧ changed_below ["app"; "charts"] Sample.start (Sample.cleaned [])
  ∧ lookup_path ["app"; "charts"; "x-1.0.tgz"] (fs (Sample.cleaned []))
    = lookup_path ["app"; "charts"; "x-1.0.tgz"] (fs Sample.start).
Proof.
  assert (clean_dependencies Sample.app Sample.start
          = (Sample.cleaned [], inr ())) as Hrun by (vm_compute; reflexivity).
  split; [exact Hrun|].
  destruct (clean_keeps_the_rest _ _ _ _ Hrun) as [Hbelow Hkept].
  split; [exact Hbelow|]. apply (Hkept "x-1.0.tgz" []). right. by vm_compute.
Defined.

Lemma substring_0_app s t : String.substring 0 (String.length s) (s +:+ t) = s.
Proof.
  induction s as [|a s IH]; simpl.
  - by destruct t.
  - change (String a s +:+ t) with (String a (s +:+ t)). simpl. by rewrite IH.
Qed.

Lemma drop_last_app s t : drop_last (String.length t) (s +:+ t) = s.
Proof.
  unfold drop_last. rewrite string_length_app.
  replace (String.length s + String.length t - String.length t)
    with (String.length s) by lia.
  apply substring_0_app.
Qed.

(** X6. [clean] keeps what [resolve] provides: the archive named after a
    dependency is not an extra archive, and neither is the archive named after
    the source that [find_one_source] takes for a dependency. *)
Theorem clean_keeps_what_resolve_provides self sources d :
  d ∈ dependencies self →
  extra_archive self (compute_name d +:+ ".tgz") = false
  ∧ ∀ src, find_one_source (compute_name d) sources = inr (Some src) →
           extra_archive self (name src +:+ ".tgz") = false.
Proof.
  intros Hd.
  assert (∀ stem, startswith (compute_name d) stem = true →
            extra_archive self (stem +:+ ".tgz") = false) as Hkept.
  { intros stem Hstem. unfold extra_archive.
    rewrite (drop_last_app stem ".tgz"), bool_decide_eq_false_2;
      [apply andb_false_r|].
    rewrite match_to_dependencies_nil. intros Hall.
    specialize (Hall d Hd). congruence. }
  split.
  - apply Hkept, string_prefix_refl.
  - intros src Hsrc. apply Hkept.
    rewrite find_one_source_candidates in Hsrc.
    assert (src ∈ candidates (compute_name d) sources) as Hin.
    { destruct (candidates (compute_name d) sources) as [|c [|c' l]];
        simplify_eq. left. }
    by apply list_elem_of_filter in Hin as [? _].
Qed.

Lemma clean_keeps_what_resolve_provides_witness :
  Sample.foo_dependency ∈ dependencies Sample.web
  ∧ find_one_source (compute_name Sample.foo_dependency) [Sample.source_b]
    = inr (Some Sample.source_b)
  ∧ extra_archive Sample.web "foo-1.0.tgz" = false
  ∧ extra_archive Sample.web "foo-1.tgz" = false.
Proof.
  split; [by left|]. split; [reflexivity|].
  destruct (clean_keeps_what_resolve_provides Sample.web [Sample.source_b]
              Sample.foo_dependency) as [Hown Hsource]; [by left|].
  split; [exact Hown|]. by apply (Hsource Sample.source_b).
Defined.

Lemma Chart_init_inv dir st st' r :
  Chart_init dir st = (st', r) →
  st' = st ∧ ∀ chart, r = inr chart → location chart = dir.
Proof.
  unfold Chart_init, resolve, exists_. rewrite bind_run.
  destruct (bool_decide _); simpl; [|by intros [= <- <-]].
  destruct (lookup_path _ _) as [[]|]; intros [= <- <-]; split; try done.
  by intros chart [= <-].
Qed.

Lemma writes_below_substitute_subchart recur sources updated subchart_dir :
  (∀ subchart, location subchart = subchart_dir →
     writes_below (subcharts_dir subchart) (recur subchart)) →
  writes_below subchart_dir
    (substitute_subchart recur sources updated subchart_dir).
Proof.
  intros Hrecur st st' r. unfold substitute_subchart.
  rewrite bind_run. unfold is_dir.
  destruct (from_option is_dir_node false _);
    [|intros [= <- <-]; apply changed_below_refl].
  rewrite bind_run.
  destruct (Chart_init subchart_dir st) as [st1 [e|subchart]] eqn:Hinit;
    apply Chart_init_inv in Hinit as [-> Hloc];
    [intros [= <- <-]; apply changed_below_refl|].
  specialize (Hloc subchart eq_refl). rewrite bind_run. unfold lift.
  destruct (find_one_source _ _) as [e|[src|]];
    [intros [= <- <-]; apply changed_below_refl|..]; rewrite ?Hloc.
  - apply writes_below_bind; [apply writes_below_rm|]. intros _.
    apply writes_below_bind; [apply writes_below_copy|]. intros _.
    by apply writes_below_silent.
  - apply writes_below_bind.
    + apply (writes_below_app subchart_dir ["charts"]).
      rewrite <-Hloc. by apply Hrecur.
    + intros below. by apply writes_below_silent.
Qed.

Lemma resolve_subcharts_S fuel self sources :
  resolve_subcharts (S fuel) self sources
  = (let* present := exists_ (subcharts_dir self) in
     if negb present then mret false
     else
       let* listing := iterdir (subcharts_dir self) in
       foldM (substitute_subchart
                (λ subchart, resolve_subcharts fuel subchart sources) sources)
             false listing).
Proof. reflexivity. Qed.

(** Whatever its result, [resolve_subcharts] writes in the subcharts
    directory of its chart only. *)
Lemma writes_below_resolve_subcharts fuel sources : ∀ self,
  writes_below (subcharts_dir self) (resolve_subcharts fuel self sources).
Proof.
  induction fuel as [|fuel IH]; intros self.
  { by apply writes_below_silent. }
  rewrite resolve_subcharts_S.
  apply writes_below_bind; [by apply writes_below_silent|].
  intros present. destruct (negb present); [by apply writes_below_silent|].
  intros st st' r. rewrite bind_run. unfold iterdir. rewrite bind_run.
  destruct (listdir (subcharts_dir self) st) as [st1 [e|names]] eqn:Hlist.
  { unfold listdir in Hlist. intros [= <- <-].
    destruct (lookup_path _ _) as [[]|]; injection Hlist as <- _;
      apply changed_below_refl. }
  assert (st1 = st) as ->.
  { unfold listdir in Hlist.
    by destruct (lookup_path _ _) as [[]|]; injection Hlist as <- _. }
  unfold mret at 1, M_ret at 1.
  apply writes_below_foldM.
  intros acc p (n & -> & Hn)%list_elem_of_fmap.
  apply (writes_below_app (subcharts_dir self) [n]).
  apply writes_below_substitute_subchart.
  intros subchart Hloc. apply IH.
Qed.

(** X7. In a file system without symbolic links, whatever its result and
    whatever the sources, [substitute] on a chart changes the file system in
    the subcharts directory of that chart only, and neither the trace nor the
    configuration: the manifest of the chart is as it was, and so is every
    source that is not in that directory. *)
Theorem resolve_subcharts_stays_inside fuel self sources st st' r :
  resolve_subcharts fuel self sources st = (st', r) →
  changed_below (subcharts_dir self) st st'
  ∧ lookup_path (index_path self) (fs st') = lookup_path (index_path self) (fs st)
  ∧ ∀ src, src ∈ sources →
      independent (subcharts_dir self) (location src) →
      lookup_path (location src) (fs st') = lookup_path (location src) (fs st).
Proof.
  intros Hrun.
  pose proof (writes_below_resolve_subcharts fuel sources self _ _ _ Hrun)
    as Hbelow.
  split; [done|]. destruct Hbelow as (_ & _ & Hframe). split.
  - by apply Hframe, independent_siblings.
  - intros src _ Hsrc. by apply Hframe.
Qed.

Lemma resolve_subcharts_stays_inside_witness :
  resolve_subcharts 2 Sample.chart_a [Sample.work_b] Sample.unpacked
  = (Sample.substituted, inr true)
  ∧ changed_below ["a"; "charts"] Sample.unpacked Sample.substituted
  ∧ lookup_path ["a"; "Chart.yaml"] (fs Sample.substituted)
    = Some (Yaml Sample.a_1_0)
  ∧ lookup_path ["work"; "b"] (fs Sample.substituted)
    = Some Sample.b_worked_on.
Proof.
  assert (resolve_subcharts 2 Sample.chart_a [Sample.work_b] Sample.unpacked
          = (Sample.substituted, inr true)) as Hrun
    by (vm_compute; reflexivity).
  split; [exact Hrun|].
  destruct (resolve_subcharts_stays_inside _ _ _ _ _ _ Hrun)
    as (Hbelow & Hindex & Hsources).
  split; [exact Hbelow|]. split.
  - etrans; [exact Hindex|]. vm_compute; reflexivity.
  - etrans; [apply (Hsources Sample.work_b); [by left|]|vm_compute; reflexivity].
    split; intros [k Hk]; discriminate Hk.
Defined.

Lemma foldM_quiet {A} (f : bool → A → M bool) l :
  (∀ x st st' r, x ∈ l → f false x st = (st', r) → st' = st ∧ r ≠ inr true) →
  ∀ st st' r, foldM f false l st = (st', r) → st' = st ∧ r ≠ inr true.
Proof.
  induction l as [|x l IH]; intros Hf st st' r; simpl.
  - by intros [= <- <-].
  - rewrite bind_run. destruct (f false x st) as [st1 [e|acc]] eqn:E.
    + intros [= <- <-]. by apply Hf in E as [-> _]; [|left].
    + apply Hf in E as [-> Hacc]; [|left]. destruct acc; [done|].
      apply IH. intros y st0 st0' r0 Hy. apply Hf. by right.
Qed.

(** X8. Without sources, [substitute] changes nothing and never returns
    true, whatever the file system and the depth allowed: it returns false
    or fails. *)
Theorem resolve_subcharts_without_sources fuel self st st' r :
  resolve_subcharts fuel self [] st = (st', r) → st' = st ∧ r ≠ inr true.
Proof.
  revert self st st' r. induction fuel as [|fuel IH]; intros self st st' r.
  { by intros [= <- <-]. }
  rewrite resolve_subcharts_S.
  rewrite bind_run. unfold exists_. destruct (negb _); [by intros [= <- <-]|].
  unfold iterdir, listdir. rewrite !bind_run.
  destruct (lookup_path (subcharts_dir self) (fs st)) as [[| | |entries]|];
    try (by intros [= <- <-]).
  unfold mret at 1, M_ret at 1. apply foldM_quiet.
  intros p st0 st0' r0 _. unfold substitute_subchart. rewrite bind_run.
  unfold is_dir. destruct (from_option is_dir_node false _);
    [|by intros [= <- <-]].
  rewrite bind_run.
  destruct (Chart_init p st0) as [st1 [e|subchart]] eqn:Hinit;
    apply Chart_init_inv in Hinit as [-> _]; [by intros [= <- <-]|].
  rewrite bind_run. unfold lift. simpl. rewrite bind_run.
  destruct (resolve_subcharts fuel subchart [] st0) as [st1 [e|below]] eqn:Hbelow;
    apply IH in Hbelow as [-> Hbelow]; [by intros [= <- <-]|].
  destruct below; [done|]. by intros [= <- <-].
Qed.

Lemma resolve_subcharts_without_sources_witness :
  resolve_subcharts 2 Sample.chart_a [] Sample.unpacked
  = (Sample.unpacked, inr false)
  ∧ Sample.unpacked = Sample.unpacked
  ∧ inr false ≠ (inr true : error + bool).
Proof.
  assert (resolve_subcharts 2 Sample.chart_a [] Sample.unpacked
          = (Sample.unpacked, inr false)) as Hrun by (vm_compute; reflexivity).
  split; [exact Hrun|]. exact (resolve_subcharts_without_sources _ _ _ _ _ Hrun).
Defined.

Lemma substitute_subchart_not_a_chart recur sources updated subchart_dir entries st :
  lookup_path subchart_dir (fs st) = Some (Dir entries) →
  entries !! "Chart.yaml" = None →
  substitute_subchart recur sources updated subchart_dir st
  = (st, inl UsageError).
Proof.
  intros Hdir Hyaml. unfold substitute_subchart. rewrite bind_run.
  unfold is_dir. rewrite Hdir. simpl. rewrite bind_run.
  unfold Chart_init, resolve, exists_. rewrite bind_run.
  rewrite lookup_path_app, Hdir. simpl. rewrite Hyaml.
  by rewrite bool_decide_eq_false_2 by (by intros []).
Qed.

(** The turns of the loop of [resolve_subcharts] on other entries leave
    an entry as it is. *)
Lemma substitute_siblings fuel self sources n names : ∀ updated st st' r,
  n ∉ names →
  foldM (substitute_subchart
           (λ subchart, resolve_subcharts fuel subchart sources) sources)
        updated ((λ m, subcharts_dir self ++ [m]) <$> names) st = (st', r) →
  lookup_path (subcharts_dir self ++ [n]) (fs st')
  = lookup_path (subcharts_dir self ++ [n]) (fs st).
Proof.
  induction names as [|m names IH]; intros updated st st' r Hn; simpl.
  { by intros [= <- <-]. }
  apply not_elem_of_cons in Hn as [Hne Hn]. rewrite bind_run.
  destruct (substitute_subchart _ sources updated (subcharts_dir self ++ [m]) st)
    as [st1 [e|updated1]] eqn:Hstep;
    eapply (writes_below_substitute_subchart _ sources updated) in Hstep
      as (_ & _ & Hframe);
    try (intros subchart _; apply writes_below_resolve_subcharts).
  - intros [= <- <-]. apply Hframe. by apply independent_siblings.
  - intros Hrest. rewrite (IH _ _ _ _ Hn Hrest).
    apply Hframe. by apply independent_siblings.
Qed.

(** X9. When the subcharts directory of a chart holds a directory without
    [Chart.yaml], [substitute] on that chart fails, whatever the sources. *)
Theorem subchart_without_manifest_aborts fuel self sources file_name entries
    st st' r :
  lookup_path (subcharts_dir self ++ [file_name]) (fs st) = Some (Dir entries) →
  entries !! "Chart.yaml" = None →
  resolve_subcharts (S fuel) self sources st = (st', r) →
  ∃ e, r = inl e.
Proof.
  intros Hentry Hyaml.
  destruct (lookup_path_parent _ _ _ _ Hentry) as (subcharts & Hdir & Hn).
  rewrite (resolve_subcharts_loop _ _ _ subcharts) by done.
  assert (file_name ∈ (map_to_list subcharts).*1) as Hin.
  { apply list_elem_of_fmap. exists (file_name, Dir entries). split; [done|].
    by apply elem_of_map_to_list. }
  pose proof (NoDup_fst_map_to_list subcharts) as Hnd.
  apply list_elem_of_split in Hin as (l1 & l2 & Hsplit). rewrite Hsplit in Hnd |- *.
  apply NoDup_app in Hnd as (_ & Hl1 & _).
  rewrite fmap_app, foldM_app, bind_run.
  destruct (foldM _ false ((λ n, subcharts_dir self ++ [n]) <$> l1) st)
    as [st1 [e|updated]] eqn:Hbefore; [intros [= _ <-]; eauto|].
  rewrite fmap_cons. simpl. rewrite bind_run.
  rewrite (substitute_subchart_not_a_chart _ _ _ _ entries); [|..|done].
  - intros [= _ <-]. eauto.
  - rewrite <-Hentry. eapply substitute_siblings; [|exact Hbefore].
    intros Hin%Hl1. apply Hin. left.
Qed.

Lemma subchart_without_manifest_aborts_witness :
  lookup_path (subcharts_dir Sample.chart_a ++ ["notes"]) (fs Sample.with_notes)
  = Some (Dir {[ "README.md" := Blob ]})
  ∧ resolve_subcharts 1 Sample.chart_a [Sample.work_b] Sample.with_notes
    = (Sample.with_notes, inl UsageError)
  ∧ ∃ e, (inl UsageError : error + bool) = inl e.
Proof.
  assert (resolve_subcharts 1 Sample.chart_a [Sample.work_b] Sample.with_notes
          = (Sample.with_notes, inl UsageError)) as Hrun
    by (vm_compute; reflexivity).
  split; [reflexivity|]. split; [exact Hrun|].
  by apply (subchart_without_manifest_aborts 0 Sample.chart_a [Sample.work_b]
              "notes" {[ "README.md" := Blob ]} Sample.with_notes
              Sample.with_notes).
Defined.

(** ** Fetching with [helm] *)

Lemma move_run src dst x t1 t2 st :
  lookup_path src (fs st) = Some x →
  lookup_path dst (fs st) = None →
  independent src dst →
  fs_put false src None (fs st) = Some t1 →
  fs_put false dst (Some x) t1 = Some t2 →
  move src dst st = (set_fs t2 st, inr ()).
Proof.
  intros Hsrc Hdst [Hind _] Hput1 Hput2. unfold move.
  rewrite Hsrc, Hdst. simpl. rewrite Hdst.
  rewrite (bool_decide_eq_false_2 (is_Some None)) by (by intros []).
  rewrite (bool_decide_eq_false_2 (src `prefix_of` dst)) by done.
  rewrite !andb_false_r, Hput1. simpl.
  destruct (is_dir_node x); [|by rewrite Hput2].
  by rewrite (fs_put_false_true _ _ _ _ Hput2).
Qed.

Lemma independent_app_r d p q : independent d p → independent d (p ++ q).
Proof. intros Hind. by apply independent_sym, independent_app_l, independent_sym. Qed.

Section FetchLoop.

Variables (self : Chart) (d : path).
Hypothesis Hind : independent d (subcharts_dir self).

(** What is at the place of a fetched file is removed. *)
Lemma clear_target gd main scratch old st :
  scratch_at d main scratch (fs st) →
  lookup_path (subcharts_dir self) main = Some (Dir old) →
  ∃ cur1 main1,
    (let* present := exists_ (subcharts_dir self ++ [gd]) in
     when present (rm (subcharts_dir self ++ [gd]))) st
    = (set_fs cur1 st, inr ())
    ∧ scratch_at d main1 scratch cur1
    ∧ fs_put false (subcharts_dir self) (Some (Dir (delete gd old))) main
      = Some main1.
Proof.
  intros Hregion Hdir.
  assert (lookup_path (subcharts_dir self ++ [gd]) (fs st) = old !! gd) as Hgd.
  { rewrite (scratch_lookup_main _ _ _ _ Hregion) by (by apply independent_app_r).
    by rewrite lookup_path_app, Hdir. }
  rewrite bind_run. unfold exists_. rewrite Hgd.
  destruct (old !! gd) as [x|] eqn:Hx.
  - rewrite bool_decide_eq_true_2 by eauto. simpl.
    destruct (fs_put_None_is_Some (subcharts_dir self ++ [gd]) (fs st))
      as [cur1 Hput]; [by destruct (subcharts_dir self)|by rewrite Hgd|].
    destruct (scratch_put_main _ _ _ _ Hregion _ _ _
                (independent_app_r _ _ [gd] Hind) Hput)
      as (main1 & Hmain1 & Hregion1).
    exists cur1, main1. split; [|split; [done|]].
    + apply rm_run; [by rewrite Hgd|done].
    + rewrite (fs_put_entry _ _ _ _ _ _ Hdir) in Hmain1. exact Hmain1.
  - rewrite bool_decide_eq_false_2 by (by intros []). simpl.
    exists (fs st), main. rewrite set_fs_same. split; [done|]. split; [done|].
    rewrite delete_id by done. by apply fs_put_lookup.
Qed.

(** The loop of [get_dependencies_with_helm]: the files that [helm] has
    left are moved into the subcharts directory, over what is there. *)
Lemma fetch_loop names : ∀ main scratch rest old st,
  scratch_at d main scratch (fs st) →
  scratch !! "charts" = Some (Dir rest) →
  lookup_path (subcharts_dir self) main = Some (Dir old) →
  NoDup names →
  (∀ n, n ∈ names ↔ is_Some (rest !! n)) →
  ∃ scratch' cur' main',
    forM (λ gd,
            makedirs (subcharts_dir self);;
            let old_path := d ++ ["charts"; gd] in
            let new_path := subcharts_dir self ++ [gd] in
            let* present := exists_ new_path in
            when present (rm new_path);;
            move old_path new_path)
         names st
    = (set_fs cur' st, inr ())
    ∧ scratch_at d main' scratch' cur'
    ∧ fs_put false (subcharts_dir self) (Some (Dir (rest ∪ old))) main
      = Some main'.
Proof.
  induction names as [|gd names IH]; intros main scratch rest old st
    Hregion Hcharts Hdir Hnd Hnames.
  - exists scratch, (fs st), main. rewrite set_fs_same. split; [done|].
    split; [done|].
    assert (rest = ∅) as ->.
    { apply map_empty. intros n. apply eq_None_not_Some. rewrite <-Hnames.
      apply not_elem_of_nil. }
    rewrite (left_id_L ∅ (∪)). by apply fs_put_lookup.
  - apply NoDup_cons in Hnd as [Hgd Hnd].
    destruct (proj1 (Hnames gd)) as [x Hx]; [left|].
    rewrite forM_cons, bind_run, bind_run.
    rewrite makedirs_present
      by (by rewrite (scratch_lookup_main _ _ _ _ Hregion), Hdir).
    cbv zeta.
    destruct (clear_target gd main scratch old st Hregion Hdir)
      as (cur1 & main1 & Hclear & Hregion1 & Hmain1).
    rewrite bind_run in Hclear. rewrite bind_run.
    destruct (exists_ (subcharts_dir self ++ [gd]) st) as [st0 [e|present]];
      [done|]. rewrite bind_run, Hclear.
    pose proof (lookup_fs_put _ _ _ _ _ Hmain1) as Hdir1.
    set (scratch2 := partial_alter
           (λ _, Some (Dir (partial_alter (λ _, None) gd rest))) "charts" scratch).
    destruct (scratch_put d main1 scratch cur1 Hregion1 false ["charts"; gd]
                None scratch2) as (cur2 & Hput2 & Hregion2).
    { simpl. by rewrite Hcharts. }
    assert (lookup_path (subcharts_dir self) cur2 = Some (Dir (delete gd old)))
      as Hdir2 by (by rewrite (scratch_lookup_main _ _ _ _ Hregion2)).
    destruct (fs_put_is_Some false (subcharts_dir self)
                (Dir (partial_alter (λ _, Some x) gd (delete gd old))) cur2)
      as [cur3 Hput3]; [by rewrite Hdir2|].
    rewrite <-(fs_put_entry _ _ _ _ _ _ Hdir2) in Hput3.
    destruct (scratch_put_main _ _ _ _ Hregion2 _ _ _
                (independent_app_r _ _ [gd] Hind) Hput3)
      as (main2 & Hmain2 & Hregion3).
    rewrite (move_run _ _ x cur2 cur3); [|simpl..].
    2:{ rewrite (scratch_lookup _ _ _ _ Hregion1). simpl. by rewrite Hcharts. }
    2:{ rewrite (scratch_lookup_main _ _ _ _ Hregion1)
          by (by apply independent_app_r).
        by rewrite lookup_path_app, Hdir1; simpl; rewrite lookup_delete_eq. }
    2:{ by apply (independent_app_l d _ ["charts"; gd]), independent_app_r. }
    2:{ done. }
    2:{ done. }
    rewrite (fs_put_entry _ _ _ _ _ _ Hdir1) in Hmain2.
    rewrite (fs_put_fs_put _ _ _ _ _ _ Hmain1) in Hmain2.
    destruct (IH main2 scratch2 (delete gd rest) (<[gd := x]> old)
                (set_fs cur3 (set_fs cur1 st)))
      as (scratch' & cur' & main' & Hrun & Hregion' & Hmain'); try done.
    { apply lookup_partial_alter_eq. }
    { rewrite (lookup_fs_put _ _ _ _ _ Hmain2). do 2 f_equal.
      exact (insert_delete_eq _ _ _). }
    { intros n. destruct (decide (n = gd)) as [->|Hne].
      - rewrite lookup_delete_eq. split; [done|by intros []].
      - rewrite lookup_delete_ne by done. rewrite <-Hnames.
        rewrite elem_of_cons. naive_solver. }
    exists scratch', cur', main'. split; [exact Hrun|]. split; [done|].
    rewrite (fs_put_fs_put _ _ _ _ _ _ Hmain2) in Hmain'. rewrite <-Hmain'.
    do 3 f_equal. apply map_eq. intros n. rewrite !lookup_union.
    destruct (decide (n = gd)) as [->|Hne].
    + by rewrite lookup_delete_eq, lookup_insert_eq, Hx; destruct (old !! gd).
    + by rewrite lookup_delete_ne, lookup_insert_ne.
Qed.

End FetchLoop.

Lemma elements_listing (charts : gmap string node) (n : string) :
  n ∈ elements (list_to_set (map_to_list charts).*1 : gset string)
  ↔ is_Some (charts !! n).
Proof.
  rewrite elem_of_elements, elem_of_list_to_set, list_elem_of_fmap. split.
  - intros ([n' x] & -> & Hx%elem_of_map_to_list). eauto.
  - intros [x Hx]. exists (n, x). split; [done|]. by apply elem_of_map_to_list.
Qed.

Section Fetch.

Context `{Helm}.
Variables (self : Chart) (deps : list Dependency) (st : state).
Variables (tmp_entries old : gmap string node).
Hypothesis Htmp : lookup_path tmp_root (fs st) = Some (Dir tmp_entries).
Hypothesis Hdir : lookup_path (subcharts_dir self) (fs st) = Some (Dir old).

(** [helm] brings files: they are in the subcharts directory, over what
    was there under their names, and the temporary directory is gone. *)
Lemma get_dependencies_with_helm_run charts :
  call_helm_dependency_update (experimental_oci st)
    {| m_name := m_name (index self); m_version := m_version (index self);
       m_dependencies := deps |} = Some charts →
  ∃ t,
    get_dependencies_with_helm self deps st
    = ({| fs := t; experimental_oci := experimental_oci st;
          trace := trace st ++ [EvFetch deps] |},
       inr (list_to_set (map_to_list charts).*1))
    ∧ fs_put false (subcharts_dir self) (Some (Dir (charts ∪ old))) (fs st)
      = Some t.
Proof.
  intros Hhelm.
  pose proof (mkdtemp_run _ _ Htmp) as Hmk. cbv zeta in Hmk.
  remember (tmp_root ++ [fresh_string "tmp" tmp_entries]) as d eqn:Hd.
  destruct Hmk as (Hfresh & cur0 & Hmkdtemp & Hregion0).
  assert (independent d (subcharts_dir self)) as Hind.
  { rewrite Hd in Hfresh |- *.
    apply (independent_tmp _ _ (fs st)); [done|by rewrite Hdir|..];
      apply (subcharts_dir_not_tmp self ""). }
  set (content := {| m_name := m_name (index self);
                     m_version := m_version (index self);
                     m_dependencies := deps |}) in *.
  set (scratch1 := partial_alter (λ _, Some (Yaml content)) "Chart.yaml"
                     (∅ : gmap string node)).
  destruct (scratch_put d (fs st) ∅ cur0 Hregion0 false ["Chart.yaml"]
              (Some (Yaml content)) scratch1) as (cur1 & Hput1 & Hregion1);
    [done|].
  set (scratch2 := partial_alter (λ _, Some (Dir charts)) "charts" scratch1).
  destruct (scratch_put d (fs st) scratch1 cur1 Hregion1 false ["charts"]
              (Some (Dir charts)) scratch2) as (cur2 & Hput2 & Hregion2);
    [done|].
  set (st2 := {| fs := cur2; experimental_oci := experimental_oci st;
                 trace := trace st ++ [EvFetch deps] |}).
  assert (scratch2 !! "charts" = Some (Dir charts)) as Hcharts
    by apply lookup_partial_alter_eq.
  destruct (fetch_loop self d Hind
              (elements (list_to_set (map_to_list charts).*1 : gset string))
              (fs st) scratch2 charts old st2 Hregion2 Hcharts Hdir
              (NoDup_elements _) (elements_listing charts))
    as (scratch' & cur' & main' & Hloop & Hregion' & Hmain').
  exists main'. split; [|done].
  unfold get_dependencies_with_helm, tempdir. fold content.
  rewrite bind_run, Hmkdtemp.
  rewrite bind_run. unfold write at 1. simpl. rewrite Hput1.
  rewrite bind_run. unfold emit at 1. simpl.
  rewrite bind_run. simpl. rewrite Hhelm. unfold write at 1. simpl.
  rewrite Hput2. change (set_fs cur2 _) with st2.
  rewrite bind_run. unfold listdir at 1.
  assert (lookup_path ((d ++ ["charts"])) (fs st2) = Some (Dir charts)) as ->.
  { simpl. rewrite (scratch_lookup _ _ _ _ Hregion2). simpl.
    by apply lookup_partial_alter_eq. }
  rewrite bind_run.
  change (λ gd : string, makedirs (subcharts_dir self);; _) with
    (λ gd, makedirs (subcharts_dir self);;
           let old_path := d ++ ["charts"; gd] in
           let new_path := subcharts_dir self ++ [gd] in
           let* present := exists_ new_path in
           when present (rm new_path);;
           move old_path new_path).
  rewrite Hloop. simpl.
  rewrite (rm_run d main').
  - done.
  - simpl. rewrite (lookup_fs_put _ _ _ _ _ Hregion'). eauto.
  - simpl. apply (scratch_remove _ _ _ _ Hregion').
    rewrite <-Hfresh. eapply lookup_fs_put_independent; [|exact Hmain'].
    by apply independent_sym.
Qed.

(** [helm] fails: the temporary directory is gone, and that is all. *)
Lemma get_dependencies_with_helm_fails :
  call_helm_dependency_update (experimental_oci st)
    {| m_name := m_name (index self); m_version := m_version (index self);
       m_dependencies := deps |} = None →
  get_dependencies_with_helm self deps st
  = (set_trace (trace st ++ [EvFetch deps]) st, inl CalledProcessError).
Proof.
  intros Hhelm.
  pose proof (mkdtemp_run _ _ Htmp) as Hmk. cbv zeta in Hmk.
  remember (tmp_root ++ [fresh_string "tmp" tmp_entries]) as d eqn:Hd.
  destruct Hmk as (Hfresh & cur0 & Hmkdtemp & Hregion0).
  set (content := {| m_name := m_name (index self);
                     m_version := m_version (index self);
                     m_dependencies := deps |}) in *.
  set (scratch1 := partial_alter (λ _, Some (Yaml content)) "Chart.yaml"
                     (∅ : gmap string node)).
  destruct (scratch_put d (fs st) ∅ cur0 Hregion0 false ["Chart.yaml"]
              (Some (Yaml content)) scratch1) as (cur1 & Hput1 & Hregion1);
    [done|].
  unfold get_dependencies_with_helm, tempdir. fold content.
  rewrite bind_run, Hmkdtemp.
  rewrite bind_run. unfold write at 1. simpl. rewrite Hput1.
  rewrite bind_run. unfold emit at 1. simpl.
  rewrite bind_run. simpl. rewrite Hhelm.
  rewrite (rm_run d (fs st)).
  - done.
  - simpl. rewrite (lookup_fs_put _ _ _ _ _ Hregion1). eauto.
  - simpl. by apply (scratch_remove _ _ _ _ Hregion1).
Qed.

End Fetch.



(** ** The resolver on dependencies without sources *)

Section FirstLoopWithoutSources.

Context `{Helm}.
Variables (recur : Chart → M bool) (self : Chart) (sources : list Chart).
Variable st : state.

Lemma collect_without_force deps : ∀ to_fetch to_resolve updated,
  (∀ d, d ∈ deps → candidates (compute_name d) sources = []) →
  foldM (resolve_dependency recur self sources false)
        (to_fetch, to_resolve, updated) deps st
  = (st, inr (to_fetch ++ filter (λ d, ¬ in_place self st d) deps,
              to_resolve
              ∪ list_to_set (archive_path self <$> filter (in_place self st) deps),
              updated)).
Proof.
  induction deps as [|d deps IH]; intros to_fetch to_resolve updated Hnone;
    cbn [foldM].
  - rewrite !filter_nil. simpl.
    by rewrite (right_id_L [] (++)), (right_id_L ∅ (∪)).
  - rewrite bind_run, resolve_dependency_no_source by (apply Hnone; left).
    fold (in_place self st d). case_bool_decide as Hd.
    + rewrite IH by (intros d' Hd'; apply Hnone; by right).
      rewrite filter_cons_False by (by intros []).
      rewrite (filter_cons_True (in_place self st)) by done.
      by rewrite fmap_cons, list_to_set_cons, (assoc_L (∪)).
    + rewrite IH by (intros d' Hd'; apply Hnone; by right).
      rewrite filter_cons_True by done.
      rewrite (filter_cons_False (in_place self st)) by done.
      by rewrite <-(assoc_L (++)).
Qed.

Lemma collect_with_force deps : ∀ to_fetch to_resolve updated,
  (∀ d, d ∈ deps → candidates (compute_name d) sources = []) →
  foldM (resolve_dependency recur self sources true)
        (to_fetch, to_resolve, updated) deps st
  = (st, inr (to_fetch ++ deps, to_resolve, updated)).
Proof.
  induction deps as [|d deps IH]; intros to_fetch to_resolve updated Hnone;
    cbn [foldM].
  - by rewrite (right_id_L [] (++)).
  - rewrite bind_run, resolve_dependency_no_source by (apply Hnone; left).
    rewrite IH by (intros d' Hd'; apply Hnone; by right).
    by rewrite <-(assoc_L (++)).
Qed.

(** What the first loop makes of dependencies that have no source. *)
Lemma collect_no_candidates force :
  (∀ d, d ∈ dependencies self → candidates (compute_name d) sources = []) →
  collect_dependencies recur self sources force st
  = (st, inr (if force then dependencies self
              else filter (λ d, ¬ in_place self st d) (dependencies self),
              if force then ∅
              else list_to_set
                     (archive_path self
                        <$> filter (in_place self st) (dependencies self)),
              false)).
Proof.
  intros Hnone. unfold collect_dependencies. destruct force.
  - by rewrite collect_with_force.
  - rewrite collect_without_force by done. by rewrite (left_id_L ∅ (∪)).
Qed.

End FirstLoopWithoutSources.

Lemma filter_all {A} (P : A → Prop) `{∀ x, Decision (P x)} (l : list A) :
  (∀ x, x ∈ l → P x) → filter P l = l.
Proof.
  induction l as [|x l IH]; intros Hl; [done|].
  rewrite filter_cons_True by (apply Hl; left).
  rewrite IH; [done|]. intros y Hy. apply Hl. by right.
Qed.

Lemma batch_forced self st : batch self true st = dependencies self.
Proof. unfold batch. apply filter_all. by left. Qed.

Lemma batch_not_forced self st :
  batch self false st = filter (λ d, ¬ in_place self st d) (dependencies self).
Proof.
  unfold batch. apply list_filter_iff. intros d.
  split; [by intros [[=]|]|by right].
Qed.

Lemma collect_batch `{Helm} recur self sources force st :
  (∀ d, d ∈ dependencies self → candidates (compute_name d) sources = []) →
  collect_dependencies recur self sources force st
  = (st, inr (batch self force st,
              if force then ∅
              else list_to_set
                     (archive_path self
                        <$> filter (in_place self st) (dependencies self)),
              false)).
Proof.
  intros Hnone. rewrite collect_no_candidates by done.
  destruct force; by rewrite ?batch_forced, ?batch_not_forced.
Qed.

(** X11. When no dependency has a source, the first loop of [resolve]
    changes nothing, whatever the recursive call would do: it leaves to
    [helm], in the order of the manifest, all the dependencies with the force
    flag, and else those whose archive is missing; the archives to look into
    are, without the force flag, those of the dependencies in place; and
    [updated] is not set. *)
Theorem first_loop_sorts_dependencies `{Helm} recur self sources force st :
  (∀ d, d ∈ dependencies self → candidates (compute_name d) sources = []) →
  ∃ to_fetch to_resolve,
    collect_dependencies recur self sources force st
    = (st, inr (to_fetch, to_resolve, false))
    ∧ to_fetch
      = filter (λ d, force = true ∨ ¬ in_place self st d) (dependencies self)
    ∧ ∀ p, p ∈ to_resolve
           ↔ force = false
             ∧ ∃ d, d ∈ dependencies self ∧ in_place self st d
                    ∧ p = archive_path self d.
Proof.
  intros Hnone. rewrite collect_no_candidates by done.
  eexists _, _. split; [reflexivity|]. destruct force.
  - split.
    + symmetry. clear Hnone.
      induction (dependencies self) as [|d l IH]; [done|].
      rewrite filter_cons_True by (by left). by rewrite IH.
    + intros p. split; [set_solver|]. by intros [[=] _].
  - split.
    + apply list_filter_iff. intros d. split; [by right|by intros [[=]|]].
    + intros p. rewrite elem_of_list_to_set, list_elem_of_fmap. split.
      * intros (d & -> & [Hplace Hd]%list_elem_of_filter). eauto.
      * intros (_ & d & Hd & Hplace & ->). exists d. split; [done|].
        by apply list_elem_of_filter.
Qed.

Lemma first_loop_sorts_dependencies_witness :
  (∀ d, d ∈ dependencies Sample.app → candidates (compute_name d) [] = [])
  ∧ ∃ to_fetch to_resolve,
      collect_dependencies (H := Sample.helm) (λ _, raise RecursionError)
        Sample.app [] false Sample.start
      = (Sample.start, inr (to_fetch, to_resolve, false))
      ∧ to_fetch
        = filter (λ d, false = true ∨ ¬ in_place Sample.app Sample.start d)
            (dependencies Sample.app).
Proof.
  split; [done|].
  destruct (first_loop_sorts_dependencies (H := Sample.helm)
              (λ _, raise RecursionError) Sample.app [] false Sample.start)
    as (to_fetch & to_resolve & Hrun & Hfetch & _); [done|].
  by exists to_fetch, to_resolve.
Defined.

Lemma get_put_prefix parents q x p : ∀ o cur r es,
  put parents (q ++ x :: p) o cur = Some r →
  get q cur = Some (Dir es) →
  ∃ es', get q r = Some (Dir es').
Proof.
  induction q as [|y q IH]; intros o cur r es Hput Hget.
  - simpl in Hget. subst cur. simpl in Hput.
    destruct (put parents p o (es !! x)); [|done]. injection Hput as <-.
    simpl. eauto.
  - simpl in Hget, Hput. destruct cur as [[| | |es0]|]; try done.
    destruct (put parents (q ++ x :: p) o (es0 !! y)) as [r'|] eqn:E; [|done].
    injection Hput as <-. simpl. rewrite lookup_partial_alter_eq. eauto.
Qed.

(** The temporary directory is still there after a write in a subcharts
    directory, be it below it. *)
Lemma tmp_root_stays self x t t' tmp_entries :
  lookup_path tmp_root t = Some (Dir tmp_entries) →
  fs_put false (subcharts_dir self) (Some x) t = Some t' →
  ∃ tmp_entries', lookup_path tmp_root t' = Some (Dir tmp_entries').
Proof.
  intros Htmp Hput.
  destruct (subcharts_dir self) as [|y [|z p]] eqn:Hdir.
  - by destruct (subcharts_dir_not_tmp self "") as [? _].
  - destruct (decide (y = "tmp")) as [->|Hne].
    + by destruct (subcharts_dir_not_tmp self "") as (_ & ? & _).
    + exists tmp_entries. rewrite <-Htmp.
      eapply lookup_fs_put_independent; [|exact Hput].
      split; intros [k [=]]; congruence.
  - destruct (decide (y = "tmp")) as [->|Hne].
    + unfold fs_put, lookup_path in *.
      destruct (put false ("tmp" :: z :: p) (Some x) (Some t)) as [[r|]|] eqn:E;
        try done.
      injection Hput as <-.
      by apply (get_put_prefix false ["tmp"] z p _ _ _ tmp_entries) in E.
    + exists tmp_entries. rewrite <-Htmp.
      eapply lookup_fs_put_independent; [|exact Hput].
      split; intros [k [=]]; congruence.
Qed.

Lemma makedirs_in_place self st st0 d :
  makedirs (subcharts_dir self) st = (st0, inr ()) →
  in_place self st0 d ↔ in_place self st d.
Proof.
  unfold makedirs, exists_, in_place, archive_path. rewrite bind_run.
  case_bool_decide as Hdir; [by intros [= <-]|].
  unfold write. destruct (fs_put _ _ _ _) as [t|] eqn:Hput; [|done].
  intros [= <-]. simpl. rewrite !lookup_path_app, (lookup_fs_put _ _ _ _ _ Hput).
  destruct (lookup_path (subcharts_dir self) (fs st)); [destruct Hdir; eauto|].
  simpl. rewrite lookup_empty. split; by intros [].
Qed.

(** [makedirs] on the subcharts directory of a chart that is a directory:
    nothing when something is there, else the directory, empty. *)
Lemma makedirs_subcharts_dir self entries st :
  lookup_path (location self) (fs st) = Some (Dir entries) →
  ∃ t, makedirs (subcharts_dir self) st = (set_fs t st, inr ())
       ∧ fs_put false (subcharts_dir self)
           (Some (default (Dir ∅) (entries !! "charts"))) (fs st) = Some t
       ∧ lookup_path (subcharts_dir self) t
         = Some (default (Dir ∅) (entries !! "charts")).
Proof.
  intros Hself. unfold makedirs, exists_. rewrite bind_run.
  assert (lookup_path (subcharts_dir self) (fs st) = entries !! "charts") as Hdir.
  { unfold subcharts_dir. by rewrite lookup_path_app, Hself. }
  rewrite Hdir. destruct (entries !! "charts") as [x|] eqn:Hcharts.
  - rewrite bool_decide_eq_true_2 by eauto. simpl. exists (fs st).
    rewrite set_fs_same. split; [done|]. split; [|done]. by apply fs_put_lookup.
  - rewrite bool_decide_eq_false_2 by (by intros []). simpl.
    destruct (fs_put_is_Some false (location self)
                (Dir (partial_alter (λ _, Some (Dir ∅)) "charts" entries)) (fs st))
      as [t Ht]; [by rewrite Hself|].
    rewrite <-(fs_put_entry _ _ _ _ _ _ Hself) in Ht.
    exists t. unfold write. fold (subcharts_dir self) in Ht.
    rewrite (fs_put_false_true _ _ _ _ Ht). split; [done|]. split; [done|].
    by apply lookup_fs_put in Ht.
Qed.

Lemma batch_makedirs self force st st0 :
  makedirs (subcharts_dir self) st = (st0, inr ()) →
  batch self force st0 = batch self force st.
Proof.
  intros Hmk. unfold batch. apply list_filter_iff. intros d.
  by rewrite (makedirs_in_place self st st0 d Hmk).
Qed.

(** A call on a chart with dependencies goes on from the state that
    [makedirs] leaves as if it had been called there. *)
Lemma update_dependencies_makedirs `{Helm} fuel self sources force st st0 :
  dependencies self ≠ [] →
  makedirs (subcharts_dir self) st = (st0, inr ()) →
  is_Some (lookup_path (subcharts_dir self) (fs st0)) →
  update_dependencies (S fuel) self sources force st
  = update_dependencies (S fuel) self sources force st0.
Proof.
  intros Hdeps Hmk Hdir. rewrite !update_dependencies_S, !bind_run.
  rewrite bool_decide_eq_true_2 by done. unfold when.
  by rewrite Hmk, makedirs_present.
Qed.

Lemma batch_dependencies self force st :
  batch self force st ≠ [] → dependencies self ≠ [].
Proof. unfold batch. intros Hbatch Hdeps. by rewrite Hdeps in Hbatch. Qed.

(** X12. On a chart whose directory exists, [/tmp] being a directory:
    when no dependency has a source and [helm] fails on the dependencies to
    fetch, [resolve] fails with the error of the command, the call of the
    fetcher being on the trace and no temporary directory left. The file
    system is as it was when the subcharts directory was there; when it was
    missing, it has been made, empty, and that is the one change. *)
Theorem failed_fetch_changes_nothing `{Helm} fuel self sources force st
    tmp_entries entries :
  (∀ d, d ∈ dependencies self → candidates (compute_name d) sources = []) →
  batch self force st ≠ [] →
  lookup_path tmp_root (fs st) = Some (Dir tmp_entries) →
  lookup_path (location self) (fs st) = Some (Dir entries) →
  call_helm_dependency_update (experimental_oci st)
    (chart_to_update self (batch self force st)) = None →
  ∃ t,
    update_dependencies (S fuel) self sources force st
    = ({| fs := t; experimental_oci := experimental_oci st;
          trace := trace st ++ [EvFetch (batch self force st)] |},
       inl CalledProcessError)
    ∧ (is_Some (entries !! "charts") → t = fs st)
    ∧ (entries !! "charts" = None →
       fs_put false (subcharts_dir self) (Some (Dir ∅)) (fs st) = Some t).
Proof.
  intros Hnone Hbatch Htmp Hself Hhelm.
  destruct (makedirs_subcharts_dir self entries st Hself)
    as (t & Hmk & Ht & Hdir).
  destruct (tmp_root_stays self _ _ _ _ Htmp Ht) as [tmp_entries' Htmp'].
  pose proof (batch_makedirs self force _ _ Hmk) as Hsame.
  exists t. split; [|split].
  - rewrite update_dependencies_S, bind_run.
    rewrite bool_decide_eq_true_2 by (by eapply batch_dependencies).
    unfold when. rewrite Hmk, bind_run, collect_batch by done.
    unfold fetch_and_substitute. rewrite bind_run, Hsame.
    destruct (batch self force st) as [|d0 to_fetch] eqn:E; [done|].
    by rewrite (get_dependencies_with_helm_fails self _ (set_fs t st)
                  tmp_entries').
  - intros [x Hx]. rewrite Hx in Ht. simpl in Ht.
    assert (lookup_path (subcharts_dir self) (fs st) = Some x) as Hlook.
    { unfold subcharts_dir. by rewrite lookup_path_app, Hself. }
    rewrite (fs_put_lookup _ _ _ _ Hlook) in Ht. congruence.
  - intros Hx. by rewrite Hx in Ht.
Qed.

Lemma failed_fetch_changes_nothing_witness :
  batch Sample.web false Sample.web_start = [Sample.foo_dependency]
  ∧ lookup_path tmp_root (fs Sample.web_start) = Some (Dir ∅)
  ∧ lookup_path ["web"; "charts"] (fs Sample.web_start) = None
  ∧ update_dependencies (H := Sample.helm) 1 Sample.web [] false
      Sample.web_start
    = (set_trace [EvFetch [Sample.foo_dependency]] Sample.web_resolving,
       inl CalledProcessError)
  ∧ update_dependencies (H := Sample.helm) 1 Sample.web [] false
      Sample.web_resolving
    = (set_trace [EvFetch [Sample.foo_dependency]] Sample.web_resolving,
       inl CalledProcessError).
Proof.
  assert (batch Sample.web false Sample.web_start
          = [Sample.foo_dependency]) as Hbatch by (vm_compute; reflexivity).
  assert (batch Sample.web false Sample.web_resolving
          = [Sample.foo_dependency]) as Hbatch' by (vm_compute; reflexivity).
  split; [exact Hbatch|]. split; [reflexivity|]. split; [reflexivity|]. split.
  - destruct (failed_fetch_changes_nothing (H := Sample.helm) 0 Sample.web []
                false Sample.web_start ∅
                (<["Chart.yaml" := Yaml Sample.web_0_1]> ∅))
      as (t & Hrun & _ & Hnew);
      [done|by rewrite Hbatch|reflexivity|reflexivity|by rewrite Hbatch|].
    specialize (Hnew eq_refl). vm_compute in Hnew. injection Hnew as <-.
    rewrite Hrun, Hbatch. reflexivity.
  - destruct (failed_fetch_changes_nothing (H := Sample.helm) 0 Sample.web []
                false Sample.web_resolving ∅
                (<["Chart.yaml" := Yaml Sample.web_0_1]> {[ "charts" := Dir ∅ ]}))
      as (t & Hrun & Hsame & _);
      [done|by rewrite Hbatch'|reflexivity|reflexivity|by rewrite Hbatch'|].
    rewrite Hrun, Hbatch', Hsame; [reflexivity|]. by eexists.
Defined.

Lemma resolve_archive_by_name substitute `{Helm} self d f st :
  resolve_archive substitute self d (inl f) st
  = resolve_archive substitute self d (inr (subcharts_dir self ++ [f])) st.
Proof. unfold resolve_archive, joinpath, item_name. by rewrite basename_snoc. Qed.

Lemma resolve_archives_by_name substitute `{Helm} self d items : ∀ st,
  forM (resolve_archive substitute self d) items st
  = forM (resolve_archive substitute self d)
         (inr ∘ joinpath (subcharts_dir self) <$> items) st.
Proof.
  induction items as [|item items IH]; intros st; [done|].
  rewrite fmap_cons, !forM_cons, !bind_run.
  assert (resolve_archive substitute self d item st
          = resolve_archive substitute self d
              ((inr ∘ joinpath (subcharts_dir self)) item) st) as ->.
  { destruct item as [f|p]; [apply resolve_archive_by_name|done]. }
  destruct (resolve_archive _ _ _ _ st) as [st1 [e|[]]]; [done|]. apply IH.
Qed.

(** The call on a chart whose subcharts directory is there, when [helm]
    brings files and nothing is to be substituted. *)
Lemma fetch_into_subcharts_dir `{Helm} k fuel self sources force st
    tmp_entries old charts :
  (∀ d, d ∈ dependencies self → candidates (compute_name d) sources = []) →
  batch self force st ≠ [] →
  lookup_path tmp_root (fs st) = Some (Dir tmp_entries) →
  lookup_path (subcharts_dir self) (fs st) = Some (Dir old) →
  call_helm_dependency_update (experimental_oci st)
    (chart_to_update self (batch self force st)) = Some charts →
  (∀ file_name,
     is_Some (charts !! file_name)
     ∨ (force = false
        ∧ ∃ d, d ∈ dependencies self ∧ in_place self st d
               ∧ file_name = compute_name d +:+ ".tgz") →
     settled_archive k sources ((charts ∪ old) !! file_name) = true) →
  k < fuel →
  ∃ t updated,
    update_dependencies (S (S fuel)) self sources force st
    = ({| fs := t; experimental_oci := experimental_oci st;
          trace := trace st ++ [EvFetch (batch self force st)] |},
       inr updated)
    ∧ fs_put false (subcharts_dir self) (Some (Dir (charts ∪ old))) (fs st)
      = Some t
    ∧ (updated = true
       ↔ charts ≠ ∅
         ∨ (force = false ∧ ∃ d, d ∈ dependencies self ∧ in_place self st d)).
Proof.
  intros Hnone Hbatch Htmp Hdir Hhelm Hsettled Hfuel.
  destruct (get_dependencies_with_helm_run self (batch self force st) st
              tmp_entries old Htmp Hdir charts Hhelm) as (t & Hfetch & Ht).
  set (st1 := {| fs := t; experimental_oci := experimental_oci st;
                 trace := trace st ++ [EvFetch (batch self force st)] |}) in *.
  set (generated := list_to_set (map_to_list charts).*1 : gset string) in *.
  set (to_resolve := if force then (∅ : gset path)
                     else list_to_set
                            (archive_path self
                               <$> filter (in_place self st) (dependencies self))).
  assert (∀ f, f ∈ generated ↔ is_Some (charts !! f)) as Hgenerated.
  { intros f. unfold generated. by rewrite <-elements_listing, elem_of_elements. }
  assert (∀ p, p ∈ to_resolve
               ↔ force = false
                 ∧ ∃ d, d ∈ dependencies self ∧ in_place self st d
                        ∧ p = archive_path self d) as Hto_resolve.
  { intros p. unfold to_resolve. destruct force.
    - split; [set_solver|]. by intros [[=] _].
    - rewrite elem_of_list_to_set, list_elem_of_fmap. split.
      + intros (d & -> & [Hplace Hd]%list_elem_of_filter). eauto.
      + intros (_ & d & Hd & Hplace & ->). exists d. split; [done|].
        by apply list_elem_of_filter. }
  assert ((generated ≠ ∅ ∨ to_resolve ≠ ∅)
          ↔ charts ≠ ∅
            ∨ (force = false ∧ ∃ d, d ∈ dependencies self ∧ in_place self st d))
    as Hsome.
  { split.
    - intros [Hg|Hr].
      + left. intros ->. apply Hg. apply set_eq. intros f.
        rewrite Hgenerated, lookup_empty. split; [by intros []|set_solver].
      + right. apply set_choose_L in Hr as [p Hp].
        apply Hto_resolve in Hp as (-> & d & Hd & Hplace & _). eauto.
    - intros [Hc|(Hforce & d & Hd & Hplace)].
      + left. intros Hg. apply Hc. apply map_empty. intros f.
        apply eq_None_not_Some. rewrite <-Hgenerated, Hg. set_solver.
      + right. intros Hr. assert (archive_path self d ∈ to_resolve) as Hin.
        { apply Hto_resolve. eauto. }
        rewrite Hr in Hin. set_solver. }
  exists t, (bool_decide (generated ≠ ∅ ∨ to_resolve ≠ ∅)).
  split; [|split; [done|by rewrite bool_decide_eq_true]].
  rewrite update_dependencies_S, bind_run.
  assert (when (bool_decide (dependencies self ≠ []))
            (makedirs (subcharts_dir self)) st = (st, inr ())) as ->.
  { unfold when. case_bool_decide; [|done].
    apply makedirs_present. by rewrite Hdir. }
  rewrite bind_run, collect_batch by done. fold to_resolve.
  unfold fetch_and_substitute. rewrite bind_run.
  destruct (batch self force st) as [|d0 to_fetch] eqn:E; [done|].
  rewrite Hfetch. fold generated.
  case_bool_decide as Hany; [|done].
  set (items := elements (set_map inl generated ∪ set_map inr to_resolve
                          : gset (string + path))).
  assert (∀ item, item ∈ items →
            ∃ f, joinpath (subcharts_dir self) item = subcharts_dir self ++ [f]
                 ∧ settled_archive k sources ((charts ∪ old) !! f) = true)
    as Hitems.
  { intros item [Hitem|Hitem]%elem_of_elements%elem_of_union.
    - apply elem_of_map in Hitem as (f & -> & Hf). exists f. split; [done|].
      apply Hsettled. left. by apply Hgenerated.
    - apply elem_of_map in Hitem as (p & -> & Hp).
      apply Hto_resolve in Hp as (Hforce & d & Hd & Hplace & ->).
      exists (compute_name d +:+ ".tgz"). split; [done|].
      apply Hsettled. right. eauto. }
  destruct (tmp_root_stays self _ _ _ _ Htmp Ht) as [tmp_entries' Htmp'].
  pose proof (mkdtemp_run tmp_entries' st1 Htmp') as Hmk. cbv zeta in Hmk.
  remember (tmp_root ++ [fresh_string "tmp" tmp_entries']) as d eqn:Hd.
  destruct Hmk as (Hfresh & cur0 & Hmkdtemp & Hregion0).
  rewrite bind_run. unfold tempdir. rewrite bind_run, Hmkdtemp.
  rewrite resolve_archives_by_name.
  destruct (resolve_archives_settled sources fuel k self d Hfuel
              (inr ∘ joinpath (subcharts_dir self) <$> items)
              t ∅ (set_fs cur0 st1) Hregion0)
    as (scratch' & cur' & Hrun & Hregion').
  { intros item' (item & -> & Hitem)%list_elem_of_fmap.
    destruct (Hitems item Hitem) as (f & Hpath & Hf).
    exists (subcharts_dir self ++ [f]). simpl. rewrite Hpath. split; [done|].
    assert (lookup_path (subcharts_dir self ++ [f]) t = (charts ∪ old) !! f)
      as Hlook by (by rewrite lookup_path_app, (lookup_fs_put _ _ _ _ _ Ht)).
    rewrite Hlook. split; [|done]. rewrite Hd in Hfresh |- *.
    apply (independent_tmp _ _ t); [done| |apply (subcharts_dir_not_tmp self)..].
    rewrite Hlook. apply settled_archive_inv in Hf as (? & ? & ? & ? & -> & _).
    eauto. }
  simpl in Hrun. rewrite Hrun.
  rewrite (rm_run d t).
  - done.
  - simpl. rewrite (lookup_fs_put _ _ _ _ _ Hregion'). eauto.
  - simpl. by apply (scratch_remove _ _ _ _ Hregion').
Qed.

(** X13. On a chart whose directory exists, the subcharts directory being
    a directory or missing and [/tmp] a directory: let no dependency have a
    source, and let [helm] bring files for the dependencies to fetch, each of
    these files and, without the force flag, each archive in place being an
    archive of one chart directory in which nothing is to be substituted.
    Then [resolve] calls the fetcher once, and leaves the file system as it
    was but for the subcharts directory, made if it was missing, where the
    files fetched are in the place of what was there under their names. It
    returns true when [helm] has brought a file or, without the force flag,
    an archive was in place, and false otherwise: with the force flag, when
    [helm] brings nothing, it returns false whatever is in place. *)
Theorem missing_dependencies_are_fetched `{Helm} k fuel self sources force st
    tmp_entries entries old charts :
  (∀ d, d ∈ dependencies self → candidates (compute_name d) sources = []) →
  batch self force st ≠ [] →
  lookup_path tmp_root (fs st) = Some (Dir tmp_entries) →
  lookup_path (location self) (fs st) = Some (Dir entries) →
  default (Dir ∅) (entries !! "charts") = Dir old →
  call_helm_dependency_update (experimental_oci st)
    (chart_to_update self (batch self force st)) = Some charts →
  (∀ file_name,
     is_Some (charts !! file_name)
     ∨ (force = false
        ∧ ∃ d, d ∈ dependencies self ∧ in_place self st d
               ∧ file_name = compute_name d +:+ ".tgz") →
     settled_archive k sources ((charts ∪ old) !! file_name) = true) →
  k < fuel →
  ∃ t updated,
    update_dependencies (S (S fuel)) self sources force st
    = ({| fs := t; experimental_oci := experimental_oci st;
          trace := trace st ++ [EvFetch (batch self force st)] |},
       inr updated)
    ∧ fs_put false (subcharts_dir self) (Some (Dir (charts ∪ old))) (fs st)
      = Some t
    ∧ (updated = true
       ↔ charts ≠ ∅
         ∨ (force = false ∧ ∃ d, d ∈ dependencies self ∧ in_place self st d)).
Proof.
  intros Hnone Hbatch Htmp Hself Hold Hhelm Hsettled Hfuel.
  destruct (makedirs_subcharts_dir self entries st Hself)
    as (t0 & Hmk & Ht0 & Hdir).
  rewrite Hold in Ht0, Hdir.
  destruct (tmp_root_stays self _ _ _ _ Htmp Ht0) as [tmp_entries' Htmp'].
  pose proof (batch_makedirs self force _ _ Hmk) as Hsame.
  destruct (fetch_into_subcharts_dir k fuel self sources force
              (set_fs t0 st) tmp_entries' old charts)
    as (t & updated & Hrun & Ht & Hupdated); try done.
  - by rewrite Hsame.
  - by rewrite Hsame.
  - intros f [Hf|(Hforce & d & Hd & Hin & Hname)]; apply Hsettled; [by left|].
    right. split; [done|]. exists d. split; [done|]. split; [|done].
    by apply (makedirs_in_place self st (set_fs t0 st) d Hmk).
  - exists t, updated.
    rewrite (update_dependencies_makedirs _ _ _ _ _ (set_fs t0 st));
      [|by eapply batch_dependencies|done|simpl; by rewrite Hdir].
    rewrite Hsame in Hrun. split; [exact Hrun|]. split.
    + by rewrite <-(fs_put_fs_put _ _ _ _ _ _ Ht0).
    + rewrite Hupdated. f_equiv. f_equiv. f_equiv. intros d. f_equiv.
      by rewrite (makedirs_in_place self st (set_fs t0 st) d Hmk).
Qed.

Lemma missing_dependencies_are_fetched_witness :
  batch Sample.web false Sample.web_start = [Sample.foo_dependency]
  ∧ lookup_path ["web"; "charts"] (fs Sample.web_start) = None
  ∧ Sample.download true (chart_to_update Sample.web [Sample.foo_dependency])
    = Some {[ "foo-1.0.tgz" := Sample.foo_archive ]}
  ∧ settled_archive 0 [] (Some Sample.foo_archive) = true
  ∧ update_dependencies (H := Sample.helm_online) 3 Sample.web [] false
      Sample.web_start
    = (Sample.web_resolved [EvFetch [Sample.foo_dependency]], inr true).
Proof.
  assert (batch Sample.web false Sample.web_start
          = [Sample.foo_dependency]) as Hbatch by (vm_compute; reflexivity).
  assert (Sample.download true
            (chart_to_update Sample.web [Sample.foo_dependency])
          = Some {[ "foo-1.0.tgz" := Sample.foo_archive ]}) as Hhelm
    by (vm_compute; reflexivity).
  split; [exact Hbatch|]. split; [reflexivity|]. split; [exact Hhelm|].
  split; [reflexivity|].
  destruct (missing_dependencies_are_fetched (H := Sample.helm_online) 0 1
              Sample.web [] false Sample.web_start ∅
              (<["Chart.yaml" := Yaml Sample.web_0_1]> ∅) ∅
              {[ "foo-1.0.tgz" := Sample.foo_archive ]})
    as (t & updated & Hrun & Ht & Hupdated).
  - done.
  - by rewrite Hbatch.
  - reflexivity.
  - reflexivity.
  - reflexivity.
  - by rewrite Hbatch.
  - intros f [[x Hx]|(_ & d & Hd & [y Hy] & _)].
    + apply lookup_singleton_Some in Hx as [<- <-]. reflexivity.
    + apply list_elem_of_singleton in Hd as ->. by vm_compute in Hy.
  - lia.
  - rewrite Hbatch in Hrun. rewrite Hrun.
    vm_compute in Ht. injection Ht as <-.
    assert (updated = true) as ->; [|reflexivity].
    apply Hupdated. left.
    intros Hempty. apply (f_equal (lookup "foo-1.0.tgz")) in Hempty.
    by rewrite lookup_singleton_eq, lookup_empty in Hempty.
Defined.

Lemma resolve_in_place_run `{Helm} k fuel self sources st tmp_entries :
  dependencies self ≠ [] →
  Forall (λ dep, candidates (compute_name dep) sources = []
                 ∧ settled_archive k sources
                     (lookup_path (archive_path self dep) (fs st)) = true)
         (dependencies self) →
  lookup_path tmp_root (fs st) = Some (Dir tmp_entries) →
  k < fuel →
  update_dependencies (S (S fuel)) self sources false st = (st, inr true).
Proof.
  intros Hdeps Hall Htmp Hfuel. rewrite Forall_forall in Hall.
  set (d := tmp_root ++ [fresh_string "tmp" tmp_entries]).
  destruct (mkdtemp_run _ _ Htmp) as (Hfresh & cur0 & Hmkdtemp & Hregion0).
  fold d in Hfresh, Hmkdtemp, Hregion0.
  assert (∀ dep, dep ∈ dependencies self →
            is_Some (lookup_path (archive_path self dep) (fs st))) as Hpresent.
  { intros dep [_ Hs]%Hall.
    apply settled_archive_inv in Hs as (? & ? & ? & ? & -> & _). eauto. }
  assert (is_Some (lookup_path (subcharts_dir self) (fs st))) as Hcharts.
  { destruct (dependencies self) as [|dep deps] eqn:E; [done|].
    apply (lookup_path_prefix _ [compute_name dep +:+ ".tgz"]), Hpresent. left. }
  rewrite update_dependencies_S, bind_run.
  rewrite bool_decide_eq_true_2 by done.
  unfold when. rewrite makedirs_present by done. rewrite bind_run.
  unfold collect_dependencies.
  rewrite collect_in_place by (intros dep Hdep; split; [by apply Hall|auto]).
  rewrite (left_id_L ∅ (∪)). unfold fetch_and_substitute.
  rewrite bind_run. unfold mret at 1, M_ret at 1.
  rewrite set_map_empty, (left_id_L ∅ (∪)).
  set (to_resolve := list_to_set (archive_path self <$> dependencies self)
                     : gset path).
  assert (to_resolve ≠ ∅) as Hsome.
  { destruct (dependencies self) as [|dep deps] eqn:E; [done|].
    unfold to_resolve. rewrite fmap_cons, list_to_set_cons. set_solver. }
  rewrite bool_decide_eq_true_2 by (by right).
  rewrite bind_run. unfold tempdir. rewrite bind_run, Hmkdtemp.
  destruct (resolve_archives_settled sources fuel k self d Hfuel
              (elements (set_map inr to_resolve : gset (string + path)))
              (fs st) ∅ (set_fs cur0 st) Hregion0)
    as (scratch' & cur' & Hrun & Hregion').
  { intros item (p & -> & Hp)%elem_of_elements%elem_of_map.
    apply elem_of_list_to_set, list_elem_of_fmap in Hp as (dep & -> & Hdep).
    exists (archive_path self dep). split; [done|]. split; [|by apply Hall].
    apply (independent_tmp _ _ (fs st)); [done|by apply Hpresent|..];
      apply (subcharts_dir_not_tmp self). }
  simpl in Hrun. rewrite Hrun.
  rewrite (rm_run d (fs st)).
  - simpl. by destruct st.
  - simpl. rewrite (lookup_fs_put _ _ _ _ _ Hregion'). eauto.
  - simpl. by apply (scratch_remove _ _ _ _ Hregion').
Qed.

(** X14. When the dependencies of a chart are all in place, without
    sources, as archives in which nothing is to be substituted, [resolve]
    without the force flag leaves the state as it is and returns true; and so
    it does after [clean], which keeps these archives. *)
Theorem resolve_in_place `{Helm} k fuel self sources st tmp_entries :
  dependencies self ≠ [] →
  Forall (λ dep, candidates (compute_name dep) sources = []
                 ∧ settled_archive k sources
                     (lookup_path (archive_path self dep) (fs st)) = true)
         (dependencies self) →
  lookup_path tmp_root (fs st) = Some (Dir tmp_entries) →
  k < fuel →
  update_dependencies (S (S fuel)) self sources false st = (st, inr true)
  ∧ ∀ st' r,
      clean_dependencies self st = (st', r) →
      update_dependencies (S (S fuel)) self sources false st' = (st', inr true).
Proof.
  intros Hdeps Hall Htmp Hfuel.
  split; [by apply (resolve_in_place_run k _ _ _ _ tmp_entries)|].
  intros st' r Hclean.
  destruct (lookup_path (subcharts_dir self) (fs st)) as [[| | |es]|] eqn:Hdir.
  1-3,5: (unfold clean_dependencies, iterdir, listdir in Hclean;
          rewrite !bind_run, Hdir in Hclean; injection Hclean as <- <-;
          by apply (resolve_in_place_run k _ _ _ _ tmp_entries)).
  destruct (clean_dependencies_spec self st es Hdir) as (t & Hrun & Ht).
  rewrite Hclean in Hrun. injection Hrun as -> ->.
  rewrite Forall_forall in Hall.
  destruct (tmp_root_stays self _ _ _ _ Htmp Ht) as [tmp_entries' Htmp'].
  apply (resolve_in_place_run k _ _ _ _ tmp_entries');
    [done| |done|done].
  apply Forall_forall. intros dep Hdep. destruct (Hall dep Hdep) as [Hnone Hs].
  split; [done|]. simpl.
  assert (lookup_path (archive_path self dep) t
          = lookup_path (archive_path self dep) (fs st)) as ->; [|done].
  unfold archive_path. rewrite !lookup_path_app, Hdir.
  rewrite (lookup_fs_put _ _ _ _ _ Ht). simpl.
  apply settled_archive_inv in Hs as (members & ? & ? & ? & Hs & _).
  unfold archive_path in Hs. rewrite lookup_path_app, Hdir in Hs. simpl in Hs.
  rewrite Hs. apply map_lookup_filter_Some. split; [done|]. simpl.
  unfold extra_archive.
  rewrite (drop_last_app (compute_name dep) ".tgz"), bool_decide_eq_false_2;
    [apply andb_false_r|].
  rewrite match_to_dependencies_nil. intros Hallfalse.
  specialize (Hallfalse dep Hdep). unfold startswith in Hallfalse.
  by rewrite string_prefix_refl in Hallfalse.
Qed.

Lemma resolve_in_place_witness :
  dependencies Sample.app ≠ []
  ∧ settled_archive 0 []
      (lookup_path ["app"; "charts"; "x-1.0.tgz"] (fs Sample.start)) = true
  ∧ lookup_path tmp_root (fs Sample.start) = Some (Dir ∅)
  ∧ update_dependencies (H := Sample.helm) 3 Sample.app [] false Sample.start
    = (Sample.start, inr true)
  ∧ update_dependencies (H := Sample.helm) 3 Sample.app [] false
      (Sample.cleaned [])
    = (Sample.cleaned [], inr true).
Proof.
  split; [done|]. split; [reflexivity|]. split; [reflexivity|].
  destruct (resolve_in_place (H := Sample.helm) 0 1 Sample.app [] Sample.start ∅)
    as [Hrun Hcleaned]; [done| |reflexivity|lia|].
  { repeat constructor. }
  split; [exact Hrun|]. apply (Hcleaned _ (inr ())). vm_compute. reflexivity.
Defined.

Lemma update_dependencies_candidates `{Helm} fuel self sources force st st' d :
  update_dependencies (S fuel) self sources force st = (st', inr false) →
  d ∈ dependencies self →
  candidates (compute_name d) sources = [].
Proof.
  intros Hrun Hd.
  destruct (candidates (compute_name d) sources) as [|src [|src' l]] eqn:Hc;
    [done|..].
  - by apply (update_dependencies_source_updated _ _ _ _ d src) in Hrun.
  - exfalso. rewrite update_dependencies_S, bind_run in Hrun.
    destruct (when _ _ st) as [st0 [e|[]]]; [done|]. rewrite bind_run in Hrun.
    destruct (collect_dependencies _ self sources force st0)
      as [st1 [e|acc]] eqn:Hloop; [done|].
    unfold collect_dependencies in Hloop.
    apply list_elem_of_split in Hd as (l1 & l2 & Hsplit). rewrite Hsplit in Hloop.
    eapply foldM_fails_at in Hloop as [e' [=]].
    intros. apply resolve_dependency_ambiguous. rewrite Hc. simpl. lia.
Qed.

(** X15. When [resolve] returns false, no dependency of the chart had a
    source and, without the force flag, none had its archive in place; and
    if the chart has dependencies, the fetcher was called once, with all of
    them. *)
Theorem nothing_updated_means_nothing_in_place `{Helm} fuel self sources force
    st st' :
  update_dependencies (S fuel) self sources force st = (st', inr false) →
  (∀ d, d ∈ dependencies self →
     candidates (compute_name d) sources = []
     ∧ (force = false → ¬ in_place self st d))
  ∧ (dependencies self ≠ [] →
     ∃ added, trace st' = trace st ++ added
              ∧ own_fetches added = [dependencies self]).
Proof.
  intros Hrun.
  assert (∀ d, d ∈ dependencies self → candidates (compute_name d) sources = [])
    as Hnone by (intros d; by eapply update_dependencies_candidates).
  rewrite update_dependencies_S, bind_run in Hrun.
  destruct (when _ _ st) as [st0 [e|[]]] eqn:Hmk; [done|].
  rewrite bind_run, collect_no_candidates in Hrun by done.
  set (to_fetch := if force then dependencies self
                   else filter (λ d, ¬ in_place self st0 d) (dependencies self))
    in Hrun.
  set (to_resolve := if force then (∅ : gset path) else _) in Hrun.
  assert (to_resolve = ∅) as Hempty.
  { unfold fetch_and_substitute in Hrun. rewrite bind_run in Hrun.
    match type of Hrun with context [?m st0] =>
      destruct (m st0) as [st1 [e|generated]]; [done|] end.
    case_bool_decide as Hsome.
    - rewrite bind_run in Hrun. by destruct (tempdir _ st1) as [st2 [e|[]]].
    - destruct (decide (to_resolve = ∅)); [done|]. destruct Hsome. by right. }
  assert (force = false → ∀ d, d ∈ dependencies self → ¬ in_place self st0 d)
    as Hmissing.
  { intros -> d Hd Hplace. subst to_resolve.
    assert (archive_path self d ∈ (∅ : gset path)) as Hin; [|set_solver].
    rewrite <-Hempty. apply elem_of_list_to_set, list_elem_of_fmap.
    exists d. split; [done|]. by apply list_elem_of_filter. }
  split.
  - intros d Hd. split; [by apply Hnone|]. intros Hforce Hplace.
    apply (Hmissing Hforce d Hd). revert Hmk. case_bool_decide as Hdeps.
    + intros Hmk. by apply (makedirs_in_place self st st0 d).
    + by intros [= <-].
  - intros Hdeps.
    assert (to_fetch = dependencies self) as Hall.
    { unfold to_fetch. destruct force; [done|]. apply filter_all. auto. }
    destruct (fetch_free_when _ _ (fetch_free_makedirs _) _ _ _ Hmk)
      as (added0 & Ht0 & Hfree0).
    destruct (traces_fetch_and_substitute _ self to_fetch to_resolve false
                (λ chart, fetch_free_resolve_subcharts fuel chart sources)
                _ _ _ Hrun) as (added & Ht & Hfetch).
    exists (added0 ++ added). rewrite Ht, Ht0, (assoc_L (++)). split; [done|].
    rewrite own_fetches_app, Hfree0. rewrite Hall in Hfetch.
    destruct (dependencies self) as [|d0 deps]; [done|].
    by destruct Hfetch as [->|[_ [e [=]]]].
Qed.

Lemma nothing_updated_means_nothing_in_place_witness :
  update_dependencies (H := Sample.helm_empty) 1 Sample.web [] false
    Sample.web_resolving
  = (set_trace [EvFetch [Sample.foo_dependency]] Sample.web_resolving,
     inr false)
  ∧ ¬ in_place Sample.web Sample.web_resolving Sample.foo_dependency
  ∧ ∃ added,
      [EvFetch [Sample.foo_dependency]] = [] ++ added
      ∧ own_fetches added = [dependencies Sample.web].
Proof.
  assert (update_dependencies (H := Sample.helm_empty) 1 Sample.web [] false
            Sample.web_resolving
          = (set_trace [EvFetch [Sample.foo_dependency]] Sample.web_resolving,
             inr false)) as Hrun by (vm_compute; reflexivity).
  split; [exact Hrun|].
  destruct (nothing_updated_means_nothing_in_place (H := Sample.helm_empty)
              _ _ _ _ _ _ Hrun) as [Hdeps Hfetch].
  split.
  - apply (Hdeps Sample.foo_dependency); [by left|done].
  - by apply Hfetch.
Defined.

(** ** The command *)

(** X16. On a chart without dependencies the command touches nothing,
    whatever file it is given to touch: without [remove] it only sets the
    configuration, and with [remove], when the subcharts directory exists,
    it removes every archive of that directory. *)
Theorem command_without_dependencies `{Helm} fuel chart force touch oci sources
    st :
  dependencies chart = [] →
  helm_dependency_update (S fuel) chart force touch oci sources false st
  = (set_experimental_oci oci st, inr ())
  ∧ ∀ es,
      lookup_path (subcharts_dir chart) (fs st) = Some (Dir es) →
      ∃ t,
        helm_dependency_update (S fuel) chart force touch oci sources true st
        = (set_fs t (set_experimental_oci oci st), inr ())
        ∧ fs_put false (subcharts_dir chart)
            (Some (Dir (filter (λ kv, endswith kv.1 ".tgz" = false) es)))
            (fs st) = Some t.
Proof.
  intros Hdeps. unfold helm_dependency_update. split.
  - rewrite bind_run. simpl. rewrite bind_run.
    rewrite update_dependencies_no_dependency by done.
    rewrite bind_run. simpl. by destruct touch.
  - intros es Hdir.
    destruct (clean_dependencies_spec chart (set_experimental_oci oci st) es Hdir)
      as (t & Hclean & Ht).
    exists t. split.
    + rewrite bind_run. simpl. rewrite bind_run.
      rewrite update_dependencies_no_dependency by done.
      rewrite bind_run. simpl. rewrite Hclean. by destruct touch.
    + simpl in Ht. rewrite <-Ht. do 3 f_equal. apply map_filter_ext.
      intros n x _. simpl. unfold extra_archive, match_to_dependencies,
        dependencies_fullnames. rewrite Hdeps. simpl.
      by rewrite andb_true_r.
Qed.

Lemma command_without_dependencies_witness :
  dependencies Sample.lib = []
  ∧ helm_dependency_update (H := Sample.helm) 1 Sample.lib true
      (Some ["lib"; "Chart.yaml"]) false [] false Sample.lib_only
    = (set_experimental_oci false Sample.lib_only, inr ()).
Proof.
  split; [reflexivity|].
  by apply (command_without_dependencies (H := Sample.helm) 0 Sample.lib).
Defined.

(** X17. On a chart whose dependencies are all in place, without sources
    and with nothing to substitute in their archives, the command without
    the force flag touches the file it is given, though [resolve] has changed
    nothing; what it changes is the configuration and, with [remove], the
    subcharts directory, which loses its extra archives. *)
Theorem command_touches_when_all_in_place `{Helm} k fuel chart sources oci touch
    remove st tmp_entries es :
  dependencies chart ≠ [] →
  Forall (λ dep, candidates (compute_name dep) sources = []
                 ∧ settled_archive k sources
                     (lookup_path (archive_path chart dep) (fs st)) = true)
         (dependencies chart) →
  lookup_path tmp_root (fs st) = Some (Dir tmp_entries) →
  lookup_path (subcharts_dir chart) (fs st) = Some (Dir es) →
  is_Some (lookup_path touch (fs st)) →
  independent (subcharts_dir chart) touch →
  k < fuel →
  ∃ t,
    helm_dependency_update (S (S fuel)) chart false (Some touch) oci sources
      remove st
    = ({| fs := t; experimental_oci := oci;
          trace := trace st ++ [EvTouch touch] |}, inr ())
    ∧ fs_put false (subcharts_dir chart)
        (Some (Dir (if remove
                    then filter (λ kv, extra_archive chart kv.1 = false) es
                    else es)))
        (fs st) = Some t.
Proof.
  intros Hdeps Hall Htmp Hdir Htouch Hind Hfuel.
  unfold helm_dependency_update. rewrite bind_run. simpl. rewrite bind_run.
  rewrite (resolve_in_place_run k fuel chart sources (set_experimental_oci oci st)
             tmp_entries) by done.
  rewrite bind_run. destruct remove; simpl.
  - destruct (clean_dependencies_spec chart (set_experimental_oci oci st) es Hdir)
      as (t & -> & Ht).
    exists t. split; [|done]. unfold utime, exists_. rewrite bind_run. simpl.
    rewrite bool_decide_eq_true_2; [done|].
    by rewrite (lookup_fs_put_independent _ _ _ _ _ _ Hind Ht).
  - exists (fs st). split; [|by apply fs_put_lookup].
    unfold utime, exists_. rewrite bind_run. simpl.
    by rewrite bool_decide_eq_true_2.
Qed.

Lemma command_touches_when_all_in_place_witness :
  dependencies Sample.app ≠ []
  ∧ settled_archive 0 []
      (lookup_path ["app"; "charts"; "x-1.0.tgz"] (fs Sample.start)) = true
  ∧ is_Some (lookup_path ["app"; "Chart.yaml"] (fs Sample.start))
  ∧ independent ["app"; "charts"] ["app"; "Chart.yaml"]
  ∧ ∃ t,
      helm_dependency_update (H := Sample.helm) 3 Sample.app false
        (Some ["app"; "Chart.yaml"]) true [] false Sample.start
      = ({| fs := t; experimental_oci := true;
            trace := [EvTouch ["app"; "Chart.yaml"]] |}, inr ())
      ∧ fs_put false ["app"; "charts"]
          (Some (Dir (<["x-1.0.tgz" := Sample.archive_of Sample.x_1_0]>
                      {[ "y-2.0.tgz" := Sample.archive_of Sample.y_2_0 ]})))
          (fs Sample.start) = Some t.
Proof.
  assert (independent ["app"; "charts"] ["app"; "Chart.yaml"]) as Hind.
  { split; by intros [q [=]]. }
  split; [done|]. split; [reflexivity|]. split; [by eexists|].
  split; [exact Hind|].
  apply (command_touches_when_all_in_place (H := Sample.helm) 0 1 Sample.app []
           true ["app"; "Chart.yaml"] false Sample.start ∅);
    [done| |reflexivity|reflexivity|by eexists|exact Hind|lia].
  repeat constructor.
Defined.

(** ** The commands on the cluster *)

(** X18. With a distribution that the option accepts, [k3d] or [kind],
    [kubectl] is always given a context: the one that was set, or else the
    one of the distribution; the arguments follow it as they were given. *)
Theorem kubectl_is_given_a_context `{Cluster.Shell} config arguments :
  Cluster.distribution config ∈ ["k3d"; "kind"] →
  ∃ context,
    Cluster.context config = Some context
    ∧ Cluster.kubectl_call config arguments
      = Cluster.call (["kubectl"; "--context"; context] ++ arguments)
    ∧ Cluster.kubectl_output config arguments
      = Cluster.check_output (["kubectl"; "--context"; context] ++ arguments)
    ∧ (∀ value, Cluster._context (Cluster.kubectl config) = Some value →
         context = value)
    ∧ (Cluster._context (Cluster.kubectl config) = None →
       context = if decide (Cluster.distribution config = "k3d")
                 then "k3d-k3s-default" else "kind-kind").
Proof.
  intros Hchoice. unfold Cluster.kubectl_call, Cluster.kubectl_output,
    Cluster.context.
  destruct (Cluster._context (Cluster.kubectl config)) as [value|].
  - exists value. repeat split; [by intros v [= <-]|done].
  - destruct (decide (Cluster.distribution config = "k3d")) as [Hk3d|Hk3d].
    + exists "k3d-k3s-default". by repeat split.
    + destruct (decide (Cluster.distribution config = "kind")) as [Hkind|Hkind].
      * exists "kind-kind". by repeat split.
      * exfalso. set_solver.
Qed.

Lemma kubectl_is_given_a_context_witness :
  "kind" ∈ ["k3d"; "kind"]
  ∧ Cluster.kubectl_call (H := Sample.shell)
      {| Cluster.distribution := "kind";
         Cluster.kubectl := {| Cluster._context := None |} |}
      ["get"; "pods"]
    = Cluster.call (H := Sample.shell)
        ["kubectl"; "--context"; "kind-kind"; "get"; "pods"].
Proof.
  split; [set_solver|].
  destruct (kubectl_is_given_a_context (H := Sample.shell)
              {| Cluster.distribution := "kind";
                 Cluster.kubectl := {| Cluster._context := None |} |}
              ["get"; "pods"]) as (context & _ & Hcall & _ & _ & Hdefault);
    [set_solver|].
  rewrite Hcall, (Hdefault eq_refl). reflexivity.
Defined.

(** X19. To remove [all] is to remove the cluster and then the registry,
    a failure of the first leaving the second undone; and only [k3d] has a
    registry to remove. *)
Theorem remove_all_is_cluster_then_registry `{Cluster.Shell} config done :
  Cluster.remove config "all" done
  = Cluster.bind (Cluster.remove config "cluster")
      (λ _, Cluster.remove config "registry") done
  ∧ (Cluster.distribution config ≠ "k3d" →
     Cluster.remove config "registry" done = (done, inr ())).
Proof.
  unfold Cluster.remove. split.
  - destruct (decide (Cluster.distribution config = "k3d")) as [Hk3d|Hk3d].
    + rewrite !bool_decide_eq_true_2 by set_solver.
      rewrite !bool_decide_eq_false_2 by (by intros [[=]|[[=]|[]%elem_of_nil]%elem_of_cons]%elem_of_cons).
      unfold Cluster.when, Cluster.bind, Cluster.ret.
      by destruct (Cluster.call _ done) as [done1 [e|[]]].
    + destruct (decide (Cluster.distribution config = "kind")) as [Hkind|Hkind];
        [|done].
      rewrite !bool_decide_eq_true_2 by set_solver.
      rewrite !bool_decide_eq_false_2 by (by intros [[=]|[[=]|[]%elem_of_nil]%elem_of_cons]%elem_of_cons).
      unfold Cluster.when, Cluster.bind, Cluster.ret.
      by destruct (Cluster.call _ done) as [done1 [e|[]]].
  - intros Hk3d.
    destruct (decide (Cluster.distribution config = "k3d")) as [?|_]; [done|].
    destruct (decide (Cluster.distribution config = "kind")) as [Hkind|Hkind];
      [|done].
    by rewrite bool_decide_eq_false_2
      by (by intros [[=]|[[=]|[]%elem_of_nil]%elem_of_cons]%elem_of_cons).
Qed.

(** X20. The command that installs [kind] never reads the version it
    has not found. When [kind] is not found it downloads it without asking
    for a version. When [kind] is found it asks for its version, and fails
    when it cannot read it from the answer, be it with the force flag; else
    it downloads [kind] with the force flag or when the version is not the
    one of the URL, and otherwise does nothing more. *)
Theorem kind_reads_the_version_it_found `{Cluster.Shell} config force done :
  (∀ done' r, Cluster.kind config force done = (done', r) →
     r ≠ inl Cluster.UnboundLocalError)
  ∧ (Cluster.distribution config = "kind" →
     Cluster.which done "kind" = false →
     Cluster.kind config force done
     = (done ++ [Cluster.Download Cluster.kind_url "kind"], inr ()))
  ∧ (Cluster.distribution config = "kind" →
     Cluster.which done "kind" = true →
     ∀ output,
       Cluster.stdout done ["kind"; "version"] = Some output →
       Cluster.kind config force done
       = match Cluster.match_kind_version output with
         | None =>
             (done ++ [Cluster.Run ["kind"; "version"]],
              inl Cluster.AttributeError)
         | Some version =>
             if force || bool_decide (version ≠ "v0.11.1")
             then (done ++ [Cluster.Run ["kind"; "version"];
                            Cluster.Download Cluster.kind_url "kind"], inr ())
             else (done ++ [Cluster.Run ["kind"; "version"]], inr ())
         end).
Proof.
  unfold Cluster.kind.
  destruct (decide (Cluster.distribution config ≠ "kind")) as [Hother|Hkind].
  { unfold Cluster.ret. split; [by intros done' r [= <- <-]|]. by split. }
  change (Cluster.search_version Cluster.kind_url) with (Some "v0.11.1").
  unfold Cluster.group1 at 1, Cluster.bind at 1, Cluster.ret at 1.
  unfold Cluster.bind, Cluster.found, Cluster.ret, Cluster.check_output,
    Cluster.download, Cluster.raise.
  split; [|split].
  - intros done' r.
    destruct force; simpl; destruct (Cluster.which done "kind"); simpl;
      destruct (Cluster.stdout done ["kind"; "version"]) as [output|]; simpl;
      try destruct (Cluster.match_kind_version output) as [version|]; simpl;
      try case_bool_decide; by intros [= <- <-].
  - intros _ Hmissing. destruct force; simpl; by rewrite Hmissing.
  - intros _ Hfound output Houtput.
    destruct force; simpl; rewrite Hfound; simpl; rewrite Houtput; simpl.
    + destruct (Cluster.match_kind_version output) as [version|]; simpl;
        [|done].
      by rewrite <-(assoc_L (++)).
    + destruct (Cluster.match_kind_version output) as [version|]; simpl;
        [|done].
      case_bool_decide; simpl; [by rewrite <-(assoc_L (++))|done].
Qed.

Lemma split_lines_one_line s rest :
  Cluster.one_line s = true →
  Cluster.split_lines (s +:+ String "010"%char rest) = s :: Cluster.split_lines rest.
Proof.
  induction s as [|c s IH]; intros Hs.
  - done.
  - change (String c s +:+ String "010"%char rest)
      with (String c (s +:+ String "010"%char rest)).
    simpl in Hs. apply andb_prop in Hs as [Hc%bool_decide_eq_true Hs].
    simpl. destruct (decide (c = "010"%char)); [done|]. by rewrite IH.
Qed.

Lemma one_line_app s t :
  Cluster.one_line (s +:+ t) = Cluster.one_line s && Cluster.one_line t.
Proof.
  induction s as [|c s IH]; [done|].
  change (String c s +:+ t) with (String c (s +:+ t)). simpl.
  by rewrite IH, andb_assoc.
Qed.

(** X21. What [add-domain] applies with [k3d] is the [NodeHosts] it has
    read with one line more in front, the address and the domain; and if
    that is what it reads again, it applies nothing. The address and the
    domain must hold no newline. *)
Theorem add_domain_k3d_twice domain ip node_hosts applied :
  Cluster.one_line domain = true →
  Cluster.one_line ip = true →
  Cluster.add_domain_k3d domain ip node_hosts = Some applied →
  Cluster.split_lines applied
  = (ip +:+ " " +:+ domain) :: Cluster.split_lines node_hosts
  ∧ Cluster.add_domain_k3d domain ip applied = None.
Proof.
  intros Hdomain Hip. unfold Cluster.add_domain_k3d.
  case_bool_decide as Hnew; [|done]. intros [= <-].
  assert (Cluster.split_lines
            ((ip +:+ " " +:+ domain) +:+ String "010"%char node_hosts)
          = (ip +:+ " " +:+ domain) :: Cluster.split_lines node_hosts) as Hsplit.
  { apply split_lines_one_line. by rewrite !one_line_app, Hip, Hdomain. }
  split; [done|]. rewrite Hsplit.
  rewrite bool_decide_eq_false_2; [done|]. intros Hnot. apply Hnot. left.
Qed.

Lemma add_domain_k3d_twice_witness :
  Cluster.one_line "example.localhost" = true
  ∧ Cluster.one_line "172.17.0.1" = true
  ∧ Cluster.add_domain_k3d "example.localhost" "172.17.0.1" "10.0.0.2 node"
    = Some ("172.17.0.1 example.localhost" +:+ String "010"%char "10.0.0.2 node")
  ∧ Cluster.add_domain_k3d "example.localhost" "172.17.0.1"
      ("172.17.0.1 example.localhost" +:+ String "010"%char "10.0.0.2 node")
    = None.
Proof.
  split; [reflexivity|]. split; [reflexivity|]. split; [reflexivity|].
  by apply (add_domain_k3d_twice "example.localhost" "172.17.0.1"
              "10.0.0.2 node").
Defined.
